(** * MixedReality-WebRTC native interop layer: a shallow embedding

    Source: libs/Microsoft.MixedReality.WebRTC.Native/src/interop/interop_api.cpp

    The C entry points of the interop layer are embedded as Rocq functions.
    Native pointers become [option]s ([None] is [nullptr]), fixed-width
    integers become [Z] with their conversions written out, [double] is an
    IEEE-754 binary64 value ([spec_float]), the engine behind the handles is
    the class [Engine], whose operations thread an explicit world state, and
    the statistics callback is the trace of the structures handed to it.
    A call that stops on a failed [RTC_CHECK] or runs into undefined behaviour
    has the outcome [Aborts] or [Undefined]. *)

From Stdlib Require Import ZArith List String Ascii Bool Lia SpecFloat.
From stdpp Require Import gmap strings list.
Import ListNotations.

Local Open Scope string_scope.
Local Open Scope list_scope.
Local Open Scope Z_scope.

(** ** Result codes *)

(** Modelled from the spec: the [Result] enumeration is declared in
    interop_api.h, outside interop_api.cpp.  The
    enumerators are the ones interop_api.cpp names plus the wrong-thread code
    of the specification; [kEngineError] stands for the engine-specific codes
    that [error().result()] passes through unchanged. *)
Inductive mrsResult : Type :=
| kSuccess
| kUnknownError
| kInvalidParameter
| kInvalidOperation
| kWrongThread
| kNotFound
| kInvalidNativeHandle
| kEngineError (code : Z).

(** ** Scalars *)

(** [double]: IEEE-754 binary64. *)
Definition double : Type := spec_float.
Definition double_prec : Z := 53.
Definition double_emax : Z := 1024.
Definition double_of_Z (n : Z) : double :=
  binary_normalize double_prec double_emax n 0 false.
Definition double_add : double -> double -> double :=
  SFadd double_prec double_emax.
Definition double_div : double -> double -> double :=
  SFdiv double_prec double_emax.
Definition double_ltb : double -> double -> bool := SFltb.
(** The literals of the source. *)
Definition double_zero : double := S754_zero false.
Definition double_half : double := double_div (double_of_Z 1) (double_of_Z 2).

(** Value initialisation [T{}] of the types that occur as statistics fields. *)
Class ValueInit (T : Type) : Type := value_init : T.
Global Instance ValueInit_Z : ValueInit Z := 0.
Global Instance ValueInit_bool : ValueInit bool := false.
Global Instance ValueInit_string : ValueInit string := "".
Global Instance ValueInit_double : ValueInit double := double_zero.
Global Instance ValueInit_ptr {A} : ValueInit (option A) := None.

(** ** The engine's statistics objects (webrtc::RTCStats) *)

(** [webrtc::RTCStatsMember<T>]: a value that may be undefined.  An undefined
    member holds a value-initialised [T]. *)
Definition RTCStatsMember (T : Type) : Type := option T.

Definition is_defined {T} (m : RTCStatsMember T) : bool :=
  match m with Some _ => true | None => false end.

(** [operator*] and [operator->].  Their [RTC_DCHECK(is_defined_)] is compiled
    out of release builds, where the stored value is returned as it is. *)
Definition deref {T} `{ValueInit T} (m : RTCStatsMember T) : T :=
  match m with Some v => v | None => value_init end.

(** [GetValueIfDefined]: [member.is_defined() ? *member : 0]. *)
Definition GetValueIfDefined {T} `{ValueInit T} (member : RTCStatsMember T) : T :=
  if is_defined member then deref member else value_init.

Module RTCDataChannelStats.
Record t : Type := mk {
    id : string;
    timestamp_us : Z;
    datachannelid : RTCStatsMember Z;
    messages_sent : RTCStatsMember Z;
    bytes_sent : RTCStatsMember Z;
    messages_received : RTCStatsMember Z;
    bytes_received : RTCStatsMember Z }.
End RTCDataChannelStats.

Module RTCOutboundRTPStreamStats.
Record t : Type := mk {
    id : string;
    timestamp_us : Z;
    kind : RTCStatsMember string;
    track_id : RTCStatsMember string;
    packets_sent : RTCStatsMember Z;
    bytes_sent : RTCStatsMember Z;
    frames_encoded : RTCStatsMember Z }.
End RTCOutboundRTPStreamStats.

Module RTCInboundRTPStreamStats.
Record t : Type := mk {
    id : string;
    timestamp_us : Z;
    kind : RTCStatsMember string;
    track_id : RTCStatsMember string;
    packets_received : RTCStatsMember Z;
    bytes_received : RTCStatsMember Z;
    frames_decoded : RTCStatsMember Z }.
End RTCInboundRTPStreamStats.

Module RTCMediaStreamTrackStats.
Record t : Type := mk {
    id : string;
    timestamp_us : Z;
    track_identifier : RTCStatsMember string;
    remote_source : RTCStatsMember bool;
    kind : RTCStatsMember string;
    audio_level : RTCStatsMember double;
    total_audio_energy : RTCStatsMember double;
    total_samples_received : RTCStatsMember Z;
    total_samples_duration : RTCStatsMember double;
    frames_sent : RTCStatsMember Z;
    huge_frames_sent : RTCStatsMember Z;
    frames_received : RTCStatsMember Z;
    frames_dropped : RTCStatsMember Z }.
End RTCMediaStreamTrackStats.

Module RTCTransportStats.
Record t : Type := mk {
    id : string;
    timestamp_us : Z;
    bytes_sent : RTCStatsMember Z;
    bytes_received : RTCStatsMember Z }.
End RTCTransportStats.

(** The other classes of the engine's report, none of which the interop layer
    reads. *)
Inductive RTCOtherStatsType : Type :=
| certificate | codec | candidate_pair | local_candidate | remote_candidate
| stream | peer_connection.

(** One entry of a report.  [cast_to<T>()] is the projection out of the
    constructor that [type] names. *)
Inductive RTCStats : Type :=
| DataChannelStats (dc_stats : RTCDataChannelStats.t)
| OutboundRTPStreamStats (ortp_stats : RTCOutboundRTPStreamStats.t)
| InboundRTPStreamStats (irtp_stats : RTCInboundRTPStreamStats.t)
| MediaStreamTrackStats (track_stats : RTCMediaStreamTrackStats.t)
| TransportStats (transport_stats : RTCTransportStats.t)
| OtherStats (ty : RTCOtherStatsType) (id : string) (timestamp_us : Z).

Definition type (stats : RTCStats) : string :=
  match stats with
  | DataChannelStats _ => "data-channel"
  | OutboundRTPStreamStats _ => "outbound-rtp"
  | InboundRTPStreamStats _ => "inbound-rtp"
  | MediaStreamTrackStats _ => "track"
  | TransportStats _ => "transport"
  | OtherStats certificate _ _ => "certificate"
  | OtherStats codec _ _ => "codec"
  | OtherStats candidate_pair _ _ => "candidate-pair"
  | OtherStats local_candidate _ _ => "local-candidate"
  | OtherStats remote_candidate _ _ => "remote-candidate"
  | OtherStats stream _ _ => "stream"
  | OtherStats peer_connection _ _ => "peer-connection"
  end.

(** [webrtc::RTCStatsReport], iterated in the order of its entries. *)
Definition RTCStatsReport : Type := list RTCStats.

(** ** The flat statistics structures handed to the caller *)

(** Modelled from the spec: the [mrs*Stats] structures are declared in
    interop_api.h, outside interop_api.cpp.  Each record has
    the fields that interop_api.cpp assigns; [track_identifier] is a
    [const char*].  A [set_f v s] is the assignment [s.f = v]. *)
Module mrsDataChannelStats.
Record t : Type := mk {
    timestamp_us : Z;
    data_channel_identifier : Z;
    messages_sent : Z;
    bytes_sent : Z;
    messages_received : Z;
    bytes_received : Z }.
End mrsDataChannelStats.

Module mrsTransportStats.
Record t : Type := mk {
    timestamp_us : Z;
    bytes_sent : Z;
    bytes_received : Z }.
End mrsTransportStats.

Module mrsAudioSenderStats.
Record t : Type := mk {
    rtp_stats_timestamp_us : Z;
    packets_sent : Z;
    bytes_sent : Z;
    track_stats_timestamp_us : Z;
    track_identifier : option string;
    audio_level : double;
    total_audio_energy : double;
    total_samples_duration : double }.
Definition set_rtp_stats_timestamp_us v s :=
    mk v (packets_sent s) (bytes_sent s) (track_stats_timestamp_us s)
       (track_identifier s) (audio_level s) (total_audio_energy s)
       (total_samples_duration s).
Definition set_packets_sent v s :=
    mk (rtp_stats_timestamp_us s) v (bytes_sent s) (track_stats_timestamp_us s)
       (track_identifier s) (audio_level s) (total_audio_energy s)
       (total_samples_duration s).
Definition set_bytes_sent v s :=
    mk (rtp_stats_timestamp_us s) (packets_sent s) v (track_stats_timestamp_us s)
       (track_identifier s) (audio_level s) (total_audio_energy s)
       (total_samples_duration s).
Definition set_track_stats_timestamp_us v s :=
    mk (rtp_stats_timestamp_us s) (packets_sent s) (bytes_sent s) v
       (track_identifier s) (audio_level s) (total_audio_energy s)
       (total_samples_duration s).
Definition set_track_identifier v s :=
    mk (rtp_stats_timestamp_us s) (packets_sent s) (bytes_sent s)
       (track_stats_timestamp_us s) v (audio_level s) (total_audio_energy s)
       (total_samples_duration s).
Definition set_audio_level v s :=
    mk (rtp_stats_timestamp_us s) (packets_sent s) (bytes_sent s)
       (track_stats_timestamp_us s) (track_identifier s) v
       (total_audio_energy s) (total_samples_duration s).
Definition set_total_audio_energy v s :=
    mk (rtp_stats_timestamp_us s) (packets_sent s) (bytes_sent s)
       (track_stats_timestamp_us s) (track_identifier s) (audio_level s) v
       (total_samples_duration s).
Definition set_total_samples_duration v s :=
    mk (rtp_stats_timestamp_us s) (packets_sent s) (bytes_sent s)
       (track_stats_timestamp_us s) (track_identifier s) (audio_level s)
       (total_audio_energy s) v.
End mrsAudioSenderStats.

Module mrsAudioReceiverStats.
Record t : Type := mk {
    rtp_stats_timestamp_us : Z;
    packets_received : Z;
    bytes_received : Z;
    track_stats_timestamp_us : Z;
    track_identifier : option string;
    audio_level : double;
    total_audio_energy : double;
    total_samples_received : Z;
    total_samples_duration : double }.
Definition set_rtp_stats_timestamp_us v s :=
    mk v (packets_received s) (bytes_received s) (track_stats_timestamp_us s)
       (track_identifier s) (audio_level s) (total_audio_energy s)
       (total_samples_received s) (total_samples_duration s).
Definition set_packets_received v s :=
    mk (rtp_stats_timestamp_us s) v (bytes_received s)
       (track_stats_timestamp_us s) (track_identifier s) (audio_level s)
       (total_audio_energy s) (total_samples_received s)
       (total_samples_duration s).
Definition set_bytes_received v s :=
    mk (rtp_stats_timestamp_us s) (packets_received s) v
       (track_stats_timestamp_us s) (track_identifier s) (audio_level s)
       (total_audio_energy s) (total_samples_received s)
       (total_samples_duration s).
Definition set_track_stats_timestamp_us v s :=
    mk (rtp_stats_timestamp_us s) (packets_received s) (bytes_received s) v
       (track_identifier s) (audio_level s) (total_audio_energy s)
       (total_samples_received s) (total_samples_duration s).
Definition set_track_identifier v s :=
    mk (rtp_stats_timestamp_us s) (packets_received s) (bytes_received s)
       (track_stats_timestamp_us s) v (audio_level s) (total_audio_energy s)
       (total_samples_received s) (total_samples_duration s).
Definition set_audio_level v s :=
    mk (rtp_stats_timestamp_us s) (packets_received s) (bytes_received s)
       (track_stats_timestamp_us s) (track_identifier s) v
       (total_audio_energy s) (total_samples_received s)
       (total_samples_duration s).
Definition set_total_audio_energy v s :=
    mk (rtp_stats_timestamp_us s) (packets_received s) (bytes_received s)
       (track_stats_timestamp_us s) (track_identifier s) (audio_level s) v
       (total_samples_received s) (total_samples_duration s).
Definition set_total_samples_received v s :=
    mk (rtp_stats_timestamp_us s) (packets_received s) (bytes_received s)
       (track_stats_timestamp_us s) (track_identifier s) (audio_level s)
       (total_audio_energy s) v (total_samples_duration s).
Definition set_total_samples_duration v s :=
    mk (rtp_stats_timestamp_us s) (packets_received s) (bytes_received s)
       (track_stats_timestamp_us s) (track_identifier s) (audio_level s)
       (total_audio_energy s) (total_samples_received s) v.
End mrsAudioReceiverStats.

Module mrsVideoSenderStats.
Record t : Type := mk {
    rtp_stats_timestamp_us : Z;
    packets_sent : Z;
    bytes_sent : Z;
    frames_encoded : Z;
    track_stats_timestamp_us : Z;
    track_identifier : option string;
    frames_sent : Z;
    huge_frames_sent : Z }.
Definition set_rtp_stats_timestamp_us v s :=
    mk v (packets_sent s) (bytes_sent s) (frames_encoded s)
       (track_stats_timestamp_us s) (track_identifier s) (frames_sent s)
       (huge_frames_sent s).
Definition set_packets_sent v s :=
    mk (rtp_stats_timestamp_us s) v (bytes_sent s) (frames_encoded s)
       (track_stats_timestamp_us s) (track_identifier s) (frames_sent s)
       (huge_frames_sent s).
Definition set_bytes_sent v s :=
    mk (rtp_stats_timestamp_us s) (packets_sent s) v (frames_encoded s)
       (track_stats_timestamp_us s) (track_identifier s) (frames_sent s)
       (huge_frames_sent s).
Definition set_frames_encoded v s :=
    mk (rtp_stats_timestamp_us s) (packets_sent s) (bytes_sent s) v
       (track_stats_timestamp_us s) (track_identifier s) (frames_sent s)
       (huge_frames_sent s).
Definition set_track_stats_timestamp_us v s :=
    mk (rtp_stats_timestamp_us s) (packets_sent s) (bytes_sent s)
       (frames_encoded s) v (track_identifier s) (frames_sent s)
       (huge_frames_sent s).
Definition set_track_identifier v s :=
    mk (rtp_stats_timestamp_us s) (packets_sent s) (bytes_sent s)
       (frames_encoded s) (track_stats_timestamp_us s) v (frames_sent s)
       (huge_frames_sent s).
Definition set_frames_sent v s :=
    mk (rtp_stats_timestamp_us s) (packets_sent s) (bytes_sent s)
       (frames_encoded s) (track_stats_timestamp_us s) (track_identifier s) v
       (huge_frames_sent s).
Definition set_huge_frames_sent v s :=
    mk (rtp_stats_timestamp_us s) (packets_sent s) (bytes_sent s)
       (frames_encoded s) (track_stats_timestamp_us s) (track_identifier s)
       (frames_sent s) v.
End mrsVideoSenderStats.

Module mrsVideoReceiverStats.
Record t : Type := mk {
    rtp_stats_timestamp_us : Z;
    packets_received : Z;
    bytes_received : Z;
    frames_decoded : Z;
    track_stats_timestamp_us : Z;
    track_identifier : option string;
    frames_received : Z;
    frames_dropped : Z }.
Definition set_rtp_stats_timestamp_us v s :=
    mk v (packets_received s) (bytes_received s) (frames_decoded s)
       (track_stats_timestamp_us s) (track_identifier s) (frames_received s)
       (frames_dropped s).
Definition set_packets_received v s :=
    mk (rtp_stats_timestamp_us s) v (bytes_received s) (frames_decoded s)
       (track_stats_timestamp_us s) (track_identifier s) (frames_received s)
       (frames_dropped s).
Definition set_bytes_received v s :=
    mk (rtp_stats_timestamp_us s) (packets_received s) v (frames_decoded s)
       (track_stats_timestamp_us s) (track_identifier s) (frames_received s)
       (frames_dropped s).
Definition set_frames_decoded v s :=
    mk (rtp_stats_timestamp_us s) (packets_received s) (bytes_received s) v
       (track_stats_timestamp_us s) (track_identifier s) (frames_received s)
       (frames_dropped s).
Definition set_track_stats_timestamp_us v s :=
    mk (rtp_stats_timestamp_us s) (packets_received s) (bytes_received s)
       (frames_decoded s) v (track_identifier s) (frames_received s)
       (frames_dropped s).
Definition set_track_identifier v s :=
    mk (rtp_stats_timestamp_us s) (packets_received s) (bytes_received s)
       (frames_decoded s) (track_stats_timestamp_us s) v (frames_received s)
       (frames_dropped s).
Definition set_frames_received v s :=
    mk (rtp_stats_timestamp_us s) (packets_received s) (bytes_received s)
       (frames_decoded s) (track_stats_timestamp_us s) (track_identifier s) v
       (frames_dropped s).
Definition set_frames_dropped v s :=
    mk (rtp_stats_timestamp_us s) (packets_received s) (bytes_received s)
       (frames_decoded s) (track_stats_timestamp_us s) (track_identifier s)
       (frames_received s) v.
End mrsVideoReceiverStats.

Global Instance ValueInit_AudioSender : ValueInit mrsAudioSenderStats.t :=
  mrsAudioSenderStats.mk 0 0 0 0 None double_zero double_zero double_zero.
Global Instance ValueInit_AudioReceiver : ValueInit mrsAudioReceiverStats.t :=
  mrsAudioReceiverStats.mk 0 0 0 0 None double_zero double_zero 0 double_zero.
Global Instance ValueInit_VideoSender : ValueInit mrsVideoSenderStats.t :=
  mrsVideoSenderStats.mk 0 0 0 0 0 None 0 0.
Global Instance ValueInit_VideoReceiver : ValueInit mrsVideoReceiverStats.t :=
  mrsVideoReceiverStats.mk 0 0 0 0 0 None 0 0.

(** What an invocation of [callback] hands over: it takes the structure as
    an untyped pointer, so the six structures travel as one sum. *)
Inductive StatsObject : Type :=
| DataChannelObject (s : mrsDataChannelStats.t)
| AudioSenderObject (s : mrsAudioSenderStats.t)
| AudioReceiverObject (s : mrsAudioReceiverStats.t)
| VideoSenderObject (s : mrsVideoSenderStats.t)
| VideoReceiverObject (s : mrsVideoReceiverStats.t)
| TransportObject (s : mrsTransportStats.t).

(** ** Joining the engine's records by track identifier *)

(** [std::find_if] over a vector, as the index of the first match. *)
Fixpoint find_if {A} (p : A -> bool) (vec : list A) : option nat :=
  match vec with
  | [] => None
  | x :: rest => if p x then Some 0%nat else option_map S (find_if p rest)
  end.

(** [FindOrInsert]: the slot of [id] in [vec], appended value-initialised when
    there is none.  The reference returned by the source is the index of the
    slot in the vector that is returned with it. *)
Definition FindOrInsert {T} `{ValueInit T}
    (vec : list (string * T)) (id : string) : list (string * T) * nat :=
  match find_if (fun pair => String.eqb id (fst pair)) vec with
  | Some it => (vec, it)
  | None => ((vec ++ [(id, value_init)])%list, length vec)
  end.

(** The assignments made through that reference. *)
Definition assign {T} (vec : list (string * T)) (dest_stats : nat)
    (f : T -> T) : list (string * T) :=
  alter (fun pair => (fst pair, f (snd pair))) dest_stats vec.

(** [GetCommonValues] is a template over the destination structure: the
    outbound overload needs the three sender fields, the inbound one the three
    receiver fields. *)
Class RtpSenderFields (T : Type) : Type := {
  sender_set_rtp_stats_timestamp_us : Z -> T -> T;
  sender_set_packets_sent : Z -> T -> T;
  sender_set_bytes_sent : Z -> T -> T }.

Class RtpReceiverFields (T : Type) : Type := {
  receiver_set_rtp_stats_timestamp_us : Z -> T -> T;
  receiver_set_packets_received : Z -> T -> T;
  receiver_set_bytes_received : Z -> T -> T }.

Global Instance RtpSenderFields_audio : RtpSenderFields mrsAudioSenderStats.t := {
  sender_set_rtp_stats_timestamp_us := mrsAudioSenderStats.set_rtp_stats_timestamp_us;
  sender_set_packets_sent := mrsAudioSenderStats.set_packets_sent;
  sender_set_bytes_sent := mrsAudioSenderStats.set_bytes_sent }.

Global Instance RtpSenderFields_video : RtpSenderFields mrsVideoSenderStats.t := {
  sender_set_rtp_stats_timestamp_us := mrsVideoSenderStats.set_rtp_stats_timestamp_us;
  sender_set_packets_sent := mrsVideoSenderStats.set_packets_sent;
  sender_set_bytes_sent := mrsVideoSenderStats.set_bytes_sent }.

Global Instance RtpReceiverFields_audio : RtpReceiverFields mrsAudioReceiverStats.t := {
  receiver_set_rtp_stats_timestamp_us := mrsAudioReceiverStats.set_rtp_stats_timestamp_us;
  receiver_set_packets_received := mrsAudioReceiverStats.set_packets_received;
  receiver_set_bytes_received := mrsAudioReceiverStats.set_bytes_received }.

Global Instance RtpReceiverFields_video : RtpReceiverFields mrsVideoReceiverStats.t := {
  receiver_set_rtp_stats_timestamp_us := mrsVideoReceiverStats.set_rtp_stats_timestamp_us;
  receiver_set_packets_received := mrsVideoReceiverStats.set_packets_received;
  receiver_set_bytes_received := mrsVideoReceiverStats.set_bytes_received }.

Definition GetCommonValues_outbound {T} `{RtpSenderFields T}
    (rhs : RTCOutboundRTPStreamStats.t) (lhs : T) : T :=
  let lhs := sender_set_rtp_stats_timestamp_us
               (RTCOutboundRTPStreamStats.timestamp_us rhs) lhs in
  let lhs := sender_set_packets_sent
               (deref (RTCOutboundRTPStreamStats.packets_sent rhs)) lhs in
  sender_set_bytes_sent (deref (RTCOutboundRTPStreamStats.bytes_sent rhs)) lhs.

Definition GetCommonValues_inbound {T} `{RtpReceiverFields T}
    (rhs : RTCInboundRTPStreamStats.t) (lhs : T) : T :=
  let lhs := receiver_set_rtp_stats_timestamp_us
               (RTCInboundRTPStreamStats.timestamp_us rhs) lhs in
  let lhs := receiver_set_packets_received
               (deref (RTCInboundRTPStreamStats.packets_received rhs)) lhs in
  receiver_set_bytes_received
    (deref (RTCInboundRTPStreamStats.bytes_received rhs)) lhs.

(** [track_stats.track_identifier->c_str()]. *)
Definition c_str (s : string) : option string := Some s.

(** The body of the loop over the report in the "AudioSenderStats" branch. *)
Definition AudioSenderStats_visit
    (pending_stats : list (string * mrsAudioSenderStats.t)) (stats : RTCStats)
    : list (string * mrsAudioSenderStats.t) :=
  match stats with
  | OutboundRTPStreamStats ortp_stats =>
      if String.eqb (deref (RTCOutboundRTPStreamStats.kind ortp_stats)) "audio"
         && is_defined (RTCOutboundRTPStreamStats.track_id ortp_stats)
      then
        let '(pending_stats, dest_stats) :=
          FindOrInsert pending_stats
            (deref (RTCOutboundRTPStreamStats.track_id ortp_stats)) in
        assign pending_stats dest_stats (GetCommonValues_outbound ortp_stats)
      else pending_stats
  | MediaStreamTrackStats track_stats =>
      if String.eqb (deref (RTCMediaStreamTrackStats.kind track_stats)) "audio"
      then
        if negb (deref (RTCMediaStreamTrackStats.remote_source track_stats))
        then
          let '(pending_stats, dest_stats) :=
            FindOrInsert pending_stats (RTCMediaStreamTrackStats.id track_stats) in
          assign pending_stats dest_stats (fun dest =>
            let dest := mrsAudioSenderStats.set_track_stats_timestamp_us
                          (RTCMediaStreamTrackStats.timestamp_us track_stats) dest in
            let dest := mrsAudioSenderStats.set_track_identifier
                          (c_str (deref (RTCMediaStreamTrackStats.track_identifier track_stats))) dest in
            let dest := mrsAudioSenderStats.set_audio_level
                          (GetValueIfDefined (RTCMediaStreamTrackStats.audio_level track_stats)) dest in
            let dest := mrsAudioSenderStats.set_total_audio_energy
                          (deref (RTCMediaStreamTrackStats.total_audio_energy track_stats)) dest in
            mrsAudioSenderStats.set_total_samples_duration
              (deref (RTCMediaStreamTrackStats.total_samples_duration track_stats)) dest)
        else pending_stats
      else pending_stats
  | _ => pending_stats
  end.

(** The body of the loop over the report in the "AudioReceiverStats" branch. *)
Definition AudioReceiverStats_visit
    (pending_stats : list (string * mrsAudioReceiverStats.t)) (stats : RTCStats)
    : list (string * mrsAudioReceiverStats.t) :=
  match stats with
  | InboundRTPStreamStats irtp_stats =>
      if String.eqb (deref (RTCInboundRTPStreamStats.kind irtp_stats)) "audio"
      then
        let '(pending_stats, dest_stats) :=
          FindOrInsert pending_stats
            (deref (RTCInboundRTPStreamStats.track_id irtp_stats)) in
        assign pending_stats dest_stats (GetCommonValues_inbound irtp_stats)
      else pending_stats
  | MediaStreamTrackStats track_stats =>
      if String.eqb (deref (RTCMediaStreamTrackStats.kind track_stats)) "audio"
      then
        if deref (RTCMediaStreamTrackStats.remote_source track_stats)
        then
          let '(pending_stats, dest_stats) :=
            FindOrInsert pending_stats (RTCMediaStreamTrackStats.id track_stats) in
          assign pending_stats dest_stats (fun dest =>
            let dest := mrsAudioReceiverStats.set_track_stats_timestamp_us
                          (RTCMediaStreamTrackStats.timestamp_us track_stats) dest in
            let dest := mrsAudioReceiverStats.set_track_identifier
                          (c_str (deref (RTCMediaStreamTrackStats.track_identifier track_stats))) dest in
            let dest := mrsAudioReceiverStats.set_audio_level
                          (GetValueIfDefined (RTCMediaStreamTrackStats.audio_level track_stats)) dest in
            let dest := mrsAudioReceiverStats.set_total_audio_energy
                          (deref (RTCMediaStreamTrackStats.total_audio_energy track_stats)) dest in
            let dest := mrsAudioReceiverStats.set_total_samples_received
                          (GetValueIfDefined (RTCMediaStreamTrackStats.total_samples_received track_stats)) dest in
            mrsAudioReceiverStats.set_total_samples_duration
              (deref (RTCMediaStreamTrackStats.total_samples_duration track_stats)) dest)
        else pending_stats
      else pending_stats
  | _ => pending_stats
  end.

(** The body of the loop over the report in the "VideoSenderStats" branch. *)
Definition VideoSenderStats_visit
    (pending_stats : list (string * mrsVideoSenderStats.t)) (stats : RTCStats)
    : list (string * mrsVideoSenderStats.t) :=
  match stats with
  | OutboundRTPStreamStats ortp_stats =>
      if String.eqb (deref (RTCOutboundRTPStreamStats.kind ortp_stats)) "video"
         && is_defined (RTCOutboundRTPStreamStats.track_id ortp_stats)
      then
        let '(pending_stats, dest_stats) :=
          FindOrInsert pending_stats
            (deref (RTCOutboundRTPStreamStats.track_id ortp_stats)) in
        assign pending_stats dest_stats (fun dest =>
          let dest := GetCommonValues_outbound ortp_stats dest in
          mrsVideoSenderStats.set_frames_encoded
            (deref (RTCOutboundRTPStreamStats.frames_encoded ortp_stats)) dest)
      else pending_stats
  | MediaStreamTrackStats track_stats =>
      if String.eqb (deref (RTCMediaStreamTrackStats.kind track_stats)) "video"
      then
        if negb (deref (RTCMediaStreamTrackStats.remote_source track_stats))
        then
          let '(pending_stats, dest_stats) :=
            FindOrInsert pending_stats (RTCMediaStreamTrackStats.id track_stats) in
          assign pending_stats dest_stats (fun dest =>
            let dest := mrsVideoSenderStats.set_track_stats_timestamp_us
                          (RTCMediaStreamTrackStats.timestamp_us track_stats) dest in
            let dest := mrsVideoSenderStats.set_track_identifier
                          (c_str (deref (RTCMediaStreamTrackStats.track_identifier track_stats))) dest in
            let dest := mrsVideoSenderStats.set_frames_sent
                          (GetValueIfDefined (RTCMediaStreamTrackStats.frames_sent track_stats)) dest in
            mrsVideoSenderStats.set_huge_frames_sent
              (GetValueIfDefined (RTCMediaStreamTrackStats.huge_frames_sent track_stats)) dest)
        else pending_stats
      else pending_stats
  | _ => pending_stats
  end.

(** The body of the loop over the report in the "VideoReceiverStats" branch. *)
Definition VideoReceiverStats_visit
    (pending_stats : list (string * mrsVideoReceiverStats.t)) (stats : RTCStats)
    : list (string * mrsVideoReceiverStats.t) :=
  match stats with
  | InboundRTPStreamStats irtp_stats =>
      if String.eqb (deref (RTCInboundRTPStreamStats.kind irtp_stats)) "video"
      then
        let '(pending_stats, dest_stats) :=
          FindOrInsert pending_stats
            (deref (RTCInboundRTPStreamStats.track_id irtp_stats)) in
        assign pending_stats dest_stats (fun dest =>
          let dest := GetCommonValues_inbound irtp_stats dest in
          mrsVideoReceiverStats.set_frames_decoded
            (deref (RTCInboundRTPStreamStats.frames_decoded irtp_stats)) dest)
      else pending_stats
  | MediaStreamTrackStats track_stats =>
      if String.eqb (deref (RTCMediaStreamTrackStats.kind track_stats)) "video"
      then
        if deref (RTCMediaStreamTrackStats.remote_source track_stats)
        then
          let '(pending_stats, dest_stats) :=
            FindOrInsert pending_stats (RTCMediaStreamTrackStats.id track_stats) in
          assign pending_stats dest_stats (fun dest =>
            let dest := mrsVideoReceiverStats.set_track_stats_timestamp_us
                          (RTCMediaStreamTrackStats.timestamp_us track_stats) dest in
            let dest := mrsVideoReceiverStats.set_track_identifier
                          (c_str (deref (RTCMediaStreamTrackStats.track_identifier track_stats))) dest in
            let dest := mrsVideoReceiverStats.set_frames_received
                          (GetValueIfDefined (RTCMediaStreamTrackStats.frames_received track_stats)) dest in
            mrsVideoReceiverStats.set_frames_dropped
              (GetValueIfDefined (RTCMediaStreamTrackStats.frames_dropped track_stats)) dest)
        else pending_stats
      else pending_stats
  | _ => pending_stats
  end.

(** The two branches that map one record to one structure. *)
Definition DataChannelStats_visit (stats : RTCStats) : list StatsObject :=
  match stats with
  | DataChannelStats dc_stats =>
      [DataChannelObject (mrsDataChannelStats.mk
         (RTCDataChannelStats.timestamp_us dc_stats)
         (deref (RTCDataChannelStats.datachannelid dc_stats))
         (deref (RTCDataChannelStats.messages_sent dc_stats))
         (deref (RTCDataChannelStats.bytes_sent dc_stats))
         (deref (RTCDataChannelStats.messages_received dc_stats))
         (deref (RTCDataChannelStats.bytes_received dc_stats)))]
  | _ => []
  end.

Definition TransportStats_visit (stats : RTCStats) : list StatsObject :=
  match stats with
  | TransportStats dc_stats =>
      [TransportObject (mrsTransportStats.mk
         (RTCTransportStats.timestamp_us dc_stats)
         (deref (RTCTransportStats.bytes_sent dc_stats))
         (deref (RTCTransportStats.bytes_received dc_stats)))]
  | _ => []
  end.

(** [mrsStatsReportGetObjects].  [report_handle] is [None] for a null handle.
    The second component of the result lists, in order, the structures the
    callback was invoked with; [callback] and [user_data] are that trace. *)
Definition mrsStatsReportGetObjects
    (report_handle : option RTCStatsReport) (stats_type : string)
    : mrsResult * list StatsObject :=
  match report_handle with
  | None => (kInvalidNativeHandle, [])
  | Some report =>
      if String.eqb stats_type "DataChannelStats" then
        (kSuccess, flat_map DataChannelStats_visit report)
      else if String.eqb stats_type "AudioSenderStats" then
        let pending_stats := fold_left AudioSenderStats_visit report [] in
        (kSuccess, map (fun stats => AudioSenderObject (snd stats)) pending_stats)
      else if String.eqb stats_type "AudioReceiverStats" then
        let pending_stats := fold_left AudioReceiverStats_visit report [] in
        (kSuccess, map (fun stats => AudioReceiverObject (snd stats)) pending_stats)
      else if String.eqb stats_type "VideoSenderStats" then
        let pending_stats := fold_left VideoSenderStats_visit report [] in
        (kSuccess, map (fun stats => VideoSenderObject (snd stats)) pending_stats)
      else if String.eqb stats_type "VideoReceiverStats" then
        let pending_stats := fold_left VideoReceiverStats_visit report [] in
        (kSuccess, map (fun stats => VideoReceiverObject (snd stats)) pending_stats)
      else if String.eqb stats_type "TransportStats" then
        (kSuccess, flat_map TransportStats_visit report)
      else (kSuccess, [])
  end.

(** ** Outcomes of a native call *)

(** A call either returns, or stops the process on a failed [RTC_CHECK], or
    runs into behaviour the language leaves undefined. *)
Inductive outcome (A : Type) : Type :=
| Returns (a : A)
| Aborts
| Undefined.
Arguments Returns {A} a.
Arguments Aborts {A}.
Arguments Undefined {A}.

Definition outcome_bind {A B} (x : outcome A) (k : A -> outcome B) : outcome B :=
  match x with
  | Returns a => k a
  | Aborts => Aborts
  | Undefined => Undefined
  end.

Declare Scope outcome_scope.
Delimit Scope outcome_scope with outcome.
Notation "'let*' x ':=' c 'in' k" := (outcome_bind c (fun x => k))
  (at level 10, x pattern, c at level 100, k at level 200) : outcome_scope.

(** [RTC_CHECK(p)] on a pointer. *)
Definition RTC_CHECK_ptr {A} (p : option A) : outcome A :=
  match p with Some a => Returns a | None => Aborts end.

(** [RTC_CHECK(c)] on a condition. *)
Definition RTC_CHECK (c : bool) : outcome unit :=
  if c then Returns tt else Aborts.

(** ** Integer conversions *)

Definition to_int32 (z : Z) : Z := (z + 2 ^ 31) mod 2 ^ 32 - 2 ^ 31.
Definition to_size_t (z : Z) : Z := z mod 2 ^ 64.
Definition to_uint64 (z : Z) : Z := z mod 2 ^ 64.
Definition INT_MIN : Z := - 2 ^ 31.
Definition INT_MAX : Z := 2 ^ 31 - 1.

(** [static_cast<int>(x)] on a double: the value truncated towards zero; the
    conversion is undefined when the truncated value is not an [int]. *)
Definition double_truncate (x : double) : option Z :=
  match x with
  | S754_zero _ => Some 0
  | S754_finite s m e =>
      let magnitude := Z.shiftl (Z.pos m) e in
      Some (if s then - magnitude else magnitude)
  | S754_infinity _ | S754_nan => None
  end.

Definition double_to_int (x : double) : option Z :=
  match double_truncate x with
  | Some z => if (INT_MIN <=? z) && (z <=? INT_MAX) then Some z else None
  | None => None
  end.

(** [IsStringNullOrEmpty]. *)
Definition IsStringNullOrEmpty (str : option string) : bool :=
  match str with
  | None => true
  | Some s => match s with EmptyString => true | String _ _ => false end
  end.

(** ** The engine behind the handles *)

(** Modelled from the spec: [ErrorOr<T>] is declared outside
    interop_api.cpp; it is a value, or an error carrying its result code. *)
Inductive ErrorOr (T : Type) : Type :=
| Value (value : T)
| Error (result : mrsResult).
Arguments Value {T} value.
Arguments Error {T} result.

Inductive VideoType : Type :=
| kUnknown | kI420 | kIYUV | kRGB24 | kABGR | kARGB | kARGB4444 | kRGB565
| kARGB1555 | kYUY2 | kYV12 | kUYVY | kMJPEG | kNV21 | kNV12 | kBGRA.

(** [webrtc::VideoCaptureCapability]; the three numbers are [int32_t]. *)
Module VideoCaptureCapability.
Record t : Type := mk {
    width : Z;
    height : Z;
    maxFPS : Z;
    videoType : VideoType;
    interlaced : bool }.
(** The default-constructed capability. *)
Definition default : t := mk 0 0 0 kUnknown false.
End VideoCaptureCapability.

(** Modelled from the spec: [VideoDeviceConfiguration] is declared in
    interop_api.h, outside interop_api.cpp; these are the fields the source
    reads.  [width] and [height] are [uint32_t], [framerate] is a [double]. *)
Module VideoDeviceConfiguration.
Record t : Type := mk {
    video_device_id : option string;
    width : Z;
    height : Z;
    framerate : double }.
End VideoDeviceConfiguration.

(** [webrtc::VideoCaptureModule::DeviceInfo], as the answers it gives:
    [GetDeviceName i] is the name and unique id of device [i], or [None] when
    the call returns -1; [GetCapability id icap] is the capability written to
    the out parameter, or [None] when the call returns non-zero. *)
Module DeviceInfo.
Record t : Type := mk {
    NumberOfDevices : Z;
    GetDeviceName : Z -> option (string * string);
    NumberOfCapabilities : string -> Z;
    GetCapability : string -> Z -> option VideoCaptureCapability.t }.
End DeviceInfo.

(** Modelled from the spec: [BitrateSettings] is declared in
    peer_connection.h, outside interop_api.cpp; it holds three optional
    [int]s, one for each bound. *)
Module BitrateSettings.
Record t : Type := mk {
    min_bitrate_bps : option Z;
    start_bitrate_bps : option Z;
    max_bitrate_bps : option Z }.
End BitrateSettings.

(** The callback slots of a peer connection that the interop layer fills
    through a [Register...Callback] entry point. *)
Inductive CallbackSlot : Type :=
| ConnectedSlot | LocalSdpReadytoSendSlot | IceCandidateReadytoSendSlot
| IceStateChangedSlot | RenegotiationNeededSlot | TrackAddedSlot
| TrackRemovedSlot | DataChannelAddedSlot | DataChannelRemovedSlot
| I420ARemoteVideoFrameSlot | Argb32RemoteVideoFrameSlot
| LocalAudioFrameSlot | RemoteAudioFrameSlot.

(** Everything the interop layer calls into: the peer connection, the data
    channel, the global factory and the capture modules.  [World] is the state
    of all of it; an operation that changes it returns the new one.  The
    object types are the native objects the handles point to.  Logging and the
    release of reference counts are left out. *)
Class Engine : Type := {
  World : Type;
  PeerConnection : Type;
  LocalVideoTrack : Type;
  DataChannel : Type;
  ExternalVideoTrackSource : Type;
  StatsReport : Type;
  InteropObject : Type;
  PeerConnectionConfiguration : Type;
  InteropCallbacks : Type;
  Callback : Type;
  Buffer : Type;
  PcFactory : Type;
  AudioSource : Type;
  AudioTrack : Type;
  VideoTrack : Type;
  VideoCaptureModule : Type;

  GlobalFactory_GetExisting : World -> option PcFactory;
  CreateDeviceInfo : World -> option DeviceInfo.t;
  VideoCaptureFactory_Create :
    string -> World -> option VideoCaptureModule * World;
  RegisterCaptureDataCallback : VideoCaptureModule -> World -> World;
  StartCapture :
    VideoCaptureModule -> VideoCaptureCapability.t -> World -> Z * World;
  StopCapture : VideoCaptureModule -> World -> World;
  DeRegisterCaptureDataCallback : VideoCaptureModule -> World -> World;

  PeerConnection_create :
    PeerConnectionConfiguration -> InteropObject -> World ->
    ErrorOr PeerConnection * World;
  PeerConnection_RegisterInteropCallbacks :
    PeerConnection -> InteropCallbacks -> World -> mrsResult * World;
  PeerConnection_RegisterCallback :
    PeerConnection -> CallbackSlot -> Callback -> World -> World;
  PcFactory_CreateVideoTrack :
    PcFactory -> string ->
    VideoCaptureModule + ExternalVideoTrackSource -> World ->
    option VideoTrack * World;
  PeerConnection_AddLocalVideoTrack :
    PeerConnection -> VideoTrack -> World -> ErrorOr LocalVideoTrack * World;
  LocalVideoTrack_AddRef : LocalVideoTrack -> World -> World;
  PeerConnection_RemoveLocalVideoTracksFromSource :
    PeerConnection -> ExternalVideoTrackSource -> World -> World;
  PcFactory_CreateAudioSource : PcFactory -> World -> option AudioSource * World;
  PcFactory_CreateAudioTrack :
    PcFactory -> string -> AudioSource -> World -> option AudioTrack * World;
  PeerConnection_AddLocalAudioTrack :
    PeerConnection -> AudioTrack -> World -> bool * World;
  PeerConnection_AddDataChannel :
    PeerConnection -> Z -> string -> bool -> bool -> InteropObject -> World ->
    ErrorOr DataChannel * World;
  DataChannel_SetMessageCallback : DataChannel -> Callback -> World -> World;
  DataChannel_SetBufferingCallback : DataChannel -> Callback -> World -> World;
  DataChannel_SetStateCallback : DataChannel -> Callback -> World -> World;
  PeerConnection_RemoveLocalVideoTrack :
    PeerConnection -> LocalVideoTrack -> World -> bool * World;
  PeerConnection_RemoveLocalAudioTrack : PeerConnection -> World -> World;
  PeerConnection_RemoveDataChannel :
    PeerConnection -> DataChannel -> World -> World;
  PeerConnection_SetLocalAudioTrackEnabled :
    PeerConnection -> bool -> World -> World;
  PeerConnection_IsLocalAudioTrackEnabled :
    PeerConnection -> World -> bool * World;
  DataChannel_Send : DataChannel -> Buffer -> Z -> World -> bool * World;
  PeerConnection_AddIceCandidate :
    PeerConnection -> option string -> Z -> option string -> World ->
    bool * World;
  PeerConnection_CreateOffer : PeerConnection -> World -> bool * World;
  PeerConnection_CreateAnswer : PeerConnection -> World -> bool * World;
  PeerConnection_SetBitrate :
    PeerConnection -> BitrateSettings.t -> World -> mrsResult * World;
  PeerConnection_SetRemoteDescription :
    PeerConnection -> option string -> option string -> World -> bool * World;
  PeerConnection_Close : PeerConnection -> World -> World;
  PeerConnection_GetStats : PeerConnection -> Callback -> World -> World;
  StatsReport_Release : StatsReport -> World -> World }.

(** ** Opening a capture device: BuiltinVideoCaptureDeviceTrackSource::Create *)

(** The values [0 .. n-1] of a loop counter [for (int i = 0; i < n; ++i)]. *)
Definition counter_range (n : Z) : list Z :=
  map Z.of_nat (seq 0 (Z.to_nat n)).

Section Capture.
Context `{Engine}.
Variable info : DeviceInfo.t.
Variable config : VideoDeviceConfiguration.t.

(** The loop that looks for the one device the user asked for; it stops at
    the first device whose unique id is the requested one. *)
Fixpoint find_device (video_device_id_str : string) (indices : list Z)
    : list string :=
  match indices with
  | [] => []
  | i :: rest =>
      match DeviceInfo.GetDeviceName info i with
      | Some (name, id) =>
          if String.eqb video_device_id_str id then [id]
          else find_device video_device_id_str rest
      | None => find_device video_device_id_str rest
      end
  end.

(** The loop that lists all available devices. *)
Fixpoint list_devices (indices : list Z) : list string :=
  match indices with
  | [] => []
  | i :: rest =>
      match DeviceInfo.GetDeviceName info i with
      | Some (name, id) => id :: list_devices rest
      | None => list_devices rest
      end
  end.

(** The three comparisons of one capability against the configuration; the
    capability is rejected ([continue]) when the answer is [false].  The
    conversion of the frame rate is reached only after the width and the
    height have passed. *)
Definition capability_matches (capability : VideoCaptureCapability.t)
    : outcome bool :=
  if (0 <? VideoDeviceConfiguration.width config)
     && negb (VideoCaptureCapability.width capability
              =? to_int32 (VideoDeviceConfiguration.width config))
  then Returns false
  else if (0 <? VideoDeviceConfiguration.height config)
          && negb (VideoCaptureCapability.height capability
                   =? to_int32 (VideoDeviceConfiguration.height config))
  then Returns false
  else
    match double_to_int
            (double_add (VideoDeviceConfiguration.framerate config) double_half)
    with
    | None => Undefined
    | Some config_fps =>
        if double_ltb double_zero (VideoDeviceConfiguration.framerate config)
           && negb (VideoCaptureCapability.maxFPS capability =? config_fps)
        then Returns false
        else Returns true
    end.

(** The inner loop over the capabilities of one device.  [vcm] and
    [capability] are the two locals that live across both loops; the [break]
    leaves this loop only. *)
Fixpoint capability_loop (device_id_utf8 : string) (icaps : list Z)
    (vcm : option VideoCaptureModule) (capability : VideoCaptureCapability.t)
    (w : World)
    : outcome (option VideoCaptureModule * VideoCaptureCapability.t * World) :=
  match icaps with
  | [] => Returns (vcm, capability, w)
  | icap :: rest =>
      match DeviceInfo.GetCapability info device_id_utf8 icap with
      | None => capability_loop device_id_utf8 rest vcm capability w
      | Some capability =>
          (let* matches := capability_matches capability in
           if matches : bool then
             let '(vcm, w) := VideoCaptureFactory_Create device_id_utf8 w in
             match vcm with
             | Some _ => Returns (vcm, capability, w)
             | None => capability_loop device_id_utf8 rest vcm capability w
             end
           else capability_loop device_id_utf8 rest vcm capability w)%outcome
      end
  end.

(** The outer loop over the devices, taken when a capability was requested. *)
Fixpoint device_loop (filtered_device_ids : list string)
    (vcm : option VideoCaptureModule) (capability : VideoCaptureCapability.t)
    (w : World)
    : outcome (option VideoCaptureModule * VideoCaptureCapability.t * World) :=
  match filtered_device_ids with
  | [] => Returns (vcm, capability, w)
  | device_id_utf8 :: rest =>
      (let* (vcm, capability, w) :=
         capability_loop device_id_utf8
           (counter_range (DeviceInfo.NumberOfCapabilities info device_id_utf8))
           vcm capability w in
       device_loop rest vcm capability w)%outcome
  end.

(** The loop taken when no capability was requested: the first device that
    opens, with its first capability. *)
Fixpoint first_device_loop (filtered_device_ids : list string)
    (vcm : option VideoCaptureModule) (capability : VideoCaptureCapability.t)
    (w : World)
    : option VideoCaptureModule * VideoCaptureCapability.t * World :=
  match filtered_device_ids with
  | [] => (vcm, capability, w)
  | device_id_utf8 :: rest =>
      let '(vcm, w) := VideoCaptureFactory_Create device_id_utf8 w in
      match vcm with
      | None => first_device_loop rest vcm capability w
      | Some _ =>
          match DeviceInfo.GetCapability info device_id_utf8 0 with
          | Some capability => (vcm, capability, w)
          | None => (vcm, capability, w)
          end
      end
  end.

(** The selection step: "Further filter devices based on capabilities, if any
    was requested". *)
Definition select_device (filtered_device_ids : list string) (w : World)
    : outcome (option VideoCaptureModule * VideoCaptureCapability.t * World) :=
  if (0 <? VideoDeviceConfiguration.width config)
     || (0 <? VideoDeviceConfiguration.height config)
     || double_ltb double_zero (VideoDeviceConfiguration.framerate config)
  then device_loop filtered_device_ids None VideoCaptureCapability.default w
  else Returns (first_device_loop filtered_device_ids None
                  VideoCaptureCapability.default w).

End Capture.

Section Create.
Context `{Engine}.

(** [Destroy]: stops the capture and drops the module, when there is one. *)
Definition Destroy (vcm_ : option VideoCaptureModule) (w : World) : World :=
  match vcm_ with
  | None => w
  | Some vcm => DeRegisterCaptureDataCallback vcm (StopCapture vcm w)
  end.

(** [Initialize]: starts the capture. *)
Definition Initialize (vcm_ : VideoCaptureModule)
    (capability : VideoCaptureCapability.t) (w : World) : mrsResult * World :=
  let '(started, w) := StartCapture vcm_ capability w in
  if negb (started =? 0) then (kUnknownError, Destroy (Some vcm_) w)
  else (kSuccess, w).

(** [BuiltinVideoCaptureDeviceTrackSource::Create].  The second component is
    [source_out], which the caller passes in null: the capture module that the
    new track source wraps. *)
Definition BuiltinVideoCaptureDeviceTrackSource_Create
    (config : VideoDeviceConfiguration.t) (w : World)
    : outcome (mrsResult * option VideoCaptureModule * World) :=
  match CreateDeviceInfo w with
  | None => Returns (kUnknownError, None, w)
  | Some info =>
      let num_devices := DeviceInfo.NumberOfDevices info in
      let filtered_device_ids :=
        if negb (IsStringNullOrEmpty (VideoDeviceConfiguration.video_device_id config))
        then
          match VideoDeviceConfiguration.video_device_id config with
          | Some video_device_id_str =>
              find_device info video_device_id_str (counter_range num_devices)
          | None => []
          end
        else list_devices info (counter_range num_devices) in
      match filtered_device_ids with
      | [] => Returns (kNotFound, None, w)
      | _ :: _ =>
          (let* (vcm, capability, w) :=
             select_device info config filtered_device_ids w in
           match vcm with
           | Some vcm =>
               let w := RegisterCaptureDataCallback vcm w in
               let '(res, w) := Initialize vcm capability w in
               match res with
               | kSuccess => Returns (kSuccess, Some vcm, w)
               | _ => Returns (res, None, w)
               end
           | None => Returns (kInvalidOperation, None, w)
           end)%outcome
      end
  end.

End Create.

(** ** The entry points of the peer connection and the data channel *)

(** A pointer to a location that receives a handle: null, or the location
    with the handle it holds.  An entry point returns the location as it
    leaves it. *)
Inductive out_ptr (H : Type) : Type :=
| null_ptr
| points_to (contents : option H).
Arguments null_ptr {H}.
Arguments points_to {H} contents.

(** Modelled from the spec: [mrsBool] is declared in interop_api.h, outside
    interop_api.cpp; the source names its two values. *)
Inductive mrsBool : Type := kTrue | kFalse.

(** Modelled from the spec: [mrsDataChannelConfig] is declared in
    interop_api.h, outside interop_api.cpp.  [id] is an [int32_t], [label] a
    [const char*], [flags] a [uint32_t]. *)
Module mrsDataChannelConfig.
Record t : Type := mk {
    id : Z;
    label : option string;
    flags : Z }.
End mrsDataChannelConfig.

Section Facade.
Context `{Engine}.

(** The two bits of [mrsDataChannelConfigFlags], which is declared in
    interop_api.h, outside interop_api.cpp. *)
Variable kOrdered kReliable : Z.

(** Modelled from the spec: [mrsDataChannelCallbacks] is declared in
    interop_api.h, outside interop_api.cpp; it holds the three callbacks,
    each with its user data. *)
Record mrsDataChannelCallbacks : Type := {
  message_callback : Callback;
  buffering_callback : Callback;
  state_callback : Callback }.

(** Predefined name of the local audio track. *)
Definition kLocalAudioLabel : string := "local_audio".

Definition mrsPeerConnectionCreate
    (config : PeerConnectionConfiguration)
    (interop_handle : option InteropObject)
    (peerHandleOut : out_ptr PeerConnection) (w : World)
    : mrsResult * out_ptr PeerConnection * World :=
  match peerHandleOut, interop_handle with
  | null_ptr, _ | _, None => (kInvalidParameter, peerHandleOut, w)
  | points_to _, Some interop =>
      let peerHandleOut : out_ptr PeerConnection := points_to None in
      let '(result, w) := PeerConnection_create config interop w in
      match result with
      | Error code => (code, peerHandleOut, w)
      | Value peer => (kSuccess, points_to (Some peer), w)
      end
  end.

Definition mrsPeerConnectionRegisterInteropCallbacks
    (peerHandle : option PeerConnection) (callbacks : option InteropCallbacks)
    (w : World) : mrsResult * World :=
  match callbacks with
  | None => (kInvalidParameter, w)
  | Some callbacks =>
      match peerHandle with
      | Some peer => PeerConnection_RegisterInteropCallbacks peer callbacks w
      | None => (kInvalidNativeHandle, w)
      end
  end.

(** The thirteen [mrsPeerConnectionRegister...Callback] entry points have one
    body, which differs in the slot it stores into. *)
Definition mrsPeerConnectionRegisterCallback (slot : CallbackSlot)
    (peerHandle : option PeerConnection) (callback : Callback) (w : World)
    : World :=
  match peerHandle with
  | Some peer => PeerConnection_RegisterCallback peer slot callback w
  | None => w
  end.

Definition mrsPeerConnectionAddLocalVideoTrack
    (peerHandle : option PeerConnection) (track_name : option string)
    (config : VideoDeviceConfiguration.t)
    (trackHandle : out_ptr LocalVideoTrack) (w : World)
    : outcome (mrsResult * out_ptr LocalVideoTrack * World) :=
  if IsStringNullOrEmpty track_name then
    Returns (kInvalidParameter, trackHandle, w)
  else
    match trackHandle with
    | null_ptr => Returns (kInvalidParameter, trackHandle, w)
    | points_to _ =>
        let trackHandle : out_ptr LocalVideoTrack := points_to None in
        match peerHandle with
        | None => Returns (kInvalidNativeHandle, trackHandle, w)
        | Some peer =>
            match GlobalFactory_GetExisting w with
            | None => Returns (kInvalidOperation, trackHandle, w)
            | Some pc_factory =>
                (let* (res, video_source, w) :=
                   BuiltinVideoCaptureDeviceTrackSource_Create config w in
                 match res with
                 | kSuccess =>
                     match video_source with
                     | None => Returns (kUnknownError, trackHandle, w)
                     | Some video_source =>
                         let '(video_track, w) :=
                           PcFactory_CreateVideoTrack pc_factory
                             (default "" track_name) (inl video_source) w in
                         match video_track with
                         | None => Returns (kUnknownError, trackHandle, w)
                         | Some video_track =>
                             let '(result, w) :=
                               PeerConnection_AddLocalVideoTrack peer video_track w in
                             match result with
                             | Value video_track_wrapper =>
                                 let w := LocalVideoTrack_AddRef video_track_wrapper w in
                                 Returns (kSuccess,
                                          points_to (Some video_track_wrapper), w)
                             | Error _ => Returns (kUnknownError, trackHandle, w)
                             end
                         end
                     end
                 | _ => Returns (res, trackHandle, w)
                 end)%outcome
            end
        end
    end.

Definition mrsPeerConnectionAddLocalVideoTrackFromExternalSource
    (peer_handle : option PeerConnection) (track_name : option string)
    (source_handle : option ExternalVideoTrackSource)
    (track_handle_out : out_ptr LocalVideoTrack) (w : World)
    : mrsResult * out_ptr LocalVideoTrack * World :=
  match track_handle_out with
  | null_ptr => (kInvalidParameter, track_handle_out, w)
  | points_to _ =>
      let track_handle_out : out_ptr LocalVideoTrack := points_to None in
      match peer_handle with
      | None => (kInvalidNativeHandle, track_handle_out, w)
      | Some peer =>
          match source_handle with
          | None => (kInvalidNativeHandle, track_handle_out, w)
          | Some track_source =>
              match GlobalFactory_GetExisting w with
              | None => (kUnknownError, track_handle_out, w)
              | Some pc_factory =>
                  let track_name_str :=
                    if negb (IsStringNullOrEmpty track_name)
                    then default "" track_name
                    else "external_track" in
                  let '(video_track, w) :=
                    PcFactory_CreateVideoTrack pc_factory track_name_str
                      (inr track_source) w in
                  match video_track with
                  | None => (kUnknownError, track_handle_out, w)
                  | Some video_track =>
                      let '(result, w) :=
                        PeerConnection_AddLocalVideoTrack peer video_track w in
                      match result with
                      | Value track => (kSuccess, points_to (Some track), w)
                      | Error _ => (kUnknownError, track_handle_out, w)
                      end
                  end
              end
          end
      end
  end.

Definition mrsPeerConnectionRemoveLocalVideoTracksFromSource
    (peer_handle : option PeerConnection)
    (source_handle : option ExternalVideoTrackSource) (w : World)
    : mrsResult * World :=
  match peer_handle with
  | None => (kInvalidNativeHandle, w)
  | Some peer =>
      match source_handle with
      | None => (kInvalidNativeHandle, w)
      | Some source =>
          (kSuccess, PeerConnection_RemoveLocalVideoTracksFromSource peer source w)
      end
  end.

Definition mrsPeerConnectionAddLocalAudioTrack
    (peerHandle : option PeerConnection) (w : World) : mrsResult * World :=
  match peerHandle with
  | Some peer =>
      match GlobalFactory_GetExisting w with
      | None => (kInvalidOperation, w)
      | Some pc_factory =>
          let '(audio_source, w) := PcFactory_CreateAudioSource pc_factory w in
          match audio_source with
          | None => (kUnknownError, w)
          | Some audio_source =>
              let '(audio_track, w) :=
                PcFactory_CreateAudioTrack pc_factory kLocalAudioLabel
                  audio_source w in
              match audio_track with
              | None => (kUnknownError, w)
              | Some audio_track =>
                  let '(added, w) :=
                    PeerConnection_AddLocalAudioTrack peer audio_track w in
                  (if added : bool then kSuccess else kUnknownError, w)
              end
          end
      end
  | None => (kUnknownError, w)
  end.

Definition mrsPeerConnectionAddDataChannel
    (peerHandle : option PeerConnection)
    (dataChannelInteropHandle : option InteropObject)
    (config : mrsDataChannelConfig.t) (callbacks : mrsDataChannelCallbacks)
    (dataChannelHandleOut : out_ptr DataChannel) (w : World)
    : mrsResult * out_ptr DataChannel * World :=
  match dataChannelHandleOut, dataChannelInteropHandle with
  | null_ptr, _ | _, None => (kInvalidParameter, dataChannelHandleOut, w)
  | points_to _, Some interop =>
      let dataChannelHandleOut : out_ptr DataChannel := points_to None in
      match peerHandle with
      | None => (kInvalidNativeHandle, dataChannelHandleOut, w)
      | Some peer =>
          let ordered :=
            negb (Z.land (mrsDataChannelConfig.flags config) kOrdered =? 0) in
          let reliable :=
            negb (Z.land (mrsDataChannelConfig.flags config) kReliable =? 0) in
          let label := default "" (mrsDataChannelConfig.label config) in
          let '(data_channel, w) :=
            PeerConnection_AddDataChannel peer (mrsDataChannelConfig.id config)
              label ordered reliable interop w in
          match data_channel with
          | Value data_channel =>
              let w := DataChannel_SetMessageCallback data_channel
                         (message_callback callbacks) w in
              let w := DataChannel_SetBufferingCallback data_channel
                         (buffering_callback callbacks) w in
              let w := DataChannel_SetStateCallback data_channel
                         (state_callback callbacks) w in
              (kSuccess, points_to (Some data_channel), w)
          | Error code => (code, dataChannelHandleOut, w)
          end
      end
  end.

Definition mrsPeerConnectionRemoveLocalVideoTrack
    (peer_handle : option PeerConnection)
    (track_handle : option LocalVideoTrack) (w : World) : mrsResult * World :=
  match peer_handle with
  | None => (kInvalidNativeHandle, w)
  | Some peer =>
      match track_handle with
      | None => (kInvalidNativeHandle, w)
      | Some track =>
          let '(ok, w) := PeerConnection_RemoveLocalVideoTrack peer track w in
          (if ok : bool then kSuccess else kUnknownError, w)
      end
  end.

Definition mrsPeerConnectionRemoveLocalAudioTrack
    (peerHandle : option PeerConnection) (w : World) : World :=
  match peerHandle with
  | Some peer => PeerConnection_RemoveLocalAudioTrack peer w
  | None => w
  end.

Definition mrsPeerConnectionRemoveDataChannel
    (peerHandle : option PeerConnection)
    (dataChannelHandle : option DataChannel) (w : World) : mrsResult * World :=
  match peerHandle with
  | None => (kInvalidNativeHandle, w)
  | Some peer =>
      match dataChannelHandle with
      | None => (kInvalidNativeHandle, w)
      | Some data_channel =>
          (kSuccess, PeerConnection_RemoveDataChannel peer data_channel w)
      end
  end.

Definition mrsPeerConnectionSetLocalAudioTrackEnabled
    (peerHandle : option PeerConnection) (enabled : mrsBool) (w : World)
    : mrsResult * World :=
  match peerHandle with
  | None => (kInvalidNativeHandle, w)
  | Some peer =>
      (kSuccess,
       PeerConnection_SetLocalAudioTrackEnabled peer
         (match enabled with kFalse => false | kTrue => true end) w)
  end.

Definition mrsPeerConnectionIsLocalAudioTrackEnabled
    (peerHandle : option PeerConnection) (w : World) : mrsBool * World :=
  match peerHandle with
  | None => (kFalse, w)
  | Some peer =>
      let '(enabled, w) := PeerConnection_IsLocalAudioTrackEnabled peer w in
      (if enabled : bool then kTrue else kFalse, w)
  end.

Definition mrsDataChannelSendMessage
    (dataChannelHandle : option DataChannel) (data : Buffer) (size : Z)
    (w : World) : mrsResult * World :=
  match dataChannelHandle with
  | None => (kInvalidNativeHandle, w)
  | Some data_channel =>
      let '(sent, w) := DataChannel_Send data_channel data (to_size_t size) w in
      (if sent : bool then kSuccess else kUnknownError, w)
  end.

Definition mrsPeerConnectionAddIceCandidate
    (peerHandle : option PeerConnection) (sdp : option string)
    (sdp_mline_index : Z) (sdp_mid : option string) (w : World)
    : mrsResult * World :=
  match peerHandle with
  | Some peer =>
      let '(added, w) :=
        PeerConnection_AddIceCandidate peer sdp sdp_mline_index sdp_mid w in
      (if added : bool then kSuccess else kUnknownError, w)
  | None => (kInvalidNativeHandle, w)
  end.

Definition mrsPeerConnectionCreateOffer
    (peerHandle : option PeerConnection) (w : World) : mrsResult * World :=
  match peerHandle with
  | Some peer =>
      let '(created, w) := PeerConnection_CreateOffer peer w in
      (if created : bool then kSuccess else kUnknownError, w)
  | None => (kInvalidNativeHandle, w)
  end.

Definition mrsPeerConnectionCreateAnswer
    (peerHandle : option PeerConnection) (w : World) : mrsResult * World :=
  match peerHandle with
  | Some peer =>
      let '(created, w) := PeerConnection_CreateAnswer peer w in
      (if created : bool then kSuccess else kUnknownError, w)
  | None => (kInvalidNativeHandle, w)
  end.

Definition mrsPeerConnectionSetBitrate
    (peer_handle : option PeerConnection)
    (min_bitrate_bps start_bitrate_bps max_bitrate_bps : Z) (w : World)
    : mrsResult * World :=
  match peer_handle with
  | Some peer =>
      let bound (bps : Z) : option Z := if 0 <=? bps then Some bps else None in
      let settings :=
        BitrateSettings.mk (bound min_bitrate_bps) (bound start_bitrate_bps)
          (bound max_bitrate_bps) in
      PeerConnection_SetBitrate peer settings w
  | None => (kInvalidNativeHandle, w)
  end.

Definition mrsPeerConnectionSetRemoteDescription
    (peerHandle : option PeerConnection) (type sdp : option string) (w : World)
    : mrsResult * World :=
  match peerHandle with
  | Some peer =>
      let '(set, w) := PeerConnection_SetRemoteDescription peer type sdp w in
      (if set : bool then kSuccess else kUnknownError, w)
  | None => (kInvalidNativeHandle, w)
  end.

Definition mrsPeerConnectionClose
    (peerHandle : option PeerConnection) (w : World) : mrsResult * World :=
  match peerHandle with
  | Some peer => (kSuccess, PeerConnection_Close peer w)
  | None => (kInvalidNativeHandle, w)
  end.

Definition mrsPeerConnectionGetSimpleStats
    (peerHandle : option PeerConnection) (callback : Callback) (w : World)
    : mrsResult * World :=
  match peerHandle with
  | Some peer => (kSuccess, PeerConnection_GetStats peer callback w)
  | None => (kInvalidNativeHandle, w)
  end.

Definition mrsStatsReportRemoveRef
    (stats_report : option StatsReport) (w : World) : mrsResult * World :=
  match stats_report with
  | Some rep => (kSuccess, StatsReport_Release rep w)
  | None => (kInvalidNativeHandle, w)
  end.

End Facade.

(** ** mrsSdpForceCodecs *)

(** Modelled from the spec: [SdpFilter] is declared in interop_api.h,
    outside interop_api.cpp; it holds two [const char*]. *)
Module SdpFilter.
Record t : Type := mk {
    codec_name : option string;
    params : option string }.
End SdpFilter.

(** Writing [data] into a character array from [offset] on; writing past the
    end of the array is undefined. *)
Definition store_chars (buffer : list ascii) (offset : nat) (data : list ascii)
    : outcome (list ascii) :=
  if (offset + length data <=? length buffer)%nat
  then Returns (take offset buffer ++ data
                ++ drop (offset + length data) buffer)%list
  else Undefined.

Section Sdp.

(** The two functions of sdp_utils, outside interop_api.cpp, that the entry
    point calls.  [SdpParseCodecParameters] fills the map it is given. *)
Variable SdpParseCodecParameters :
  string -> gmap string string -> gmap string string.
Variable SdpForceCodecs :
  string -> string -> gmap string string -> string -> gmap string string ->
  string.

(** The filtered message [out_message]. *)
Definition filtered_message (message_str : string)
    (audio_filter video_filter : SdpFilter.t) : string :=
  let audio_codec_name_str := default "" (SdpFilter.codec_name audio_filter) in
  let video_codec_name_str := default "" (SdpFilter.codec_name video_filter) in
  let extra_audio_params : gmap string string :=
    match SdpFilter.params audio_filter with
    | Some params =>
        if negb (String.eqb audio_codec_name_str "")
        then SdpParseCodecParameters params ∅ else ∅
    | None => ∅
    end in
  let extra_video_params : gmap string string :=
    match SdpFilter.params video_filter with
    | Some params =>
        if negb (String.eqb video_codec_name_str "")
        then SdpParseCodecParameters params ∅ else ∅
    | None => ∅
    end in
  SdpForceCodecs message_str audio_codec_name_str extra_audio_params
    video_codec_name_str extra_video_params.

(** [mrsSdpForceCodecs].  [buffer] is the character array behind the pointer
    and [buffer_size] the [uint64_t] behind the in/out pointer; the outcome
    carries both as the call leaves them.  [size_t] is 64 bits wide. *)
Definition mrsSdpForceCodecs (message : option string)
    (audio_filter video_filter : SdpFilter.t)
    (buffer : option (list ascii)) (buffer_size : option Z)
    : outcome (mrsResult * list ascii * Z) :=
  (let* message_str := RTC_CHECK_ptr message in
   let* buffer := RTC_CHECK_ptr buffer in
   let* buffer_size := RTC_CHECK_ptr buffer_size in
   let out_message := filtered_message message_str audio_filter video_filter in
   let capacity := to_size_t buffer_size in
   let size := Z.of_nat (String.length out_message) in
   let buffer_size := to_uint64 (to_size_t (size + 1)) in
   if capacity <? to_size_t (size + 1)
   then Returns (kInvalidParameter, buffer, buffer_size)
   else
     let* buffer :=
       store_chars buffer 0 (list_ascii_of_string out_message) in
     let* buffer := store_chars buffer (String.length out_message) [zero] in
     Returns (kSuccess, buffer, buffer_size))%outcome.

End Sdp.

(** ** mrsMemCpy and mrsMemCpyStride *)

(** Memory: the bytes at the allocated addresses. *)
Abbreviation byte := Byte.byte.
Abbreviation memory := (gmap Z byte).

Fixpoint load_bytes (m : memory) (p : Z) (n : nat) : option (list byte) :=
  match n with
  | O => Some []
  | S n' =>
      match m !! p, load_bytes m (p + 1) n' with
      | Some b, Some bs => Some (b :: bs)
      | _, _ => None
      end
  end.

Fixpoint store_bytes (m : memory) (p : Z) (bs : list byte) : option memory :=
  match bs with
  | [] => Some m
  | b :: bs' =>
      match m !! p with
      | Some _ => store_bytes (<[p := b]> m) (p + 1) bs'
      | None => None
      end
  end.

Definition ranges_overlap (p q n : Z) : bool :=
  (0 <? n) && (p <? q + n) && (q <? p + n).

(** [memcpy(dst, src, n)]: undefined when the two ranges overlap or reach
    outside the allocated addresses. *)
Definition memcpy (m : memory) (dst src n : Z) : outcome memory :=
  if ranges_overlap dst src n then Undefined
  else
    match load_bytes m src (Z.to_nat n) with
    | None => Undefined
    | Some bs =>
        match store_bytes m dst bs with
        | None => Undefined
        | Some m' => Returns m'
        end
    end.

Definition mrsMemCpy (m : memory) (dst src size : Z) : outcome memory :=
  memcpy m dst src (to_size_t size).

(** The row by row loop of [mrsMemCpyStride]; [rows] is the number of
    iterations left. *)
Fixpoint copy_rows (m : memory) (dst dst_stride src src_stride elem_size : Z)
    (rows : nat) : outcome memory :=
  match rows with
  | O => Returns m
  | S rows' =>
      (let* m := memcpy m dst src (to_size_t elem_size) in
       copy_rows m (dst + dst_stride) dst_stride (src + src_stride) src_stride
         elem_size rows')%outcome
  end.

(** [mrsMemCpyStride]: pointers are addresses, 0 is null; the other four
    arguments are [int32_t]. *)
Definition mrsMemCpyStride (m : memory) (dst dst_stride src src_stride
    elem_size elem_count : Z) : outcome memory :=
  (let* _ := RTC_CHECK (negb (dst =? 0)) in
   let* _ := RTC_CHECK (elem_size <=? dst_stride) in
   let* _ := RTC_CHECK (negb (src =? 0)) in
   let* _ := RTC_CHECK (elem_size <=? src_stride) in
   if (dst_stride =? elem_size) && (src_stride =? elem_size) then
     let total_size := to_size_t (to_size_t elem_size * to_size_t elem_count) in
     memcpy m dst src total_size
   else
     copy_rows m dst dst_stride src src_stride elem_size (Z.to_nat elem_count)
  )%outcome.

(** ** Which records an aggregation reads *)

(** The six values of [stats_type] that [mrsStatsReportGetObjects] compares
    against. *)
Definition recognized_kinds : list string :=
  ["DataChannelStats"; "AudioSenderStats"; "AudioReceiverStats";
   "VideoSenderStats"; "VideoReceiverStats"; "TransportStats"].

(** [matching_record stats_type stats]: the branch of [stats_type] passes the
    guards in front of [stats] and touches a structure for it. *)
Definition matching_record (stats_type : string) (stats : RTCStats) : bool :=
  match stats with
  | DataChannelStats _ => String.eqb stats_type "DataChannelStats"
  | TransportStats _ => String.eqb stats_type "TransportStats"
  | OutboundRTPStreamStats ortp_stats =>
      is_defined (RTCOutboundRTPStreamStats.track_id ortp_stats)
      && ((String.eqb stats_type "AudioSenderStats"
           && String.eqb (deref (RTCOutboundRTPStreamStats.kind ortp_stats)) "audio")
          || (String.eqb stats_type "VideoSenderStats"
              && String.eqb (deref (RTCOutboundRTPStreamStats.kind ortp_stats)) "video"))
  | InboundRTPStreamStats irtp_stats =>
      (String.eqb stats_type "AudioReceiverStats"
       && String.eqb (deref (RTCInboundRTPStreamStats.kind irtp_stats)) "audio")
      || (String.eqb stats_type "VideoReceiverStats"
          && String.eqb (deref (RTCInboundRTPStreamStats.kind irtp_stats)) "video")
  | MediaStreamTrackStats track_stats =>
      let kind := deref (RTCMediaStreamTrackStats.kind track_stats) in
      let remote := deref (RTCMediaStreamTrackStats.remote_source track_stats) in
      (String.eqb stats_type "AudioSenderStats"
       && String.eqb kind "audio" && negb remote)
      || (String.eqb stats_type "AudioReceiverStats"
          && String.eqb kind "audio" && remote)
      || (String.eqb stats_type "VideoSenderStats"
          && String.eqb kind "video" && negb remote)
      || (String.eqb stats_type "VideoReceiverStats"
          && String.eqb kind "video" && remote)
  | OtherStats _ _ _ => false
  end.

Definition no_matching_record (stats_type : string) (report : RTCStatsReport)
    : bool :=
  forallb (fun stats => negb (matching_record stats_type stats)) report.

(** ** A concrete engine and a concrete device table *)

(** An engine to run the entry points on.  Its world counts the calls that
    reached it; native objects are numbers; the factory exists, device
    "cam0" is the one that opens, a peer connection is created from the
    configuration [true] and a data channel from a non-negative id. *)
Definition counting_engine : Engine := {|
  World := nat;
  PeerConnection := nat;
  LocalVideoTrack := nat;
  DataChannel := nat;
  ExternalVideoTrackSource := nat;
  StatsReport := nat;
  InteropObject := nat;
  PeerConnectionConfiguration := bool;
  InteropCallbacks := unit;
  Callback := nat;
  Buffer := list byte;
  PcFactory := unit;
  AudioSource := unit;
  AudioTrack := unit;
  VideoTrack := nat;
  VideoCaptureModule := string;
  GlobalFactory_GetExisting := fun w => Some tt;
  CreateDeviceInfo := fun w => None;
  VideoCaptureFactory_Create := fun device_id w =>
    (if String.eqb device_id "cam0" then Some device_id else None, S w);
  RegisterCaptureDataCallback := fun vcm w => S w;
  StartCapture := fun vcm capability w => (0, S w);
  StopCapture := fun vcm w => S w;
  DeRegisterCaptureDataCallback := fun vcm w => S w;
  PeerConnection_create := fun config interop w =>
    (if config : bool then Value w else Error kInvalidOperation, S w);
  PeerConnection_RegisterInteropCallbacks := fun peer callbacks w =>
    (kSuccess, S w);
  PeerConnection_RegisterCallback := fun peer slot callback w => S w;
  PcFactory_CreateVideoTrack := fun factory name source w => (Some w, S w);
  PeerConnection_AddLocalVideoTrack := fun peer track w => (Value track, S w);
  LocalVideoTrack_AddRef := fun track w => S w;
  PeerConnection_RemoveLocalVideoTracksFromSource := fun peer source w => S w;
  PcFactory_CreateAudioSource := fun factory w => (Some tt, S w);
  PcFactory_CreateAudioTrack := fun factory name source w => (Some tt, S w);
  PeerConnection_AddLocalAudioTrack := fun peer track w => (true, S w);
  PeerConnection_AddDataChannel :=
    fun peer id label ordered reliable interop w =>
      (if id <? 0 then Error (kEngineError id) else Value (Z.to_nat id), S w);
  DataChannel_SetMessageCallback := fun channel callback w => S w;
  DataChannel_SetBufferingCallback := fun channel callback w => S w;
  DataChannel_SetStateCallback := fun channel callback w => S w;
  PeerConnection_RemoveLocalVideoTrack := fun peer track w => (true, S w);
  PeerConnection_RemoveLocalAudioTrack := fun peer w => S w;
  PeerConnection_RemoveDataChannel := fun peer channel w => S w;
  PeerConnection_SetLocalAudioTrackEnabled := fun peer enabled w => S w;
  PeerConnection_IsLocalAudioTrackEnabled := fun peer w => (Nat.even peer, S w);
  DataChannel_Send := fun channel data size w => (true, S w);
  PeerConnection_AddIceCandidate := fun peer sdp index mid w => (true, S w);
  PeerConnection_CreateOffer := fun peer w => (true, S w);
  PeerConnection_CreateAnswer := fun peer w => (true, S w);
  PeerConnection_SetBitrate := fun peer settings w => (kSuccess, S w);
  PeerConnection_SetRemoteDescription := fun peer type sdp w => (true, S w);
  PeerConnection_Close := fun peer w => S w;
  PeerConnection_GetStats := fun peer callback w => S w;
  StatsReport_Release := fun report w => S w |}.

(** The device table of a machine with one camera, "cam0", that lists the
    given capabilities. *)
Definition one_camera (capabilities : list VideoCaptureCapability.t)
    : DeviceInfo.t := {|
  DeviceInfo.NumberOfDevices := 1;
  DeviceInfo.GetDeviceName := fun i =>
    if i =? 0 then Some ("Integrated Camera", "cam0") else None;
  DeviceInfo.NumberOfCapabilities := fun id =>
    if String.eqb id "cam0" then Z.of_nat (length capabilities) else 0;
  DeviceInfo.GetCapability := fun id icap =>
    if String.eqb id "cam0" && (0 <=? icap)
    then nth_error capabilities (Z.to_nat icap) else None |}.

(** ** What a copy leaves in memory *)

(** Every address of the [n] bytes from [p] on is allocated. *)
Definition allocated (m : memory) (p n : Z) : bool :=
  forallb (fun a => match m !! a with Some _ => true | None => false end)
    (seqZ p n).

(** [m'] is [m] with the [n] bytes at [src] copied to [dst]. *)
Definition copied (m m' : memory) (dst src n : Z) : Prop :=
  forall a : Z,
    m' !! a = if decide (dst <= a < dst + n)
              then m !! (src + (a - dst)) else m !! a.

(** ** The slots of an aggregation *)

(** The identifier under which the branch of [stats_type] files [stats]: the
    argument of its [FindOrInsert], when the guards in front of it pass. *)
Definition slot_key (stats_type : string) (stats : RTCStats) : option string :=
  if matching_record stats_type stats then
    match stats with
    | OutboundRTPStreamStats ortp_stats =>
        Some (deref (RTCOutboundRTPStreamStats.track_id ortp_stats))
    | InboundRTPStreamStats irtp_stats =>
        Some (deref (RTCInboundRTPStreamStats.track_id irtp_stats))
    | MediaStreamTrackStats track_stats =>
        Some (RTCMediaStreamTrackStats.id track_stats)
    | _ => None
    end
  else None.

(** The identifiers seen so far, in the order of their first appearance,
    after one more record. *)
Definition first_seen (keys : list string) (key : option string)
    : list string :=
  match key with
  | None => keys
  | Some k => if existsb (String.eqb k) keys then keys else keys ++ [k]
  end.

Definition is_rtp_stream (stats : RTCStats) : bool :=
  match stats with
  | OutboundRTPStreamStats _ | InboundRTPStreamStats _ => true
  | _ => false
  end.

Definition is_track (stats : RTCStats) : bool :=
  match stats with
  | MediaStreamTrackStats _ => true
  | _ => false
  end.

(** ** More on the capture devices *)

(** Whether the configuration asks for a capability: the test in front of the
    two selection loops. *)
Definition capability_requested (config : VideoDeviceConfiguration.t) : bool :=
  (0 <? VideoDeviceConfiguration.width config)
  || (0 <? VideoDeviceConfiguration.height config)
  || double_ltb double_zero (VideoDeviceConfiguration.framerate config).

(** The capability variable after the calls to [GetCapability] for the
    capabilities [icaps] of one device: the last one that was read. *)
Definition last_capability (info : DeviceInfo.t) (device_id_utf8 : string)
    (icaps : list Z) (capability : VideoCaptureCapability.t)
    : VideoCaptureCapability.t :=
  fold_left
    (fun capability icap =>
       match DeviceInfo.GetCapability info device_id_utf8 icap with
       | Some read => read
       | None => capability
       end)
    icaps capability.

(** The counting engine on a machine with the device table [info]: it opens
    "cam0" only, and a capture starts unless the capability has no frame
    rate. *)
Definition camera_engine (info : DeviceInfo.t) : Engine := {|
  World := nat;
  PeerConnection := nat;
  LocalVideoTrack := nat;
  DataChannel := nat;
  ExternalVideoTrackSource := nat;
  StatsReport := nat;
  InteropObject := nat;
  PeerConnectionConfiguration := bool;
  InteropCallbacks := unit;
  Callback := nat;
  Buffer := list byte;
  PcFactory := unit;
  AudioSource := unit;
  AudioTrack := unit;
  VideoTrack := nat;
  VideoCaptureModule := string;
  GlobalFactory_GetExisting := fun w => Some tt;
  CreateDeviceInfo := fun w => Some info;
  VideoCaptureFactory_Create := fun device_id w =>
    (if String.eqb device_id "cam0" then Some device_id else None, S w);
  RegisterCaptureDataCallback := fun vcm w => S w;
  StartCapture := fun vcm capability w =>
    (if VideoCaptureCapability.maxFPS capability =? 0 then -1 else 0, S w);
  StopCapture := fun vcm w => S w;
  DeRegisterCaptureDataCallback := fun vcm w => S w;
  PeerConnection_create := fun config interop w =>
    (if config : bool then Value w else Error kInvalidOperation, S w);
  PeerConnection_RegisterInteropCallbacks := fun peer callbacks w =>
    (kSuccess, S w);
  PeerConnection_RegisterCallback := fun peer slot callback w => S w;
  PcFactory_CreateVideoTrack := fun factory name source w => (Some w, S w);
  PeerConnection_AddLocalVideoTrack := fun peer track w => (Value track, S w);
  LocalVideoTrack_AddRef := fun track w => S w;
  PeerConnection_RemoveLocalVideoTracksFromSource := fun peer source w => S w;
  PcFactory_CreateAudioSource := fun factory w => (Some tt, S w);
  PcFactory_CreateAudioTrack := fun factory name source w => (Some tt, S w);
  PeerConnection_AddLocalAudioTrack := fun peer track w => (true, S w);
  PeerConnection_AddDataChannel :=
    fun peer id label ordered reliable interop w =>
      (if id <? 0 then Error (kEngineError id) else Value (Z.to_nat id), S w);
  DataChannel_SetMessageCallback := fun channel callback w => S w;
  DataChannel_SetBufferingCallback := fun channel callback w => S w;
  DataChannel_SetStateCallback := fun channel callback w => S w;
  PeerConnection_RemoveLocalVideoTrack := fun peer track w => (true, S w);
  PeerConnection_RemoveLocalAudioTrack := fun peer w => S w;
  PeerConnection_RemoveDataChannel := fun peer channel w => S w;
  PeerConnection_SetLocalAudioTrackEnabled := fun peer enabled w => S w;
  PeerConnection_IsLocalAudioTrackEnabled := fun peer w => (Nat.even peer, S w);
  DataChannel_Send := fun channel data size w => (true, S w);
  PeerConnection_AddIceCandidate := fun peer sdp index mid w => (true, S w);
  PeerConnection_CreateOffer := fun peer w => (true, S w);
  PeerConnection_CreateAnswer := fun peer w => (true, S w);
  PeerConnection_SetBitrate := fun peer settings w => (kSuccess, S w);
  PeerConnection_SetRemoteDescription := fun peer type sdp w => (true, S w);
  PeerConnection_Close := fun peer w => S w;
  PeerConnection_GetStats := fun peer callback w => S w;
  StatsReport_Release := fun report w => S w |}.

(** The device table of a machine whose cameras are the identifiers listed,
    each with the capabilities it reports. *)
Definition device_table
    (cameras : list (string * list VideoCaptureCapability.t)) : DeviceInfo.t :=
  let capabilities_of (id : string) : list VideoCaptureCapability.t :=
    match List.find (fun camera => String.eqb id (fst camera)) cameras with
    | Some camera => snd camera
    | None => []
    end in
  {| DeviceInfo.NumberOfDevices := Z.of_nat (length cameras);
     DeviceInfo.GetDeviceName := fun i =>
       if 0 <=? i
       then option_map (fun camera => ("Camera", fst camera))
              (nth_error cameras (Z.to_nat i))
       else None;
     DeviceInfo.NumberOfCapabilities := fun id =>
       Z.of_nat (length (capabilities_of id));
     DeviceInfo.GetCapability := fun id icap =>
       if 0 <=? icap then nth_error (capabilities_of id) (Z.to_nat icap)
       else None |}.

(** ** Enumerating the capture devices and their formats *)

Definition to_uint32 (z : Z) : Z := z mod 2 ^ 32.

(** The enumerators of [libyuv::FourCC] that the interop layer names. *)
Inductive FourCC : Type :=
| FOURCC_ANY | FOURCC_I420 | FOURCC_IYUV | FOURCC_24BG | FOURCC_ABGR
| FOURCC_ARGB | FOURCC_R444 | FOURCC_RGBP | FOURCC_RGBO | FOURCC_YUY2
| FOURCC_YV12 | FOURCC_UYVY | FOURCC_MJPG | FOURCC_NV21 | FOURCC_NV12
| FOURCC_BGRA.

(** What the enumeration callbacks are invoked with, in order. *)
Inductive DeviceEnumEvent : Type :=
| DeviceEnumerated (id name : string)
| DeviceEnumCompleted.

Inductive FormatEnumEvent : Type :=
| FormatEnumerated (width height : Z) (framerate : double) (fourcc : Z)
| FormatEnumCompleted (result : mrsResult).

Section Enumeration.
Context `{Engine}.

(** The values of the enumerators, which libyuv defines. *)
Variable fourcc_value : FourCC -> Z.

(** [FourCCFromVideoType]: convert a WebRTC VideoType format into its FOURCC
    counterpart. *)
Definition FourCCFromVideoType (videoType : VideoType) : Z :=
  match videoType with
  | kUnknown => to_uint32 (fourcc_value FOURCC_ANY)
  | kI420 => to_uint32 (fourcc_value FOURCC_I420)
  | kIYUV => to_uint32 (fourcc_value FOURCC_IYUV)
  | kRGB24 => to_uint32 (fourcc_value FOURCC_24BG)
  | kABGR => to_uint32 (fourcc_value FOURCC_ABGR)
  | kARGB => to_uint32 (fourcc_value FOURCC_ARGB)
  | kARGB4444 => to_uint32 (fourcc_value FOURCC_R444)
  | kRGB565 => to_uint32 (fourcc_value FOURCC_RGBP)
  | kARGB1555 => to_uint32 (fourcc_value FOURCC_RGBO)
  | kYUY2 => to_uint32 (fourcc_value FOURCC_YUY2)
  | kYV12 => to_uint32 (fourcc_value FOURCC_YV12)
  | kUYVY => to_uint32 (fourcc_value FOURCC_UYVY)
  | kMJPEG => to_uint32 (fourcc_value FOURCC_MJPG)
  | kNV21 => to_uint32 (fourcc_value FOURCC_NV21)
  | kNV12 => to_uint32 (fourcc_value FOURCC_NV12)
  | kBGRA => to_uint32 (fourcc_value FOURCC_BGRA)
  end.

(** The invocation of the completed callback, when there is one. *)
Definition device_enum_completed (completedCallback : option Callback)
    : list DeviceEnumEvent :=
  match completedCallback with
  | Some _ => [DeviceEnumCompleted]
  | None => []
  end.

(** The loop of [mrsEnumVideoCaptureDevicesAsync] over the devices. *)
Definition enumerate_devices (info : DeviceInfo.t) (indices : list Z)
    : list DeviceEnumEvent :=
  flat_map
    (fun i =>
       match DeviceInfo.GetDeviceName info i with
       | Some (name, id) => [DeviceEnumerated id name]
       | None => []
       end)
    indices.

(** [mrsEnumVideoCaptureDevicesAsync].  A callback is [None] when the pointer
    is null; the user data travel with it. *)
Definition mrsEnumVideoCaptureDevicesAsync
    (enumCallback completedCallback : option Callback) (w : World)
    : mrsResult * list DeviceEnumEvent :=
  match enumCallback with
  | None => (kInvalidParameter, [])
  | Some _ =>
      match CreateDeviceInfo w with
      | None => (kUnknownError, device_enum_completed completedCallback)
      | Some info =>
          let num_devices := DeviceInfo.NumberOfDevices info in
          (kSuccess,
           enumerate_devices info (counter_range num_devices)
           ++ device_enum_completed completedCallback)
      end
  end.

(** The loop over the capabilities of the device that was found.
    [GetCapability] answers 0 or -1, so that the capabilities this loop
    accepts (an answer other than -1) are the ones that were read. *)
Definition enumerate_formats (info : DeviceInfo.t) (id : string)
    (cap_indices : list Z) : list FormatEnumEvent :=
  flat_map
    (fun cap_idx =>
       match DeviceInfo.GetCapability info id cap_idx with
       | Some capability =>
           let width := to_uint32 (VideoCaptureCapability.width capability) in
           let height := to_uint32 (VideoCaptureCapability.height capability) in
           let framerate :=
             double_of_Z (VideoCaptureCapability.maxFPS capability) in
           let fourcc :=
             FourCCFromVideoType (VideoCaptureCapability.videoType capability) in
           if negb (fourcc =? to_uint32 (fourcc_value FOURCC_ANY))
           then [FormatEnumerated width height framerate fourcc]
           else []
       | None => []
       end)
    cap_indices.

(** The loop over the devices, which stops at the first one with the
    identifier asked for. *)
Fixpoint enumerate_device_formats (info : DeviceInfo.t) (device_id_str : string)
    (indices : list Z) : list FormatEnumEvent :=
  match indices with
  | [] => []
  | device_idx :: rest =>
      match DeviceInfo.GetDeviceName info device_idx with
      | None => enumerate_device_formats info device_id_str rest
      | Some (name, id) =>
          if negb (String.eqb id device_id_str)
          then enumerate_device_formats info device_id_str rest
          else
            enumerate_formats info id
              (counter_range (DeviceInfo.NumberOfCapabilities info id))
      end
  end.

(** [mrsEnumVideoCaptureFormatsAsync]. *)
Definition mrsEnumVideoCaptureFormatsAsync (device_id : option string)
    (enumCallback completedCallback : option Callback) (w : World)
    : mrsResult * list FormatEnumEvent :=
  if IsStringNullOrEmpty device_id then (kInvalidParameter, [])
  else
    let device_id_str := default "" device_id in
    match enumCallback with
    | None => (kInvalidParameter, [])
    | Some _ =>
        match CreateDeviceInfo w with
        | None => (kUnknownError, [])
        | Some info =>
            let num_devices := DeviceInfo.NumberOfDevices info in
            (kSuccess,
             enumerate_device_formats info device_id_str
               (counter_range num_devices)
             ++ match completedCallback with
                | Some _ => [FormatEnumCompleted kSuccess]
                | None => []
                end)
        end
    end.

End Enumeration.

(** ** mrsCloseEnum *)

Section CloseEnum.

(** The enumerator objects, with their [dispose] and their [delete]. *)
Variable Heap : Type.
Variable Enumerator : Type.
Variable dispose : Enumerator -> Heap -> Heap.
Variable delete_enumerator : Enumerator -> Heap -> Heap.

(** [mrsCloseEnum]: [handleRef] points to the handle, or is null. *)
Definition mrsCloseEnum (handleRef : out_ptr Enumerator) (heap : Heap)
    : out_ptr Enumerator * Heap :=
  match handleRef with
  | null_ptr => (handleRef, heap)
  | points_to None => (handleRef, heap)
  | points_to (Some handle) =>
      (points_to None, delete_enumerator handle (dispose handle heap))
  end.

End CloseEnum.

(** ** What a strided copy leaves in memory *)

(** [m'] is [m] with byte [j] of row [i] of the source, for each of the
    [elem_count] rows of [elem_size] bytes, copied to byte [j] of row [i] of
    the destination, and nothing else changed. *)
Definition copied_rows (m m' : memory)
    (dst dst_stride src src_stride elem_size elem_count : Z) : Prop :=
  (forall i j : Z,
      0 <= i < elem_count -> 0 <= j < elem_size ->
      m' !! (dst + i * dst_stride + j) = m !! (src + i * src_stride + j))
  /\ (forall a : Z,
         (forall i j : Z,
             0 <= i < elem_count -> 0 <= j < elem_size ->
             a <> dst + i * dst_stride + j) ->
         m' !! a = m !! a).
(** * Properties of the statistics aggregation *)

(** [type] names the class of a record: the test on [type] and the
    [cast_to] that follows it in the source are the match on the
    constructor. *)
Lemma type_names_class (stats : RTCStats) :
  (type stats = "data-channel" <-> exists s, stats = DataChannelStats s)
  /\ (type stats = "outbound-rtp" <-> exists s, stats = OutboundRTPStreamStats s)
  /\ (type stats = "inbound-rtp" <-> exists s, stats = InboundRTPStreamStats s)
  /\ (type stats = "track" <-> exists s, stats = MediaStreamTrackStats s)
  /\ (type stats = "transport" <-> exists s, stats = TransportStats s).
Proof.
  repeat apply conj;
    first
      [ intros [s ->]; reflexivity
      | intros Htype; destruct stats as [s|s|s|s|s|ty i ts];
        try destruct ty; cbn in Htype; try discriminate;
        eexists; reflexivity ].
Qed.

(** Case analysis on the guards of a loop body. *)
Ltac split_guards :=
  repeat match goal with
  | |- context [String.eqb ?a ?b] => destruct (String.eqb a b)
  | |- context [is_defined ?m] => destruct (is_defined m)
  | |- context [@deref bool _ ?m] => destruct (@deref bool _ m)
  end;
  cbn; intros; try reflexivity; try discriminate.

Lemma AudioSenderStats_visit_skip pending stats :
  matching_record "AudioSenderStats" stats = false ->
  AudioSenderStats_visit pending stats = pending.
Proof. destruct stats; cbn; split_guards. Qed.

Lemma AudioReceiverStats_visit_skip pending stats :
  matching_record "AudioReceiverStats" stats = false ->
  AudioReceiverStats_visit pending stats = pending.
Proof. destruct stats; cbn; split_guards. Qed.

Lemma VideoSenderStats_visit_skip pending stats :
  matching_record "VideoSenderStats" stats = false ->
  VideoSenderStats_visit pending stats = pending.
Proof. destruct stats; cbn; split_guards. Qed.

Lemma VideoReceiverStats_visit_skip pending stats :
  matching_record "VideoReceiverStats" stats = false ->
  VideoReceiverStats_visit pending stats = pending.
Proof. destruct stats; cbn; split_guards. Qed.

Lemma DataChannelStats_visit_skip stats :
  matching_record "DataChannelStats" stats = false ->
  DataChannelStats_visit stats = [].
Proof. destruct stats; cbn; split_guards. Qed.

Lemma TransportStats_visit_skip stats :
  matching_record "TransportStats" stats = false ->
  TransportStats_visit stats = [].
Proof. destruct stats; cbn; split_guards. Qed.

(** A loop whose body leaves the pending structures alone on every record of
    the report leaves them alone. *)
Lemma fold_left_skip {T} (visit : list (string * T) -> RTCStats -> list (string * T))
    (stats_type : string) :
  (forall pending stats,
      matching_record stats_type stats = false -> visit pending stats = pending) ->
  forall report pending,
    no_matching_record stats_type report = true ->
    fold_left visit report pending = pending.
Proof.
  intros Hskip report. induction report as [|stats report IH]; intros pending Hno.
  - reflexivity.
  - cbn in Hno. apply andb_prop in Hno as [Hstats Hrest].
    apply negb_true_iff in Hstats.
    cbn. rewrite (Hskip _ _ Hstats). apply IH, Hrest.
Qed.

Lemma flat_map_skip (visit : RTCStats -> list StatsObject) (stats_type : string) :
  (forall stats, matching_record stats_type stats = false -> visit stats = []) ->
  forall report,
    no_matching_record stats_type report = true -> flat_map visit report = [].
Proof.
  intros Hskip report. induction report as [|stats report IH]; intros Hno.
  - reflexivity.
  - cbn in Hno. apply andb_prop in Hno as [Hstats Hrest].
    apply negb_true_iff in Hstats.
    cbn. rewrite (Hskip _ Hstats), (IH Hrest). reflexivity.
Qed.

Lemma unrecognized_kind stats_type k :
  ~ In stats_type recognized_kinds -> In k recognized_kinds ->
  String.eqb stats_type k = false.
Proof.
  intros Hnot Hin. apply String.eqb_neq. intros ->. exact (Hnot Hin).
Qed.

(** C6: a kind string outside the six recognised ones, or a report with no
    record matching the requested kind, makes [mrsStatsReportGetObjects]
    return success without invoking the callback. *)
Theorem GetObjects_nothing_to_report (report : RTCStatsReport) (stats_type : string) :
  ~ In stats_type recognized_kinds \/ no_matching_record stats_type report = true ->
  mrsStatsReportGetObjects (Some report) stats_type = (kSuccess, []).
Proof.
  intros [Hnot | Hno].
  - unfold mrsStatsReportGetObjects.
    rewrite !(unrecognized_kind stats_type) by (assumption || (cbn; tauto)).
    reflexivity.
  - unfold mrsStatsReportGetObjects.
    repeat match goal with
    | |- context [String.eqb stats_type ?k] =>
        destruct (String.eqb_spec stats_type k) as [-> | _]
    end; try reflexivity.
    + now rewrite (flat_map_skip _ _ DataChannelStats_visit_skip).
    + now rewrite (fold_left_skip _ _ AudioSenderStats_visit_skip).
    + now rewrite (fold_left_skip _ _ AudioReceiverStats_visit_skip).
    + now rewrite (fold_left_skip _ _ VideoSenderStats_visit_skip).
    + now rewrite (fold_left_skip _ _ VideoReceiverStats_visit_skip).
    + now rewrite (flat_map_skip _ _ TransportStats_visit_skip).
Qed.

Lemma GetObjects_nothing_to_report_witness :
  (~ In "CodecStats" recognized_kinds
   \/ no_matching_record "CodecStats"
        [TransportStats (RTCTransportStats.mk "RTCTransport_0_1" 5 (Some 7) (Some 9))]
      = true)
  /\ mrsStatsReportGetObjects
       (Some [TransportStats (RTCTransportStats.mk "RTCTransport_0_1" 5 (Some 7) (Some 9))])
       "CodecStats" = (kSuccess, [])
  /\ (~ In "AudioSenderStats" recognized_kinds
      \/ no_matching_record "AudioSenderStats"
           [TransportStats (RTCTransportStats.mk "RTCTransport_0_1" 5 (Some 7) (Some 9))]
         = true)
  /\ mrsStatsReportGetObjects
       (Some [TransportStats (RTCTransportStats.mk "RTCTransport_0_1" 5 (Some 7) (Some 9))])
       "AudioSenderStats" = (kSuccess, []).
Proof.
  assert (H1 : ~ In "CodecStats" recognized_kinds)
    by (cbn; intuition discriminate).
  assert (H2 : no_matching_record "AudioSenderStats"
           [TransportStats (RTCTransportStats.mk "RTCTransport_0_1" 5 (Some 7) (Some 9))]
         = true) by reflexivity.
  split; [left; exact H1|].
  split; [apply GetObjects_nothing_to_report; left; exact H1|].
  split; [right; exact H2|].
  apply GetObjects_nothing_to_report; right; exact H2.
Defined.

(** Records that do not match the requested kind can be dropped from the
    front of a report. *)
Lemma AudioSenderStats_fold_skip report pending :
  no_matching_record "AudioSenderStats" report = true ->
  fold_left AudioSenderStats_visit report pending = pending.
Proof. apply (fold_left_skip _ _ AudioSenderStats_visit_skip). Qed.

(** C4: one outbound-rtp record of audio track "T1" with 10 packets sent and
    one local audio track record with id "T1" and audio level 0.5, in either
    order and among records that do not match the kind, make
    "AudioSenderStats" invoke the callback exactly once, with the same
    structure in both orders, which carries 10 packets sent and audio
    level 0.5. *)
Theorem GetObjects_joins_track_T1
    (before between after : RTCStatsReport)
    (ortp_id : string) (ortp_timestamp_us : Z)
    (bytes_sent frames_encoded : RTCStatsMember Z)
    (track_timestamp_us : Z) (track_identifier : RTCStatsMember string)
    (total_audio_energy total_samples_duration : RTCStatsMember double)
    (total_samples_received frames_sent huge_frames_sent frames_received
       frames_dropped : RTCStatsMember Z) :
  let ortp := OutboundRTPStreamStats
    (RTCOutboundRTPStreamStats.mk ortp_id ortp_timestamp_us (Some "audio")
       (Some "T1") (Some 10) bytes_sent frames_encoded) in
  let track := MediaStreamTrackStats
    (RTCMediaStreamTrackStats.mk "T1" track_timestamp_us track_identifier
       (Some false) (Some "audio") (Some double_half) total_audio_energy
       total_samples_received total_samples_duration frames_sent
       huge_frames_sent frames_received frames_dropped) in
  no_matching_record "AudioSenderStats" (before ++ between ++ after) = true ->
  exists stats : mrsAudioSenderStats.t,
    mrsStatsReportGetObjects
      (Some (before ++ ortp :: between ++ track :: after)) "AudioSenderStats"
    = (kSuccess, [AudioSenderObject stats])
    /\ mrsStatsReportGetObjects
         (Some (before ++ track :: between ++ ortp :: after)) "AudioSenderStats"
       = (kSuccess, [AudioSenderObject stats])
    /\ mrsAudioSenderStats.packets_sent stats = 10
    /\ mrsAudioSenderStats.audio_level stats = double_half.
Proof.
  intros ortp track Hno.
  unfold no_matching_record in Hno.
  rewrite !forallb_app in Hno.
  apply andb_prop in Hno as [Hbefore Hrest].
  apply andb_prop in Hrest as [Hbetween Hafter].
  eexists. split; [|split; [|split]].
  - cbn -[AudioSenderStats_visit].
    rewrite fold_left_app. cbn [fold_left].
    rewrite fold_left_app. cbn [fold_left].
    rewrite !AudioSenderStats_fold_skip by assumption.
    reflexivity.
  - cbn -[AudioSenderStats_visit].
    rewrite fold_left_app. cbn [fold_left].
    rewrite fold_left_app. cbn [fold_left].
    rewrite !AudioSenderStats_fold_skip by assumption.
    reflexivity.
  - reflexivity.
  - reflexivity.
Qed.

Lemma GetObjects_joins_track_T1_witness :
  no_matching_record "AudioSenderStats"
    ([TransportStats (RTCTransportStats.mk "RTCTransport_0_1" 5 (Some 7) (Some 9))]
     ++ [] ++
     [InboundRTPStreamStats
        (RTCInboundRTPStreamStats.mk "RTCInboundRTPAudioStream_1" 5
           (Some "audio") (Some "T2") (Some 3) (Some 300) None)]) = true
  /\ exists stats : mrsAudioSenderStats.t,
    mrsStatsReportGetObjects
      (Some ([TransportStats (RTCTransportStats.mk "RTCTransport_0_1" 5 (Some 7) (Some 9))]
             ++ OutboundRTPStreamStats
                  (RTCOutboundRTPStreamStats.mk "RTCOutboundRTPAudioStream_1" 5
                     (Some "audio") (Some "T1") (Some 10) (Some 1200) None)
             :: [] ++
             MediaStreamTrackStats
               (RTCMediaStreamTrackStats.mk "T1" 6 (Some "microphone")
                  (Some false) (Some "audio") (Some double_half)
                  (Some double_zero) None (Some double_zero) None None None None)
             :: [InboundRTPStreamStats
                   (RTCInboundRTPStreamStats.mk "RTCInboundRTPAudioStream_1" 5
                      (Some "audio") (Some "T2") (Some 3) (Some 300) None)]))
      "AudioSenderStats"
    = (kSuccess, [AudioSenderObject stats])
    /\ mrsStatsReportGetObjects
      (Some ([TransportStats (RTCTransportStats.mk "RTCTransport_0_1" 5 (Some 7) (Some 9))]
             ++ MediaStreamTrackStats
               (RTCMediaStreamTrackStats.mk "T1" 6 (Some "microphone")
                  (Some false) (Some "audio") (Some double_half)
                  (Some double_zero) None (Some double_zero) None None None None)
             :: [] ++
             OutboundRTPStreamStats
                  (RTCOutboundRTPStreamStats.mk "RTCOutboundRTPAudioStream_1" 5
                     (Some "audio") (Some "T1") (Some 10) (Some 1200) None)
             :: [InboundRTPStreamStats
                   (RTCInboundRTPStreamStats.mk "RTCInboundRTPAudioStream_1" 5
                      (Some "audio") (Some "T2") (Some 3) (Some 300) None)]))
      "AudioSenderStats"
    = (kSuccess, [AudioSenderObject stats])
    /\ mrsAudioSenderStats.packets_sent stats = 10
    /\ mrsAudioSenderStats.audio_level stats = double_half.
Proof.
  split; [reflexivity|].
  apply (GetObjects_joins_track_T1
           [TransportStats (RTCTransportStats.mk "RTCTransport_0_1" 5 (Some 7) (Some 9))]
           []
           [InboundRTPStreamStats
              (RTCInboundRTPStreamStats.mk "RTCInboundRTPAudioStream_1" 5
                 (Some "audio") (Some "T2") (Some 3) (Some 300) None)]
           "RTCOutboundRTPAudioStream_1" 5 (Some 1200) None
           6 (Some "microphone") (Some double_zero) (Some double_zero)
           None None None None None).
  reflexivity.
Defined.

(** An outbound-rtp record without a track identifier changes nothing in any
    aggregation: the sender branches step over it, the other branches do not
    read outbound-rtp records. *)
Lemma sender_skips_trackless_stream (before after : RTCStatsReport)
    (stats_type : string) (ortp_stats : RTCOutboundRTPStreamStats.t) :
  is_defined (RTCOutboundRTPStreamStats.track_id ortp_stats) = false ->
  mrsStatsReportGetObjects
    (Some (before ++ OutboundRTPStreamStats ortp_stats :: after)) stats_type
  = mrsStatsReportGetObjects (Some (before ++ after)) stats_type.
Proof.
  intros Hundefined. unfold mrsStatsReportGetObjects.
  rewrite !flat_map_app, !fold_left_app. cbn.
  rewrite Hundefined, !andb_false_r. reflexivity.
Qed.

(** C3 (the receiver side, which the code does not skip): an inbound-rtp
    audio record without a track identifier is the only record of the report,
    and "AudioReceiverStats" invokes the callback once, with a structure
    filled from that record; the same holds for "VideoReceiverStats". *)
Theorem receiver_reports_trackless_stream
    (id : string) (timestamp_us packets bytes frames : Z) :
  mrsStatsReportGetObjects
    (Some [InboundRTPStreamStats
             (RTCInboundRTPStreamStats.mk id timestamp_us (Some "audio") None
                (Some packets) (Some bytes) (Some frames))])
    "AudioReceiverStats"
  = (kSuccess,
     [AudioReceiverObject
        (mrsAudioReceiverStats.mk timestamp_us packets bytes 0 None
           double_zero double_zero 0 double_zero)])
  /\ mrsStatsReportGetObjects
       (Some [InboundRTPStreamStats
                (RTCInboundRTPStreamStats.mk id timestamp_us (Some "video") None
                   (Some packets) (Some bytes) (Some frames))])
       "VideoReceiverStats"
     = (kSuccess,
        [VideoReceiverObject
           (mrsVideoReceiverStats.mk timestamp_us packets bytes frames 0 None
              0 0)])
  /\ mrsStatsReportGetObjects (Some []) "AudioReceiverStats" = (kSuccess, [])
  /\ mrsStatsReportGetObjects (Some []) "VideoReceiverStats" = (kSuccess, []).
Proof. repeat split; reflexivity. Qed.

(** * Properties of the entry points *)

Section FacadeProperties.
Context `{Engine}.
Variable kOrdered kReliable : Z.

(** The entry points that take a native handle and return a result code:
    with a null handle (and the other parameters in order) they return
    invalid-native-handle and leave the engine alone. *)
Lemma null_handle_rejected (w : World) :
  (forall callbacks,
      mrsPeerConnectionRegisterInteropCallbacks None (Some callbacks) w
      = (kInvalidNativeHandle, w))
  /\ (forall source,
         mrsPeerConnectionRemoveLocalVideoTracksFromSource None source w
         = (kInvalidNativeHandle, w))
  /\ (forall track,
         mrsPeerConnectionRemoveLocalVideoTrack None track w
         = (kInvalidNativeHandle, w))
  /\ (forall channel,
         mrsPeerConnectionRemoveDataChannel None channel w
         = (kInvalidNativeHandle, w))
  /\ (forall enabled,
         mrsPeerConnectionSetLocalAudioTrackEnabled None enabled w
         = (kInvalidNativeHandle, w))
  /\ (forall data size,
         mrsDataChannelSendMessage None data size w = (kInvalidNativeHandle, w))
  /\ (forall sdp index mid,
         mrsPeerConnectionAddIceCandidate None sdp index mid w
         = (kInvalidNativeHandle, w))
  /\ mrsPeerConnectionCreateOffer None w = (kInvalidNativeHandle, w)
  /\ mrsPeerConnectionCreateAnswer None w = (kInvalidNativeHandle, w)
  /\ (forall min start max,
         mrsPeerConnectionSetBitrate None min start max w
         = (kInvalidNativeHandle, w))
  /\ (forall type sdp,
         mrsPeerConnectionSetRemoteDescription None type sdp w
         = (kInvalidNativeHandle, w))
  /\ mrsPeerConnectionClose None w = (kInvalidNativeHandle, w)
  /\ (forall callback,
         mrsPeerConnectionGetSimpleStats None callback w
         = (kInvalidNativeHandle, w))
  /\ mrsStatsReportRemoveRef None w = (kInvalidNativeHandle, w).
Proof. repeat split. Qed.

(** The entry points that also return a handle: with a null peer connection
    handle and the parameters in order they return invalid-native-handle,
    leave the engine alone and leave null in the output location. *)
Lemma null_handle_rejected_with_output (w : World) :
  (forall track_name config old,
      IsStringNullOrEmpty track_name = false ->
      mrsPeerConnectionAddLocalVideoTrack None track_name config
        (points_to old) w
      = Returns (kInvalidNativeHandle, points_to None, w))
  /\ (forall track_name source old,
         mrsPeerConnectionAddLocalVideoTrackFromExternalSource None track_name
           source (points_to old) w
         = (kInvalidNativeHandle, points_to None, w))
  /\ (forall interop config callbacks old,
         mrsPeerConnectionAddDataChannel kOrdered kReliable None (Some interop)
           config callbacks (points_to old) w
         = (kInvalidNativeHandle, points_to None, w)).
Proof.
  repeat split.
  intros track_name config old Hname.
  unfold mrsPeerConnectionAddLocalVideoTrack. now rewrite Hname.
Qed.

(** The entry points without a result code do nothing on a null handle. *)
Lemma null_handle_ignored (w : World) :
  (forall slot callback,
      mrsPeerConnectionRegisterCallback slot None callback w = w)
  /\ mrsPeerConnectionRemoveLocalAudioTrack None w = w.
Proof. repeat split. Qed.

(** C1 (the entry point that departs from it): with a null peer connection
    handle [mrsPeerConnectionAddLocalAudioTrack] leaves the engine alone, and
    the code it returns is unknown-error, not invalid-native-handle. *)
Theorem AddLocalAudioTrack_null_handle (w : World) :
  mrsPeerConnectionAddLocalAudioTrack None w = (kUnknownError, w).
Proof. reflexivity. Qed.

(** C10: with a null peer connection handle
    [mrsPeerConnectionIsLocalAudioTrackEnabled] returns [kFalse] and leaves
    the engine alone; [kFalse] is also what it returns for a peer connection
    whose track the engine reports as disabled. *)
Theorem IsLocalAudioTrackEnabled_null_handle (w : World) :
  mrsPeerConnectionIsLocalAudioTrackEnabled None w = (kFalse, w)
  /\ forall peer : PeerConnection,
       fst (mrsPeerConnectionIsLocalAudioTrackEnabled (Some peer) w)
       = if fst (PeerConnection_IsLocalAudioTrackEnabled peer w)
         then kTrue else kFalse.
Proof.
  split; [reflexivity|]. intros peer. cbn.
  now destruct (PeerConnection_IsLocalAudioTrackEnabled peer w) as [[|] w'].
Qed.

(** C9: a null label reaches the engine as the empty label.  The call with a
    null label is the call with the label "", and with the handles and the
    output location in order its result is the engine's result of adding a
    channel labelled "". *)
Theorem AddDataChannel_null_label
    (peerHandle : option PeerConnection)
    (dataChannelInteropHandle : option InteropObject) (id flags : Z)
    (callbacks : mrsDataChannelCallbacks)
    (dataChannelHandleOut : out_ptr DataChannel) (w : World) :
  mrsPeerConnectionAddDataChannel kOrdered kReliable peerHandle
    dataChannelInteropHandle (mrsDataChannelConfig.mk id None flags) callbacks
    dataChannelHandleOut w
  = mrsPeerConnectionAddDataChannel kOrdered kReliable peerHandle
      dataChannelInteropHandle (mrsDataChannelConfig.mk id (Some "") flags)
      callbacks dataChannelHandleOut w
  /\ forall (peer : PeerConnection) (interop : InteropObject)
            (old : option DataChannel),
      mrsPeerConnectionAddDataChannel kOrdered kReliable (Some peer)
        (Some interop) (mrsDataChannelConfig.mk id None flags) callbacks
        (points_to old) w
      = match PeerConnection_AddDataChannel peer id ""
                (negb (Z.land flags kOrdered =? 0))
                (negb (Z.land flags kReliable =? 0)) interop w with
        | (Value data_channel, w1) =>
            (kSuccess, points_to (Some data_channel),
             DataChannel_SetStateCallback data_channel (state_callback callbacks)
               (DataChannel_SetBufferingCallback data_channel
                  (buffering_callback callbacks)
                  (DataChannel_SetMessageCallback data_channel
                     (message_callback callbacks) w1)))
        | (Error code, w1) => (code, points_to None, w1)
        end.
Proof.
  split; [reflexivity|]. intros peer interop old. cbn.
  now destruct (PeerConnection_AddDataChannel peer id "" _ _ interop w)
    as [[data_channel | code] w1].
Qed.

(** C2, as the code has it: once the parameter checks at the top of a
    handle-returning entry point have passed (a location for the handle; a
    non-empty track name, or a non-null interop handle, where the entry point
    takes one), the location holds null whenever the code returned is not
    success; when one of those checks fails the entry point returns
    invalid-parameter and the location is as it was. *)
Theorem output_handle_null_after_validation :
  (forall config interop old w r out w',
      mrsPeerConnectionCreate config (Some interop) (points_to old) w
      = (r, out, w') ->
      r <> kSuccess -> out = points_to None)
  /\ (forall peer track_name config old w r out w',
         IsStringNullOrEmpty track_name = false ->
         mrsPeerConnectionAddLocalVideoTrack peer track_name config
           (points_to old) w = Returns (r, out, w') ->
         r <> kSuccess -> out = points_to None)
  /\ (forall peer track_name source old w r out w',
         mrsPeerConnectionAddLocalVideoTrackFromExternalSource peer track_name
           source (points_to old) w = (r, out, w') ->
         r <> kSuccess -> out = points_to None)
  /\ (forall peer interop config callbacks old w r out w',
         mrsPeerConnectionAddDataChannel kOrdered kReliable peer (Some interop)
           config callbacks (points_to old) w = (r, out, w') ->
         r <> kSuccess -> out = points_to None)
  /\ (forall config out w,
         mrsPeerConnectionCreate config None out w = (kInvalidParameter, out, w))
  /\ (forall peer track_name config out w,
         IsStringNullOrEmpty track_name = true ->
         mrsPeerConnectionAddLocalVideoTrack peer track_name config out w
         = Returns (kInvalidParameter, out, w))
  /\ (forall peer config callbacks out w,
         mrsPeerConnectionAddDataChannel kOrdered kReliable peer None config
           callbacks out w = (kInvalidParameter, out, w)).
Proof.
  repeat apply conj.
  - intros config interop old w r out w'. unfold mrsPeerConnectionCreate.
    destruct (PeerConnection_create config interop w) as [[peer | code] w1];
      intros [= <- <- <-]; congruence.
  - intros peer track_name config old w r out w' Hname.
    unfold mrsPeerConnectionAddLocalVideoTrack. rewrite Hname.
    destruct peer as [peer|]; [|intros [= <- <- <-]; congruence].
    destruct (GlobalFactory_GetExisting w) as [pc_factory|];
      [|intros [= <- <- <-]; congruence].
    destruct (BuiltinVideoCaptureDeviceTrackSource_Create config w)
      as [[[res video_source] w1] | |]; cbn; [|discriminate|discriminate].
    destruct res; try (intros [= <- <- <-]; congruence).
    destruct video_source as [video_source|];
      [|intros [= <- <- <-]; congruence].
    destruct (PcFactory_CreateVideoTrack _ _ _ w1) as [[video_track|] w2];
      [|intros [= <- <- <-]; congruence].
    destruct (PeerConnection_AddLocalVideoTrack peer video_track w2)
      as [[wrapper | code] w3]; intros [= <- <- <-]; congruence.
  - intros peer track_name source old w r out w'.
    unfold mrsPeerConnectionAddLocalVideoTrackFromExternalSource.
    destruct peer as [peer|]; [|intros [= <- <- <-]; congruence].
    destruct source as [source|]; [|intros [= <- <- <-]; congruence].
    destruct (GlobalFactory_GetExisting w) as [pc_factory|];
      [|intros [= <- <- <-]; congruence].
    destruct (PcFactory_CreateVideoTrack _ _ _ w) as [[video_track|] w2];
      [|intros [= <- <- <-]; congruence].
    destruct (PeerConnection_AddLocalVideoTrack peer video_track w2)
      as [[wrapper | code] w3]; intros [= <- <- <-]; congruence.
  - intros peer interop config callbacks old w r out w'.
    unfold mrsPeerConnectionAddDataChannel.
    destruct peer as [peer|]; [|intros [= <- <- <-]; congruence].
    destruct (PeerConnection_AddDataChannel _ _ _ _ _ _ w)
      as [[channel | code] w1]; intros [= <- <- <-]; congruence.
  - intros config [|old] w; reflexivity.
  - intros peer track_name config out w Hname.
    unfold mrsPeerConnectionAddLocalVideoTrack. now rewrite Hname.
  - intros peer config callbacks [|old] w; reflexivity.
Qed.

End FacadeProperties.

Lemma output_handle_null_after_validation_witness :
  (exists r out w',
      @mrsPeerConnectionCreate counting_engine false (Some 1%nat)
        (points_to (Some 5%nat)) 0%nat = (r, out, w')
      /\ r <> kSuccess /\ out = points_to None)
  /\ (exists r out w',
         IsStringNullOrEmpty (Some "webcam") = false
         /\ @mrsPeerConnectionAddLocalVideoTrack counting_engine None
              (Some "webcam")
              (VideoDeviceConfiguration.mk None 0 0 double_zero)
              (points_to (Some 5%nat)) 0%nat = Returns (r, out, w')
         /\ r <> kSuccess /\ out = points_to None)
  /\ (exists r out w',
         @mrsPeerConnectionAddLocalVideoTrackFromExternalSource counting_engine
           (Some 1%nat) None None (points_to (Some 5%nat)) 0%nat = (r, out, w')
         /\ r <> kSuccess /\ out = points_to None)
  /\ (exists r out w',
         @mrsPeerConnectionAddDataChannel counting_engine 1 2 (Some 1%nat)
           (Some 3%nat) (mrsDataChannelConfig.mk (-1) (Some "chat") 3)
           (@Build_mrsDataChannelCallbacks counting_engine 0%nat 0%nat 0%nat)
           (points_to (Some 5%nat)) 0%nat = (r, out, w')
         /\ r <> kSuccess /\ out = points_to None).
Proof.
  pose proof (@output_handle_null_after_validation counting_engine 1 2)
    as (Hcreate & Hvideo & Hexternal & Hchannel & _).
  repeat apply conj.
  - eexists _, _, _. split; [reflexivity|].
    split; [discriminate|].
    eapply (Hcreate false 1%nat (Some 5%nat) 0%nat);
      [reflexivity | discriminate].
  - eexists _, _, _. split; [reflexivity|]. split; [reflexivity|].
    split; [discriminate|].
    eapply (Hvideo None (Some "webcam")
              (VideoDeviceConfiguration.mk None 0 0 double_zero)
              (Some 5%nat) 0%nat);
      [reflexivity | reflexivity | discriminate].
  - eexists _, _, _. split; [reflexivity|].
    split; [discriminate|].
    eapply (Hexternal (Some 1%nat) None None (Some 5%nat) 0%nat);
      [reflexivity | discriminate].
  - eexists _, _, _. split; [reflexivity|].
    split; [discriminate|].
    eapply (Hchannel (Some 1%nat) 3%nat
              (mrsDataChannelConfig.mk (-1) (Some "chat") 3)
              (@Build_mrsDataChannelCallbacks counting_engine 0%nat 0%nat 0%nat)
              (Some 5%nat) 0%nat);
      [reflexivity | discriminate].
Defined.

(** C2 as stated fails: an empty track name makes
    [mrsPeerConnectionAddLocalVideoTrack] return invalid-parameter before the
    location is written, and a null interop handle does the same to
    [mrsPeerConnectionAddDataChannel]; the location keeps the handle it
    held. *)
Lemma output_handle_stale_on_invalid_parameter :
  (exists r out w',
      @mrsPeerConnectionAddLocalVideoTrack counting_engine (Some 1%nat)
        (Some "") (VideoDeviceConfiguration.mk None 0 0 double_zero)
        (points_to (Some 5%nat)) 0%nat = Returns (r, out, w')
      /\ r <> kSuccess /\ out = points_to (Some 5%nat)
      /\ out <> points_to None)
  /\ (exists r out w',
         @mrsPeerConnectionAddDataChannel counting_engine 1 2 (Some 1%nat) None
           (mrsDataChannelConfig.mk 4 (Some "chat") 3)
           (@Build_mrsDataChannelCallbacks counting_engine 0%nat 0%nat 0%nat)
           (points_to (Some 5%nat)) 0%nat = (r, out, w')
         /\ r <> kSuccess /\ out = points_to (Some 5%nat)
         /\ out <> points_to None).
Proof.
  split; eexists _, _, _; (split; [reflexivity|]);
    (split; [discriminate|]); (split; [reflexivity|discriminate]).
Qed.

(** * Properties of the capture device selection *)

(** What [capability_matches] decides, when the conversion of the frame rate
    is defined. *)
Lemma capability_matches_spec (config : VideoDeviceConfiguration.t)
    (capability : VideoCaptureCapability.t) (config_fps : Z) :
  double_to_int
    (double_add (VideoDeviceConfiguration.framerate config) double_half)
  = Some config_fps ->
  capability_matches config capability = Returns true <->
  (0 < VideoDeviceConfiguration.width config ->
   VideoCaptureCapability.width capability
   = to_int32 (VideoDeviceConfiguration.width config))
  /\ (0 < VideoDeviceConfiguration.height config ->
      VideoCaptureCapability.height capability
      = to_int32 (VideoDeviceConfiguration.height config))
  /\ (double_ltb double_zero (VideoDeviceConfiguration.framerate config) = true ->
      VideoCaptureCapability.maxFPS capability = config_fps).
Proof.
  intros Hfps. unfold capability_matches. rewrite Hfps.
  destruct (Z.ltb_spec 0 (VideoDeviceConfiguration.width config)) as [Hw|Hw];
  destruct (Z.eqb_spec (VideoCaptureCapability.width capability)
              (to_int32 (VideoDeviceConfiguration.width config))) as [Ew|Ew];
  destruct (Z.ltb_spec 0 (VideoDeviceConfiguration.height config)) as [Hh|Hh];
  destruct (Z.eqb_spec (VideoCaptureCapability.height capability)
              (to_int32 (VideoDeviceConfiguration.height config))) as [Eh|Eh];
  destruct (double_ltb double_zero (VideoDeviceConfiguration.framerate config));
  destruct (Z.eqb_spec (VideoCaptureCapability.maxFPS capability) config_fps)
    as [Ef|Ef];
  cbn; split; try discriminate; try (intros _; repeat split; intros; (assumption || lia || discriminate));
  intros (Hcw & Hch & Hcf);
  try (exfalso; (apply Ew; apply Hcw; assumption)
                || (apply Eh; apply Hch; assumption)
                || (apply Ef; apply Hcf; reflexivity));
  reflexivity.
Qed.

(** C7: a device that lists 320x240@30, 640x480@30 and 640x480@60, asked for
    width 640, height 480 and frame rate 30, is opened at its second
    capability, and 640x480@30 is the capability selected when it opens.  A
    capability passes when every requested field that is greater than zero
    equals the capability's, the frame rate after the conversion
    [static_cast<int>(framerate + 0.5)], which takes 29.97, 29.5 and 30 to 30
    and 29.4 to 29. *)
Theorem capability_640x480_30_selected :
  (forall (E : Engine) (info : DeviceInfo.t) (device_id_utf8 : string)
          (video_device_id : option string)
          (type0 type1 type2 : VideoType) (lace0 lace1 lace2 : bool) (w : World),
      DeviceInfo.NumberOfCapabilities info device_id_utf8 = 3 ->
      DeviceInfo.GetCapability info device_id_utf8 0
      = Some (VideoCaptureCapability.mk 320 240 30 type0 lace0) ->
      DeviceInfo.GetCapability info device_id_utf8 1
      = Some (VideoCaptureCapability.mk 640 480 30 type1 lace1) ->
      DeviceInfo.GetCapability info device_id_utf8 2
      = Some (VideoCaptureCapability.mk 640 480 60 type2 lace2) ->
      select_device info
        (VideoDeviceConfiguration.mk video_device_id 640 480 (double_of_Z 30))
        [device_id_utf8] w
      = match VideoCaptureFactory_Create device_id_utf8 w with
        | (Some vcm, w') =>
            Returns (Some vcm, VideoCaptureCapability.mk 640 480 30 type1 lace1, w')
        | (None, w') =>
            Returns (None, VideoCaptureCapability.mk 640 480 60 type2 lace2, w')
        end)
  /\ (forall (config : VideoDeviceConfiguration.t)
             (capability : VideoCaptureCapability.t) (config_fps : Z),
         double_to_int
           (double_add (VideoDeviceConfiguration.framerate config) double_half)
         = Some config_fps ->
         capability_matches config capability = Returns true <->
         (0 < VideoDeviceConfiguration.width config ->
          VideoCaptureCapability.width capability
          = to_int32 (VideoDeviceConfiguration.width config))
         /\ (0 < VideoDeviceConfiguration.height config ->
             VideoCaptureCapability.height capability
             = to_int32 (VideoDeviceConfiguration.height config))
         /\ (double_ltb double_zero (VideoDeviceConfiguration.framerate config)
             = true ->
             VideoCaptureCapability.maxFPS capability = config_fps))
  /\ double_to_int (double_add (double_of_Z 30) double_half) = Some 30
  /\ double_to_int
       (double_add (double_div (double_of_Z 2997) (double_of_Z 100)) double_half)
     = Some 30
  /\ double_to_int
       (double_add (double_div (double_of_Z 295) (double_of_Z 10)) double_half)
     = Some 30
  /\ double_to_int
       (double_add (double_div (double_of_Z 294) (double_of_Z 10)) double_half)
     = Some 29.
Proof.
  split; [|split; [exact capability_matches_spec | repeat split; reflexivity]].
  intros E info device_id_utf8 video_device_id type0 type1 type2
    lace0 lace1 lace2 w Hcount Hcap0 Hcap1 Hcap2.
  unfold select_device.
  change (_ || _ || _) with true. cbn iota.
  cbn [device_loop]. rewrite Hcount.
  change (counter_range 3) with [0; 1; 2].
  cbn [capability_loop]. rewrite Hcap0, Hcap1.
  change (capability_matches _ (VideoCaptureCapability.mk 320 240 30 type0 lace0))
    with (@Returns bool false).
  change (capability_matches _ (VideoCaptureCapability.mk 640 480 30 type1 lace1))
    with (@Returns bool true).
  cbn [outcome_bind].
  destruct (VideoCaptureFactory_Create device_id_utf8 w) as [[vcm|] w'].
  - reflexivity.
  - rewrite Hcap2.
    change (capability_matches _ (VideoCaptureCapability.mk 640 480 60 type2 lace2))
      with (@Returns bool false).
    reflexivity.
Qed.

Lemma capability_640x480_30_selected_witness :
  let info := one_camera
    [VideoCaptureCapability.mk 320 240 30 kI420 false;
     VideoCaptureCapability.mk 640 480 30 kYUY2 false;
     VideoCaptureCapability.mk 640 480 60 kMJPEG false] in
  let config := VideoDeviceConfiguration.mk None 640 480 (double_of_Z 30) in
  (DeviceInfo.NumberOfCapabilities info "cam0" = 3
   /\ DeviceInfo.GetCapability info "cam0" 0
      = Some (VideoCaptureCapability.mk 320 240 30 kI420 false)
   /\ DeviceInfo.GetCapability info "cam0" 1
      = Some (VideoCaptureCapability.mk 640 480 30 kYUY2 false)
   /\ DeviceInfo.GetCapability info "cam0" 2
      = Some (VideoCaptureCapability.mk 640 480 60 kMJPEG false))
  /\ @select_device counting_engine info config ["cam0"] 0%nat
     = Returns (Some "cam0", VideoCaptureCapability.mk 640 480 30 kYUY2 false,
                1%nat)
  /\ double_to_int
       (double_add (VideoDeviceConfiguration.framerate config) double_half)
     = Some 30
  /\ capability_matches config (VideoCaptureCapability.mk 640 480 30 kYUY2 false)
     = Returns true.
Proof.
  intros info config.
  destruct capability_640x480_30_selected as (Hselect & Hmatch & _).
  split; [repeat split|].
  split.
  - exact (Hselect counting_engine info "cam0" None kI420 kYUY2 kMJPEG
             false false false 0%nat eq_refl eq_refl eq_refl eq_refl).
  - split; [reflexivity|].
    apply (Hmatch config (VideoCaptureCapability.mk 640 480 30 kYUY2 false) 30
             eq_refl).
    repeat split; reflexivity.
Defined.

(** * Properties of mrsSdpForceCodecs *)

Lemma length_list_ascii_of_string (s : string) :
  length (list_ascii_of_string s) = String.length s.
Proof. induction s as [|c s IH]; cbn; [reflexivity | now rewrite IH]. Qed.

(** Writing a string and its terminator at the start of an array that is long
    enough. *)
Lemma store_terminated_string (buffer : list ascii) (s : string) :
  (String.length s + 1 <= length buffer)%nat ->
  outcome_bind (store_chars buffer 0 (list_ascii_of_string s))
    (fun buffer => store_chars buffer (String.length s) [zero])
  = Returns (list_ascii_of_string s ++ [zero]
             ++ drop (String.length s + 1) buffer).
Proof.
  intros Hfits. unfold store_chars.
  rewrite length_list_ascii_of_string. cbn [Nat.add].
  destruct (Nat.leb_spec (String.length s) (length buffer)) as [_|]; [|lia].
  cbn [outcome_bind take]. rewrite app_nil_l.
  rewrite length_app, length_drop, length_list_ascii_of_string.
  cbn [length].
  destruct (Nat.leb_spec (String.length s + 1)
              (String.length s + (length buffer - String.length s)))
    as [_|]; [|lia].
  rewrite take_app_length' by (now rewrite length_list_ascii_of_string).
  rewrite drop_app_ge by (rewrite length_list_ascii_of_string; lia).
  rewrite length_list_ascii_of_string, drop_drop.
  replace (String.length s + 1 - String.length s)%nat with 1%nat by lia.
  reflexivity.
Qed.

Section SdpProperties.
Variable SdpParseCodecParameters :
  string -> gmap string string -> gmap string string.
Variable SdpForceCodecs :
  string -> string -> gmap string string -> string -> gmap string string ->
  string.

(** C5: with the three pointers non-null, a declared capacity below the
    length of the filtered message plus one makes [mrsSdpForceCodecs] return
    invalid-parameter with the buffer as it was; a capacity of at least that
    much, which the buffer really has, makes it return success with the
    message and its terminating null at the start of the buffer; both store
    the length plus one in the size. *)
Theorem mrsSdpForceCodecs_reports_required_size
    (message_str : string) (audio_filter video_filter : SdpFilter.t)
    (buffer : list ascii) (capacity : Z) :
  let out_message :=
    filtered_message SdpParseCodecParameters SdpForceCodecs message_str
      audio_filter video_filter in
  let required := Z.of_nat (String.length out_message) + 1 in
  0 <= capacity < 2 ^ 64 ->
  required < 2 ^ 64 ->
  (capacity < required ->
   mrsSdpForceCodecs SdpParseCodecParameters SdpForceCodecs (Some message_str)
     audio_filter video_filter (Some buffer) (Some capacity)
   = Returns (kInvalidParameter, buffer, required))
  /\ (required <= capacity ->
      capacity <= Z.of_nat (length buffer) ->
      mrsSdpForceCodecs SdpParseCodecParameters SdpForceCodecs (Some message_str)
        audio_filter video_filter (Some buffer) (Some capacity)
      = Returns (kSuccess,
                 list_ascii_of_string out_message ++ [zero]
                 ++ drop (String.length out_message + 1) buffer,
                 required)).
Proof.
  intros out_message required Hcapacity Hrequired.
  unfold mrsSdpForceCodecs. cbn [RTC_CHECK_ptr outcome_bind].
  fold out_message. fold required.
  assert (Hsize : to_size_t required = required).
  { unfold to_size_t. apply Z.mod_small. unfold required in *. lia. }
  assert (Hcap : to_size_t capacity = capacity).
  { unfold to_size_t. apply Z.mod_small. lia. }
  rewrite Hsize, Hcap.
  replace (to_uint64 required) with required
    by (unfold to_uint64; symmetry; apply Z.mod_small; unfold required in *; lia).
  split.
  - intros Hsmall.
    destruct (Z.ltb_spec capacity required) as [_|]; [reflexivity | lia].
  - intros Henough Hreal.
    destruct (Z.ltb_spec capacity required) as [|_]; [lia|].
    pose proof (store_terminated_string buffer out_message) as Hstore.
    unfold outcome_bind in Hstore |- *.
    destruct (store_chars buffer 0 (list_ascii_of_string out_message)).
    + rewrite Hstore by (unfold required in *; lia). reflexivity.
    + discriminate Hstore. unfold required in *; lia.
    + discriminate Hstore. unfold required in *; lia.
Qed.

(** A null pointer stops the process before anything is written. *)
Lemma mrsSdpForceCodecs_null_pointer message audio_filter video_filter
    buffer buffer_size :
  message = None \/ buffer = None \/ buffer_size = None ->
  mrsSdpForceCodecs SdpParseCodecParameters SdpForceCodecs message
    audio_filter video_filter buffer buffer_size = Aborts.
Proof.
  unfold mrsSdpForceCodecs.
  destruct message, buffer, buffer_size; cbn; intuition congruence.
Qed.

End SdpProperties.

(** * Properties of mrsMemCpyStride *)

Lemma allocated_lookup (m : memory) (p n a : Z) :
  allocated m p n = true -> p <= a < p + n -> is_Some (m !! a).
Proof.
  unfold allocated. rewrite forallb_forall. intros Hall Hrange.
  specialize (Hall a). rewrite <- list_elem_of_In, elem_of_seqZ in Hall.
  specialize (Hall Hrange). destruct (m !! a); [eauto | discriminate].
Qed.

Lemma allocated_intro (m : memory) (p n : Z) :
  (forall a, p <= a < p + n -> is_Some (m !! a)) -> allocated m p n = true.
Proof.
  intros Hall. unfold allocated. apply forallb_forall. intros a Hin.
  rewrite <- list_elem_of_In, elem_of_seqZ in Hin.
  destruct (Hall a Hin) as [b ->]. reflexivity.
Qed.

Lemma load_bytes_lookup (m : memory) (n : nat) :
  forall (p : Z) (bs : list byte),
    load_bytes m p n = Some bs ->
    length bs = n
    /\ forall i : nat, (i < n)%nat -> bs !! i = m !! (p + Z.of_nat i).
Proof.
  induction n as [|n IH]; intros p bs; cbn.
  - intros [= <-]. split; [reflexivity | intros; lia].
  - destruct (m !! p) as [b|] eqn:Hb; [|discriminate].
    destruct (load_bytes m (p + 1) n) as [bs'|] eqn:Hload; [|discriminate].
    intros [= <-]. destruct (IH _ _ Hload) as [Hlen Hget].
    split; [cbn; now rewrite Hlen|].
    intros [|i] Hi; cbn.
    + now rewrite Z.add_0_r.
    + rewrite Hget by lia. f_equal. lia.
Qed.

Lemma load_bytes_is_Some (m : memory) (n : nat) :
  forall p : Z,
    (forall a, p <= a < p + Z.of_nat n -> is_Some (m !! a)) ->
    is_Some (load_bytes m p n).
Proof.
  induction n as [|n IH]; intros p Hall; cbn.
  - eauto.
  - destruct (Hall p ltac:(lia)) as [b ->].
    destruct (IH (p + 1)) as [bs ->]; [intros a Ha; apply Hall; lia | eauto].
Qed.

Lemma store_bytes_lookup (bs : list byte) :
  forall (m : memory) (p : Z) (m' : memory),
    store_bytes m p bs = Some m' ->
    forall a : Z,
      m' !! a = if decide (p <= a < p + Z.of_nat (length bs))
                then bs !! Z.to_nat (a - p) else m !! a.
Proof.
  induction bs as [|b bs IH]; intros m p m'; cbn [store_bytes length].
  - intros [= <-] a. destruct (decide _); [lia | reflexivity].
  - destruct (m !! p) as [old|] eqn:Hold; [|discriminate].
    intros Hstore a. rewrite (IH _ _ _ Hstore a).
    destruct (decide (p + 1 <= a < p + 1 + Z.of_nat (length bs))) as [Hin|Hout].
    + destruct (decide _) as [_|]; [|lia].
      replace (Z.to_nat (a - p)) with (S (Z.to_nat (a - (p + 1)))) by lia.
      reflexivity.
    + destruct (decide (a = p)) as [->|Hne].
      * rewrite lookup_insert_eq. destruct (decide _) as [_|]; [|lia].
        now rewrite Z.sub_diag.
      * rewrite lookup_insert_ne by congruence.
        destruct (decide _); [lia | reflexivity].
Qed.

Lemma store_bytes_is_Some (bs : list byte) :
  forall (m : memory) (p : Z),
    (forall a, p <= a < p + Z.of_nat (length bs) -> is_Some (m !! a)) ->
    is_Some (store_bytes m p bs).
Proof.
  induction bs as [|b bs IH]; intros m p Hall; cbn [store_bytes length] in *.
  - eauto.
  - destruct (Hall p ltac:(lia)) as [old ->].
    apply IH. intros a Ha.
    destruct (decide (a = p)) as [->|Hne].
    + rewrite lookup_insert_eq. eauto.
    + rewrite lookup_insert_ne by congruence. apply Hall. lia.
Qed.

(** [memcpy] on allocated ranges that do not overlap. *)
Lemma memcpy_copied (m : memory) (dst src n : Z) :
  0 <= n ->
  allocated m src n = true -> allocated m dst n = true ->
  ranges_overlap dst src n = false ->
  exists m' : memory, memcpy m dst src n = Returns m' /\ copied m m' dst src n.
Proof.
  intros Hn Hsrc Hdst Hdisjoint. unfold memcpy. rewrite Hdisjoint.
  destruct (load_bytes_is_Some m (Z.to_nat n) src) as [bs Hload].
  { intros a Ha. apply (allocated_lookup m src n); [assumption | lia]. }
  rewrite Hload. destruct (load_bytes_lookup _ _ _ _ Hload) as [Hlen Hget].
  destruct (store_bytes_is_Some bs m dst) as [m' Hstore].
  { intros a Ha. apply (allocated_lookup m dst n); [assumption | lia]. }
  rewrite Hstore. exists m'. split; [reflexivity|].
  intros a. rewrite (store_bytes_lookup _ _ _ _ Hstore a), Hlen.
  rewrite Z2Nat.id by assumption.
  destruct (decide _) as [Hin|]; [|reflexivity].
  rewrite Hget by lia. f_equal. lia.
Qed.

(** A copy keeps the allocated addresses allocated. *)
Lemma copied_allocated (m m' : memory) (dst src n p k : Z) :
  copied m m' dst src n -> allocated m src n = true ->
  allocated m p k = true -> allocated m' p k = true.
Proof.
  intros Hcopied Hsrc Hp. apply allocated_intro. intros a Ha.
  rewrite (Hcopied a). destruct (decide _) as [Hin|].
  - apply (allocated_lookup m src n); [assumption | lia].
  - apply (allocated_lookup m p k); assumption.
Qed.

Lemma allocated_sub (m : memory) (p n q k : Z) :
  allocated m p n = true -> p <= q -> q + k <= p + n ->
  allocated m q k = true.
Proof.
  intros Hp Hlo Hhi. apply allocated_intro. intros a Ha.
  apply (allocated_lookup m p n); [assumption | lia].
Qed.

Lemma ranges_overlap_false (p q n : Z) :
  ranges_overlap p q n = false <-> n <= 0 \/ q + n <= p \/ p + n <= q.
Proof. unfold ranges_overlap. rewrite !andb_false_iff, !Z.ltb_ge. tauto. Qed.

(** The row by row loop with both strides equal to the element size. *)
Lemma copy_rows_copied (elem_size : Z) (rows : nat) :
  0 <= elem_size < 2 ^ 31 ->
  forall (m : memory) (dst src : Z),
    allocated m src (elem_size * Z.of_nat rows) = true ->
    allocated m dst (elem_size * Z.of_nat rows) = true ->
    ranges_overlap dst src (elem_size * Z.of_nat rows) = false ->
    exists m' : memory,
      copy_rows m dst elem_size src elem_size elem_size rows = Returns m'
      /\ copied m m' dst src (elem_size * Z.of_nat rows).
Proof.
  intros Hsize. induction rows as [|rows IH]; intros m dst src Hsrc Hdst Hdisjoint.
  - exists m. split; [reflexivity|]. intros a.
    destruct (decide _); [lia | reflexivity].
  - cbn [copy_rows].
    assert (Hrow : to_size_t elem_size = elem_size)
      by (unfold to_size_t; apply Z.mod_small; lia).
    rewrite Hrow.
    apply ranges_overlap_false in Hdisjoint.
    destruct (memcpy_copied m dst src elem_size) as (m1 & -> & Hfirst).
    + lia.
    + apply (allocated_sub m src (elem_size * Z.of_nat (S rows))); [assumption|lia|nia].
    + apply (allocated_sub m dst (elem_size * Z.of_nat (S rows))); [assumption|lia|nia].
    + apply ranges_overlap_false. nia.
    + cbn [outcome_bind].
      assert (Hsrc1 : allocated m src elem_size = true)
        by (apply (allocated_sub m src (elem_size * Z.of_nat (S rows))); [assumption|lia|nia]).
      destruct (IH m1 (dst + elem_size) (src + elem_size)) as (m' & -> & Hrest).
      * apply (copied_allocated m m1 dst src elem_size); [assumption..|].
        apply (allocated_sub m src (elem_size * Z.of_nat (S rows))); [assumption|lia|nia].
      * apply (copied_allocated m m1 dst src elem_size); [assumption..|].
        apply (allocated_sub m dst (elem_size * Z.of_nat (S rows))); [assumption|lia|nia].
      * apply ranges_overlap_false. nia.
      * exists m'. split; [reflexivity|]. intros a.
        rewrite (Hrest a).
        destruct (decide (dst + elem_size <= a
                          < dst + elem_size + elem_size * Z.of_nat rows)) as [Hin|Hout].
        -- destruct (decide _) as [_|]; [|nia].
           rewrite (Hfirst _). destruct (decide _) as [Hclash|_]; [nia|].
           f_equal. lia.
        -- rewrite (Hfirst a).
           destruct (decide (dst <= a < dst + elem_size)) as [Hhead|Hnot].
           ++ destruct (decide _) as [_|]; [reflexivity | nia].
           ++ destruct (decide _) as [|_]; [nia | reflexivity].
Qed.

(** Two copies of the same bytes are the same memory. *)
Lemma copied_unique (m m1 m2 : memory) (dst src n : Z) :
  copied m m1 dst src n -> copied m m2 dst src n -> m1 = m2.
Proof. intros H1 H2. apply map_eq. intros a. now rewrite (H1 a), (H2 a). Qed.

(** The converse for [load_bytes] and [store_bytes]: they succeed on
    allocated ranges only. *)
Lemma load_bytes_allocated (m : memory) (p : Z) (n : nat) (bs : list byte) :
  load_bytes m p n = Some bs -> allocated m p (Z.of_nat n) = true.
Proof.
  intros Hload. destruct (load_bytes_lookup _ _ _ _ Hload) as [Hlen Hget].
  apply allocated_intro. intros a Ha.
  replace a with (p + Z.of_nat (Z.to_nat (a - p))) by lia.
  rewrite <- Hget by lia. apply lookup_lt_is_Some. lia.
Qed.

Lemma store_bytes_allocated (bs : list byte) :
  forall (m : memory) (p : Z) (m' : memory),
    store_bytes m p bs = Some m' ->
    allocated m p (Z.of_nat (length bs)) = true.
Proof.
  induction bs as [|b bs IH]; intros m p m'; cbn [store_bytes length].
  - intros _. reflexivity.
  - destruct (m !! p) as [old|] eqn:Hold; [|discriminate].
    intros Hstore. specialize (IH _ _ _ Hstore).
    apply allocated_intro. intros a Ha.
    destruct (decide (a = p)) as [->|Hne]; [rewrite Hold; eauto|].
    rewrite <- (lookup_insert_ne m p a b) by congruence.
    apply (allocated_lookup _ (p + 1) (Z.of_nat (length bs))); [assumption|lia].
Qed.

(** [memcpy] into or out of a range that is not allocated. *)
Lemma memcpy_undefined (m : memory) (dst src n : Z) :
  0 <= n ->
  allocated m src n && allocated m dst n = false ->
  memcpy m dst src n = Undefined.
Proof.
  intros Hn Hnot. unfold memcpy.
  destruct (ranges_overlap dst src n); [reflexivity|].
  destruct (load_bytes m src (Z.to_nat n)) as [bs|] eqn:Hload; [|reflexivity].
  destruct (store_bytes m dst bs) as [m'|] eqn:Hstore; [|reflexivity].
  apply load_bytes_allocated in Hload as Hsrc.
  destruct (load_bytes_lookup _ _ _ _ Hload) as [Hlen _].
  apply store_bytes_allocated in Hstore as Hdst.
  rewrite Hlen in Hdst. rewrite Z2Nat.id in Hsrc, Hdst by assumption.
  rewrite Hsrc, Hdst in Hnot. discriminate.
Qed.

Lemma allocated_split (m : memory) (p a b : Z) :
  0 <= a -> 0 <= b ->
  allocated m p (a + b) = allocated m p a && allocated m (p + a) b.
Proof.
  intros Ha Hb. apply eq_true_iff_eq. rewrite andb_true_iff. split.
  - intros Hall. split; apply (allocated_sub m p (a + b)); (assumption || lia).
  - intros [Hlow Hhigh]. apply allocated_intro. intros x Hx.
    destruct (decide (x < p + a)).
    + apply (allocated_lookup m p a); [assumption|lia].
    + apply (allocated_lookup m (p + a) b); [assumption|lia].
Qed.

(** A copy between allocated ranges neither allocates nor frees. *)
Lemma copied_allocated_eq (m m' : memory) (dst src n p k : Z) :
  copied m m' dst src n ->
  allocated m src n = true -> allocated m dst n = true ->
  allocated m' p k = allocated m p k.
Proof.
  intros Hcopied Hsrc Hdst. apply eq_true_iff_eq. split.
  - intros Hp. apply allocated_intro. intros a Ha.
    pose proof (allocated_lookup m' p k a Hp Ha) as Hsome.
    rewrite (Hcopied a) in Hsome. destruct (decide _) as [Hin|]; [|assumption].
    apply (allocated_lookup m dst n); assumption.
  - apply (copied_allocated m m' dst src n); assumption.
Qed.

(** The row by row loop into or out of a range that is not allocated. *)
Lemma copy_rows_undefined (elem_size : Z) (rows : nat) :
  0 <= elem_size < 2 ^ 31 ->
  forall (m : memory) (dst src : Z),
    allocated m src (elem_size * Z.of_nat rows)
    && allocated m dst (elem_size * Z.of_nat rows) = false ->
    copy_rows m dst elem_size src elem_size elem_size rows = Undefined.
Proof.
  intros Hsize. induction rows as [|rows IH]; intros m dst src Hnot.
  - rewrite Z.mul_0_r in Hnot. discriminate Hnot.
  - cbn [copy_rows].
    assert (Hrow : to_size_t elem_size = elem_size)
      by (unfold to_size_t; apply Z.mod_small; lia).
    rewrite Hrow.
    replace (elem_size * Z.of_nat (S rows))
      with (elem_size + elem_size * Z.of_nat rows) in Hnot by lia.
    rewrite !allocated_split in Hnot by nia.
    destruct (allocated m src elem_size) eqn:Hsrc1;
      [|rewrite memcpy_undefined by (rewrite ?Hsrc1; (lia || reflexivity));
        reflexivity].
    destruct (allocated m dst elem_size) eqn:Hdst1;
      [|rewrite memcpy_undefined
          by (rewrite ?Hsrc1, ?Hdst1; (lia || reflexivity));
        reflexivity].
    destruct (ranges_overlap dst src elem_size) eqn:Hoverlap.
    + unfold memcpy. rewrite Hoverlap. reflexivity.
    + destruct (memcpy_copied m dst src elem_size) as (m1 & -> & Hcopied);
        [lia | assumption.. |].
      cbn [outcome_bind]. apply IH.
      rewrite !(copied_allocated_eq m m1 dst src elem_size) by assumption.
      cbn in Hnot. exact Hnot.
Qed.

(** C8: for an element size S and a count N (both non-negative [int32_t]) and
    source and destination ranges of S*N bytes that do not overlap,
    [mrsMemCpyStride] with both strides equal to S (the single [memcpy] of
    S*N bytes) has the outcome of the row by row loop over N rows of S bytes
    with stride S; when both ranges are allocated that outcome is the memory
    with the S*N bytes of the source copied to the destination. *)
Theorem mrsMemCpyStride_tight_equals_rows
    (m : memory) (dst src elem_size elem_count : Z) :
  0 <= elem_size < 2 ^ 31 ->
  0 <= elem_count < 2 ^ 31 ->
  dst <> 0 -> src <> 0 ->
  ranges_overlap dst src (elem_size * elem_count) = false ->
  mrsMemCpyStride m dst elem_size src elem_size elem_size elem_count
  = copy_rows m dst elem_size src elem_size elem_size (Z.to_nat elem_count)
  /\ (allocated m src (elem_size * elem_count) = true ->
      allocated m dst (elem_size * elem_count) = true ->
      exists m' : memory,
        mrsMemCpyStride m dst elem_size src elem_size elem_size elem_count
        = Returns m'
        /\ copied m m' dst src (elem_size * elem_count)).
Proof.
  intros Hsize Hcount Hdst Hsrc Hdisjoint.
  assert (Htight :
    mrsMemCpyStride m dst elem_size src elem_size elem_size elem_count
    = memcpy m dst src (elem_size * elem_count)).
  { unfold mrsMemCpyStride.
    destruct (Z.eqb_spec dst 0) as [|_]; [contradiction|].
    destruct (Z.eqb_spec src 0) as [|_]; [contradiction|].
    rewrite Z.leb_refl, Z.eqb_refl. cbn.
    f_equal. unfold to_size_t.
    rewrite (Z.mod_small elem_size), (Z.mod_small elem_count) by lia.
    apply Z.mod_small. nia. }
  rewrite Htight.
  destruct (allocated m src (elem_size * elem_count)
            && allocated m dst (elem_size * elem_count)) eqn:Halloc.
  - apply andb_prop in Halloc as [Hasrc Hadst].
    destruct (memcpy_copied m dst src (elem_size * elem_count))
      as (m1 & Hlinear & Hcopied1); try assumption; [nia|].
    destruct (copy_rows_copied elem_size (Z.to_nat elem_count) Hsize m dst src)
      as (m2 & Hrows & Hcopied2); rewrite ?Z2Nat.id by lia; try assumption.
    rewrite Z2Nat.id in Hcopied2 by lia.
    split.
    + rewrite Hlinear, Hrows. f_equal.
      exact (copied_unique m m1 m2 dst src _ Hcopied1 Hcopied2).
    + intros _ _. exists m1. split; assumption.
  - split.
    + rewrite memcpy_undefined by (assumption || nia).
      rewrite copy_rows_undefined; [reflexivity | assumption |].
      rewrite Z2Nat.id by lia. assumption.
    + intros Hasrc Hadst. rewrite Hasrc, Hadst in Halloc. discriminate.
Qed.

Lemma mrsMemCpyStride_tight_equals_rows_witness :
  let m : memory :=
    list_to_map
      [(100, Byte.x01); (101, Byte.x02); (102, Byte.x03); (103, Byte.x04);
       (200, Byte.x00); (201, Byte.x00); (202, Byte.x00); (203, Byte.x00)] in
  ((0 <= 2 < 2 ^ 31) /\ (0 <= 2 < 2 ^ 31) /\ 200 <> 0 /\ 100 <> 0
   /\ ranges_overlap 200 100 (2 * 2) = false
   /\ allocated m 100 (2 * 2) = true
   /\ allocated m 200 (2 * 2) = true)
  /\ mrsMemCpyStride m 200 2 100 2 2 2
     = copy_rows m 200 2 100 2 2 (Z.to_nat 2)
  /\ exists m' : memory,
      mrsMemCpyStride m 200 2 100 2 2 2 = Returns m'
      /\ copied m m' 200 100 (2 * 2).
Proof.
  intros m.
  assert (Hsize : 0 <= 2 < 2 ^ 31) by lia.
  assert (Hdst : 200 <> 0) by lia.
  assert (Hsrc : 100 <> 0) by lia.
  assert (Hasrc : allocated m 100 (2 * 2) = true) by (vm_compute; reflexivity).
  assert (Hadst : allocated m 200 (2 * 2) = true) by (vm_compute; reflexivity).
  assert (Hdisjoint : ranges_overlap 200 100 (2 * 2) = false) by reflexivity.
  split; [repeat (split; [assumption|]); assumption|].
  destruct (mrsMemCpyStride_tight_equals_rows m 200 100 2 2
              Hsize Hsize Hdst Hsrc Hdisjoint) as [Hsame Hcopied].
  split; [exact Hsame | exact (Hcopied Hasrc Hadst)].
Defined.

Lemma mrsSdpForceCodecs_reports_required_size_witness :
  let parse (params : string) (map : gmap string string) := map in
  let force (message audio : string) (audio_params : gmap string string)
            (video : string) (video_params : gmap string string) := message in
  let no_filter := SdpFilter.mk None None in
  let small := list_ascii_of_string "??" in
  let large := list_ascii_of_string "??????" in
  ((0 <= 2 < 2 ^ 64) /\ 4 < 2 ^ 64 /\ 2 < 4
   /\ mrsSdpForceCodecs parse force (Some "v=0") no_filter no_filter
        (Some small) (Some 2)
      = Returns (kInvalidParameter, small, 4))
  /\ ((0 <= 6 < 2 ^ 64) /\ 4 <= 6 /\ 6 <= Z.of_nat (length large)
      /\ mrsSdpForceCodecs parse force (Some "v=0") no_filter no_filter
           (Some large) (Some 6)
         = Returns (kSuccess, list_ascii_of_string "v=0" ++ [zero]
                              ++ list_ascii_of_string "??", 4)).
Proof.
  intros parse force no_filter small large.
  assert (Hcap2 : 0 <= 2 < 2 ^ 64) by lia.
  assert (Hcap6 : 0 <= 6 < 2 ^ 64) by lia.
  assert (Hreq : 4 < 2 ^ 64) by lia.
  split.
  - split; [assumption|]. split; [assumption|]. split; [lia|].
    apply (mrsSdpForceCodecs_reports_required_size parse force "v=0"
             no_filter no_filter small 2 Hcap2 Hreq).
    cbn. lia.
  - split; [assumption|]. split; [lia|]. split; [cbn; lia|].
    apply (mrsSdpForceCodecs_reports_required_size parse force "v=0"
             no_filter no_filter large 6 Hcap6 Hreq).
    + cbn. lia.
    + cbn. lia.
Defined.

(** * More on the statistics aggregation *)

Lemma find_if_None {A} (p : A -> bool) (vec : list A) :
  find_if p vec = None <-> existsb p vec = false.
Proof.
  induction vec as [|x vec IH]; cbn; [tauto|].
  destruct (p x); cbn; [split; discriminate|].
  rewrite <- IH. destruct (find_if p vec); cbn; split; congruence.
Qed.

Lemma find_if_Some {A} (p : A -> bool) (vec : list A) (it : nat) :
  find_if p vec = Some it ->
  (exists x, vec !! it = Some x /\ p x = true)
  /\ forall j y, (j < it)%nat -> vec !! j = Some y -> p y = false.
Proof.
  revert it. induction vec as [|x vec IH]; intros it; cbn; [discriminate|].
  destruct (p x) eqn:Hx.
  - intros [= <-]. split; [exists x; auto | intros; lia].
  - destruct (find_if p vec) as [i|]; [|discriminate].
    intros [= <-]. destruct (IH i eq_refl) as [Hat Hbefore].
    split; [exact Hat|].
    intros [|j] y Hj; cbn; [congruence | apply Hbefore; lia].
Qed.

Lemma existsb_keys {T} (id : string) (vec : list (string * T)) :
  existsb (fun pair => String.eqb id (fst pair)) vec
  = existsb (String.eqb id) (map fst vec).
Proof. induction vec as [|x vec IH]; cbn; [reflexivity | now rewrite IH]. Qed.

Lemma assign_keys {T} (vec : list (string * T)) (dest : nat) (f : T -> T) :
  map fst (assign vec dest f) = map fst vec.
Proof.
  unfold assign. revert dest.
  induction vec as [|x vec IH]; intros [|dest]; cbn; try reflexivity.
  now rewrite IH.
Qed.

Lemma FindOrInsert_keys {T} `{ValueInit T} (vec : list (string * T)) (id : string) :
  map fst (fst (FindOrInsert vec id)) = first_seen (map fst vec) (Some id).
Proof.
  unfold FindOrInsert, first_seen. rewrite <- existsb_keys.
  destruct (find_if _ vec) as [it|] eqn:Hfind.
  - destruct (existsb _ vec) eqn:Hex; [reflexivity|].
    apply find_if_None in Hex. congruence.
  - apply find_if_None in Hfind. rewrite Hfind. cbn.
    now rewrite map_app.
Qed.

Lemma find_if_app_None {A} (p : A -> bool) (vec : list A) (x : A) :
  find_if p vec = None -> p x = true ->
  find_if p (vec ++ [x]) = Some (length vec).
Proof.
  induction vec as [|y vec IH]; cbn; intros Hnone Hx.
  - now rewrite Hx.
  - destruct (p y); [discriminate|].
    destruct (find_if p vec); [discriminate|]. now rewrite IH.
Qed.

Lemma find_if_assign {T} (id : string) (vec : list (string * T)) (dest : nat)
    (f : T -> T) :
  find_if (fun pair => String.eqb id (fst pair)) (assign vec dest f)
  = find_if (fun pair => String.eqb id (fst pair)) vec.
Proof.
  unfold assign. revert dest.
  induction vec as [|x vec IH]; intros [|dest]; cbn; try reflexivity.
  now rewrite IH.
Qed.

(** Asking again for the slot just handed out, also after an assignment
    through the reference, finds it where it is. *)
Lemma FindOrInsert_again {T} `{ValueInit T} (vec : list (string * T))
    (id : string) (f : T -> T) :
  FindOrInsert
    (assign (fst (FindOrInsert vec id)) (snd (FindOrInsert vec id)) f) id
  = (assign (fst (FindOrInsert vec id)) (snd (FindOrInsert vec id)) f,
     snd (FindOrInsert vec id)).
Proof.
  unfold FindOrInsert.
  destruct (find_if (fun pair => String.eqb id (fst pair)) vec) as [it|] eqn:Hfind;
    cbn [fst snd].
  - now rewrite find_if_assign, Hfind.
  - rewrite find_if_assign, find_if_app_None;
      [reflexivity | assumption | apply String.eqb_refl].
Qed.

(** X1: [FindOrInsert] hands out the first slot filed under the identifier,
    creates it value-initialised at the end when there is none and changes
    nothing else, and asking again, also after assignments through the
    reference, hands out the same slot without touching the vector. *)
Theorem FindOrInsert_slot {T} `{ValueInit T} (vec : list (string * T))
    (id : string) (f : T -> T) :
  let vec' := fst (FindOrInsert vec id) in
  let it := snd (FindOrInsert vec id) in
  (exists value, vec' !! it = Some (id, value))
  /\ (forall j pair, (j < it)%nat -> vec' !! j = Some pair -> fst pair <> id)
  /\ (vec' = vec \/ (vec' = vec ++ [(id, value_init)] /\ it = length vec))
  /\ FindOrInsert (assign vec' it f) id = (assign vec' it f, it).
Proof.
  cbv zeta. destruct (FindOrInsert vec id) as [vec' it'] eqn:Hslot.
  cbn [fst snd]. unfold FindOrInsert in Hslot.
  destruct (find_if (fun pair => String.eqb id (fst pair)) vec) as [it|] eqn:Hfind;
    injection Hslot as <- <-.
  - destruct (find_if_Some _ _ _ Hfind) as [[[key value] [Hat Hkey]] Hbefore].
    cbn in Hkey. apply String.eqb_eq in Hkey. subst key.
    repeat split.
    + eauto.
    + intros j pair Hj Hpair Heq. specialize (Hbefore j pair Hj Hpair).
      cbn in Hbefore. rewrite <- Heq, String.eqb_refl in Hbefore. discriminate.
    + now left.
    + unfold FindOrInsert. now rewrite find_if_assign, Hfind.
  - repeat split.
    + exists value_init. rewrite lookup_app_r by lia.
      now rewrite Nat.sub_diag.
    + intros j pair Hj Hpair Heq. rewrite lookup_app_l in Hpair by assumption.
      apply find_if_None in Hfind.
      rewrite existsb_keys in Hfind.
      assert (Hin : In id (map fst vec)).
      { rewrite <- Heq. apply in_map. rewrite <- list_elem_of_In.
        eapply list_elem_of_lookup_2. exact Hpair. }
      assert (Hex : existsb (String.eqb id) (map fst vec) = true).
      { apply existsb_exists. exists id. split; [assumption|apply String.eqb_refl]. }
      congruence.
    + right. split; reflexivity.
    + unfold FindOrInsert. rewrite find_if_assign.
      rewrite find_if_app_None; [reflexivity | assumption | apply String.eqb_refl].
Qed.

Lemma slot_assign_keys {T} `{ValueInit T} (pending : list (string * T))
    (id : string) (f : T -> T) :
  map fst (let '(pending_stats, dest_stats) := FindOrInsert pending id in
           assign pending_stats dest_stats f)
  = first_seen (map fst pending) (Some id).
Proof.
  rewrite <- FindOrInsert_keys.
  destruct (FindOrInsert pending id) as [pending_stats dest_stats].
  apply assign_keys.
Qed.

(** Case analysis on the guards of a loop body, down to the slot it files
    the record under. *)
Ltac visit_keys :=
  cbn -[FindOrInsert first_seen assign];
  repeat match goal with
  | |- context [String.eqb ?a ?b] => destruct (String.eqb a b)
  | |- context [is_defined ?m] => destruct (is_defined m)
  | |- context [@deref bool _ ?m] => destruct (@deref bool _ m)
  end;
  cbn -[FindOrInsert first_seen assign];
  first [reflexivity | apply slot_assign_keys].

Lemma AudioSenderStats_visit_keys pending stats :
  map fst (AudioSenderStats_visit pending stats)
  = first_seen (map fst pending) (slot_key "AudioSenderStats" stats).
Proof. unfold slot_key. destruct stats; visit_keys. Qed.

Lemma AudioReceiverStats_visit_keys pending stats :
  map fst (AudioReceiverStats_visit pending stats)
  = first_seen (map fst pending) (slot_key "AudioReceiverStats" stats).
Proof. unfold slot_key. destruct stats; visit_keys. Qed.

Lemma VideoSenderStats_visit_keys pending stats :
  map fst (VideoSenderStats_visit pending stats)
  = first_seen (map fst pending) (slot_key "VideoSenderStats" stats).
Proof. unfold slot_key. destruct stats; visit_keys. Qed.

Lemma VideoReceiverStats_visit_keys pending stats :
  map fst (VideoReceiverStats_visit pending stats)
  = first_seen (map fst pending) (slot_key "VideoReceiverStats" stats).
Proof. unfold slot_key. destruct stats; visit_keys. Qed.

Lemma fold_left_keys {T} (visit : list (string * T) -> RTCStats -> list (string * T))
    (stats_type : string) :
  (forall pending stats,
      map fst (visit pending stats)
      = first_seen (map fst pending) (slot_key stats_type stats)) ->
  forall report pending,
    map fst (fold_left visit report pending)
    = fold_left first_seen (map (slot_key stats_type) report) (map fst pending).
Proof.
  intros Hvisit report. induction report as [|stats report IH]; intros pending.
  - reflexivity.
  - cbn. rewrite IH, Hvisit. reflexivity.
Qed.

(** X2: in each of the four joining branches the slots are filed, in order,
    under the identifiers of the records that pass the guards, each at its
    first appearance in the report. *)
Theorem pending_stats_in_first_seen_order (report : RTCStatsReport) :
  map fst (fold_left AudioSenderStats_visit report [])
  = fold_left first_seen (map (slot_key "AudioSenderStats") report) []
  /\ map fst (fold_left AudioReceiverStats_visit report [])
     = fold_left first_seen (map (slot_key "AudioReceiverStats") report) []
  /\ map fst (fold_left VideoSenderStats_visit report [])
     = fold_left first_seen (map (slot_key "VideoSenderStats") report) []
  /\ map fst (fold_left VideoReceiverStats_visit report [])
     = fold_left first_seen (map (slot_key "VideoReceiverStats") report) [].
Proof.
  repeat split.
  - apply (fold_left_keys _ _ AudioSenderStats_visit_keys).
  - apply (fold_left_keys _ _ AudioReceiverStats_visit_keys).
  - apply (fold_left_keys _ _ VideoSenderStats_visit_keys).
  - apply (fold_left_keys _ _ VideoReceiverStats_visit_keys).
Qed.

Lemma first_seen_NoDup (keys : list string) (key : option string) :
  NoDup keys -> NoDup (first_seen keys key).
Proof.
  intros Hkeys. destruct key as [k|]; cbn; [|assumption].
  destruct (existsb (String.eqb k) keys) eqn:Hex; [assumption|].
  apply NoDup_app. repeat split; [assumption| |apply NoDup_singleton].
  intros x Hx Hk. apply list_elem_of_singleton in Hk. subst x.
  assert (existsb (String.eqb k) keys = true); [|congruence].
  apply existsb_exists. exists k. split; [|apply String.eqb_refl].
  now apply list_elem_of_In.
Qed.

Lemma fold_first_seen_NoDup (new : list (option string)) :
  forall keys, NoDup keys -> NoDup (fold_left first_seen new keys).
Proof.
  induction new as [|key new IH]; intros keys Hkeys; cbn; [assumption|].
  apply IH, first_seen_NoDup, Hkeys.
Qed.

Lemma first_seen_length (keys : list string) (key : option string) :
  (length (first_seen keys key) <= S (length keys))%nat.
Proof.
  destruct key as [k|]; cbn; [|lia].
  destruct (existsb _ keys); [lia|]. rewrite length_app. cbn. lia.
Qed.

Lemma fold_first_seen_length (new : list (option string)) :
  forall keys,
    (length (fold_left first_seen new keys) <= length keys + length new)%nat.
Proof.
  induction new as [|key new IH]; intros keys; cbn; [lia|].
  specialize (IH (first_seen keys key)).
  pose proof (first_seen_length keys key). lia.
Qed.

(** X3: no identifier gets two slots: in each joining branch the identifiers
    of the pending structures are pairwise distinct, whatever the report. *)
Theorem pending_stats_keys_distinct (report : RTCStatsReport) :
  NoDup (map fst (fold_left AudioSenderStats_visit report []))
  /\ NoDup (map fst (fold_left AudioReceiverStats_visit report []))
  /\ NoDup (map fst (fold_left VideoSenderStats_visit report []))
  /\ NoDup (map fst (fold_left VideoReceiverStats_visit report [])).
Proof.
  rewrite (fold_left_keys _ _ AudioSenderStats_visit_keys),
    (fold_left_keys _ _ AudioReceiverStats_visit_keys),
    (fold_left_keys _ _ VideoSenderStats_visit_keys),
    (fold_left_keys _ _ VideoReceiverStats_visit_keys).
  repeat split; apply fold_first_seen_NoDup, NoDup_nil_2.
Qed.

Lemma flat_map_length_le {A B} (f : A -> list B) (l : list A) :
  (forall x, length (f x) <= 1)%nat -> (length (flat_map f l) <= length l)%nat.
Proof.
  intros Hone. induction l as [|x l IH]; cbn; [lia|].
  rewrite length_app. specialize (Hone x). lia.
Qed.

Lemma pending_length {T} (visit : list (string * T) -> RTCStats -> list (string * T))
    (stats_type : string) (wrap : T -> StatsObject) (report : RTCStatsReport) :
  (forall pending stats,
      map fst (visit pending stats)
      = first_seen (map fst pending) (slot_key stats_type stats)) ->
  length (map (fun stats => wrap (snd stats)) (fold_left visit report []))
  = length (fold_left first_seen (map (slot_key stats_type) report) []).
Proof.
  intros Hvisit. rewrite length_map.
  rewrite <- (length_map fst), (fold_left_keys _ _ Hvisit). reflexivity.
Qed.

(** X4: on a non-null report [mrsStatsReportGetObjects] returns success
    whatever the kind and never invokes the callback more often than the
    report has records; for a joining kind it invokes it once for each
    distinct identifier that the records passing the guards are filed
    under. *)
Theorem GetObjects_callback_count (report : RTCStatsReport) (stats_type : string) :
  fst (mrsStatsReportGetObjects (Some report) stats_type) = kSuccess
  /\ (length (snd (mrsStatsReportGetObjects (Some report) stats_type))
      <= length report)%nat
  /\ (In stats_type ["AudioSenderStats"; "AudioReceiverStats";
                     "VideoSenderStats"; "VideoReceiverStats"] ->
      length (snd (mrsStatsReportGetObjects (Some report) stats_type))
      = length (fold_left first_seen (map (slot_key stats_type) report) [])).
Proof.
  pose proof (fold_first_seen_length (map (slot_key stats_type) report) [])
    as Hbound.
  rewrite length_map in Hbound. cbn in Hbound.
  unfold mrsStatsReportGetObjects.
  repeat match goal with
  | |- context [String.eqb stats_type ?k] =>
      destruct (String.eqb_spec stats_type k) as [-> | ?]
  end; cbn [fst snd]; (split; [reflexivity|]).
  - split; [|cbn; intuition discriminate].
    apply flat_map_length_le. intros []; cbn; lia.
  - rewrite (pending_length _ _ _ _ AudioSenderStats_visit_keys). auto.
  - rewrite (pending_length _ _ _ _ AudioReceiverStats_visit_keys). auto.
  - rewrite (pending_length _ _ _ _ VideoSenderStats_visit_keys). auto.
  - rewrite (pending_length _ _ _ _ VideoReceiverStats_visit_keys). auto.
  - split; [|cbn; intuition discriminate].
    apply flat_map_length_le. intros []; cbn; lia.
  - split; [cbn; lia | cbn; intuition congruence].
Qed.

Lemma GetObjects_callback_count_witness :
  In "AudioSenderStats" ["AudioSenderStats"; "AudioReceiverStats";
                         "VideoSenderStats"; "VideoReceiverStats"]
  /\ length (snd (mrsStatsReportGetObjects
       (Some [OutboundRTPStreamStats
                (RTCOutboundRTPStreamStats.mk "RTCOutboundRTPAudioStream_1" 5
                   (Some "audio") (Some "T1") (Some 10) (Some 1200) None);
              MediaStreamTrackStats
                (RTCMediaStreamTrackStats.mk "T1" 6 (Some "microphone")
                   (Some false) (Some "audio") (Some double_half)
                   (Some double_zero) None (Some double_zero) None None None None);
              MediaStreamTrackStats
                (RTCMediaStreamTrackStats.mk "T2" 6 (Some "loopback")
                   (Some false) (Some "audio") None
                   (Some double_zero) None (Some double_zero) None None None None)])
       "AudioSenderStats")) = 2%nat.
Proof.
  split; [cbn; tauto|].
  rewrite (proj2 (proj2 (GetObjects_callback_count _ "AudioSenderStats")));
    [reflexivity | cbn; tauto].
Defined.

Lemma assign_assign {T} (vec : list (string * T)) (dest : nat) (f g : T -> T) :
  assign (assign vec dest f) dest g = assign vec dest (fun x => g (f x)).
Proof.
  unfold assign. revert dest.
  induction vec as [|x vec IH]; intros [|dest]; cbn; try reflexivity.
  now rewrite IH.
Qed.

Lemma assign_ext {T} (vec : list (string * T)) (dest : nat) (f g : T -> T) :
  (forall x, f x = g x) -> assign vec dest f = assign vec dest g.
Proof.
  intros Hfg. unfold assign. revert dest.
  induction vec as [|x vec IH]; intros [|dest]; cbn; try reflexivity.
  - now rewrite Hfg.
  - now rewrite IH.
Qed.

(** Two groups of assignments that commute can be made through the slot of
    one identifier in either order. *)
Lemma join_commutes {T} `{ValueInit T} (f g : T -> T)
    (pending : list (string * T)) (id : string) :
  (forall x, g (f x) = f (g x)) ->
  (let '(pending_stats, dest_stats) :=
     FindOrInsert
       (let '(pending_stats, dest_stats) := FindOrInsert pending id in
        assign pending_stats dest_stats f) id in
   assign pending_stats dest_stats g)
  = (let '(pending_stats, dest_stats) :=
       FindOrInsert
         (let '(pending_stats, dest_stats) := FindOrInsert pending id in
          assign pending_stats dest_stats g) id in
     assign pending_stats dest_stats f).
Proof.
  intros Hcommute.
  pose proof (FindOrInsert_again pending id f) as Hf.
  pose proof (FindOrInsert_again pending id g) as Hg.
  destruct (FindOrInsert pending id) as [pending_stats dest_stats].
  cbn [fst snd] in Hf, Hg. rewrite Hf, Hg, !assign_assign.
  apply assign_ext, Hcommute.
Qed.

(** A stream record and a track record filed under one identifier: the order
    in which the loop body visits them makes no difference. *)
Ltac visit_swap :=
  let x := fresh "x" in
  let y := fresh "y" in
  intros pending x y k Hx Hy;
  destruct x; try discriminate Hx; destruct y; try discriminate Hy;
  clear Hx Hy; unfold slot_key;
  cbn -[FindOrInsert assign];
  repeat match goal with
  | |- context [String.eqb ?a ?b] => destruct (String.eqb a b)
  | |- context [is_defined ?m] => destruct (is_defined m)
  | |- context [@deref bool _ ?m] => destruct (@deref bool _ m)
  end;
  cbn -[FindOrInsert assign]; try discriminate;
  intros [= ->] [= ->];
  apply join_commutes; intros []; reflexivity.

Lemma AudioSenderStats_visit_swap :
  forall pending x y k,
    is_rtp_stream x = true -> is_track y = true ->
    slot_key "AudioSenderStats" x = Some k ->
    slot_key "AudioSenderStats" y = Some k ->
    AudioSenderStats_visit (AudioSenderStats_visit pending x) y
    = AudioSenderStats_visit (AudioSenderStats_visit pending y) x.
Proof. visit_swap. Qed.

Lemma AudioReceiverStats_visit_swap :
  forall pending x y k,
    is_rtp_stream x = true -> is_track y = true ->
    slot_key "AudioReceiverStats" x = Some k ->
    slot_key "AudioReceiverStats" y = Some k ->
    AudioReceiverStats_visit (AudioReceiverStats_visit pending x) y
    = AudioReceiverStats_visit (AudioReceiverStats_visit pending y) x.
Proof. visit_swap. Qed.

Lemma VideoSenderStats_visit_swap :
  forall pending x y k,
    is_rtp_stream x = true -> is_track y = true ->
    slot_key "VideoSenderStats" x = Some k ->
    slot_key "VideoSenderStats" y = Some k ->
    VideoSenderStats_visit (VideoSenderStats_visit pending x) y
    = VideoSenderStats_visit (VideoSenderStats_visit pending y) x.
Proof. visit_swap. Qed.

Lemma VideoReceiverStats_visit_swap :
  forall pending x y k,
    is_rtp_stream x = true -> is_track y = true ->
    slot_key "VideoReceiverStats" x = Some k ->
    slot_key "VideoReceiverStats" y = Some k ->
    VideoReceiverStats_visit (VideoReceiverStats_visit pending x) y
    = VideoReceiverStats_visit (VideoReceiverStats_visit pending y) x.
Proof. visit_swap. Qed.

(** X5: a stream record and a track record that the requested kind files
    under the same identifier can stand in either order next to each other
    in the report: [mrsStatsReportGetObjects] invokes the callback with the
    same structures in the same order. *)
Theorem GetObjects_join_order_irrelevant
    (before after : RTCStatsReport) (x y : RTCStats)
    (stats_type k : string) :
  is_rtp_stream x = true -> is_track y = true ->
  slot_key stats_type x = Some k -> slot_key stats_type y = Some k ->
  mrsStatsReportGetObjects (Some (before ++ x :: y :: after)) stats_type
  = mrsStatsReportGetObjects (Some (before ++ y :: x :: after)) stats_type.
Proof.
  intros Hx Hy Hkx Hky. unfold mrsStatsReportGetObjects.
  rewrite !flat_map_app, !fold_left_app. cbn [fold_left flat_map].
  repeat match goal with
  | |- context [String.eqb stats_type ?kind] =>
      destruct (String.eqb_spec stats_type kind) as [-> | ?]
  end; try reflexivity.
  - destruct x; try discriminate Hx. all: destruct y; try discriminate Hy.
    all: reflexivity.
  - now rewrite (AudioSenderStats_visit_swap _ x y k).
  - now rewrite (AudioReceiverStats_visit_swap _ x y k).
  - now rewrite (VideoSenderStats_visit_swap _ x y k).
  - now rewrite (VideoReceiverStats_visit_swap _ x y k).
  - destruct x; try discriminate Hx. all: destruct y; try discriminate Hy.
    all: reflexivity.
Qed.

Lemma GetObjects_join_order_irrelevant_witness :
  let x := InboundRTPStreamStats
    (RTCInboundRTPStreamStats.mk "RTCInboundRTPVideoStream_7" 5
       (Some "video") (Some "V7") (Some 3) (Some 300) (Some 2)) in
  let y := MediaStreamTrackStats
    (RTCMediaStreamTrackStats.mk "V7" 6 (Some "screen") (Some true)
       (Some "video") None None None None None None (Some 2) (Some 0)) in
  let before := [TransportStats (RTCTransportStats.mk "RTCTransport_0_1" 5 (Some 7) (Some 9))] in
  (is_rtp_stream x = true /\ is_track y = true
   /\ slot_key "VideoReceiverStats" x = Some "V7"
   /\ slot_key "VideoReceiverStats" y = Some "V7")
  /\ mrsStatsReportGetObjects (Some (before ++ x :: y :: [])) "VideoReceiverStats"
     = mrsStatsReportGetObjects (Some (before ++ y :: x :: [])) "VideoReceiverStats".
Proof.
  intros x y before.
  split; [repeat split|].
  exact (GetObjects_join_order_irrelevant before [] x y "VideoReceiverStats" "V7"
           eq_refl eq_refl eq_refl eq_refl).
Defined.

(** X6: the data-channel and transport branches map the records one to one:
    the callback is invoked once for each record of the class, and the
    records of the other classes make no difference. *)
Theorem GetObjects_one_to_one (report : RTCStatsReport) :
  let data_channels :=
    List.filter (fun stats => String.eqb (type stats) "data-channel") report in
  let transports :=
    List.filter (fun stats => String.eqb (type stats) "transport") report in
  mrsStatsReportGetObjects (Some report) "DataChannelStats"
  = mrsStatsReportGetObjects (Some data_channels) "DataChannelStats"
  /\ length (snd (mrsStatsReportGetObjects (Some report) "DataChannelStats"))
     = length data_channels
  /\ mrsStatsReportGetObjects (Some report) "TransportStats"
     = mrsStatsReportGetObjects (Some transports) "TransportStats"
  /\ length (snd (mrsStatsReportGetObjects (Some report) "TransportStats"))
     = length transports.
Proof.
  cbn [mrsStatsReportGetObjects String.eqb Ascii.eqb Bool.eqb fst snd].
  induction report as [|stats report (IH1 & IH2 & IH3 & IH4)];
    [repeat split|].
  injection IH1 as IH1. injection IH3 as IH3.
  cbn [flat_map List.filter]. rewrite !length_app.
  destruct stats as [s|s|s|s|s|[] i ts]; cbn;
    rewrite <- ?IH1, <- ?IH3, ?IH2, ?IH4; repeat split; reflexivity.
Qed.

(** * More on the capture device selection *)

Lemma find_device_listed (info : DeviceInfo.t) (id : string) (indices : list Z) :
  find_device info id indices
  = if existsb (String.eqb id) (list_devices info indices) then [id] else [].
Proof.
  induction indices as [|i indices IH]; cbn; [reflexivity|].
  destruct (DeviceInfo.GetDeviceName info i) as [[name id']|]; [|exact IH].
  cbn. destruct (String.eqb_spec id id') as [->|]; [reflexivity | exact IH].
Qed.

Section CaptureProperties.
Context `{Engine}.

(** X7: [Create] answers not-found, without opening anything, when a device
    is asked for by an identifier that no readable device has, and when no
    identifier is given and no device can be read at all. *)
Theorem Create_not_found (config : VideoDeviceConfiguration.t)
    (info : DeviceInfo.t) (w : World) :
  CreateDeviceInfo w = Some info ->
  match VideoDeviceConfiguration.video_device_id config with
  | Some (String c s) =>
      ~ In (String c s)
          (list_devices info (counter_range (DeviceInfo.NumberOfDevices info)))
  | _ => list_devices info (counter_range (DeviceInfo.NumberOfDevices info)) = []
  end ->
  BuiltinVideoCaptureDeviceTrackSource_Create config w
  = Returns (kNotFound, None, w).
Proof.
  intros Hinfo Hnone. unfold BuiltinVideoCaptureDeviceTrackSource_Create.
  rewrite Hinfo.
  destruct (VideoDeviceConfiguration.video_device_id config) as [[|c s]|];
    cbn [IsStringNullOrEmpty negb].
  - now rewrite Hnone.
  - rewrite find_device_listed.
    destruct (existsb _ _) eqn:Hex; [|reflexivity].
    apply existsb_exists in Hex as (id & Hin & Heq).
    apply String.eqb_eq in Heq. subst id. contradiction.
  - now rewrite Hnone.
Qed.

End CaptureProperties.

Lemma Create_not_found_witness :
  let info := one_camera [VideoCaptureCapability.mk 640 480 30 kYUY2 false] in
  let config := VideoDeviceConfiguration.mk (Some "cam7") 0 0 double_zero in
  (@CreateDeviceInfo (camera_engine info) 0%nat = Some info
   /\ ~ In "cam7"
        (list_devices info (counter_range (DeviceInfo.NumberOfDevices info))))
  /\ @BuiltinVideoCaptureDeviceTrackSource_Create (camera_engine info) config
       0%nat = Returns (kNotFound, None, 0%nat).
Proof.
  intros info config.
  assert (Hnone : ~ In "cam7"
            (list_devices info (counter_range (DeviceInfo.NumberOfDevices info))))
    by (vm_compute; intros [Heq|[]]; discriminate Heq).
  split; [split; [reflexivity | exact Hnone]|].
  exact (@Create_not_found (camera_engine info) config info 0%nat eq_refl Hnone).
Defined.

Section SelectionProperties.
Context `{Engine}.
Variable info : DeviceInfo.t.
Variable config : VideoDeviceConfiguration.t.

(** Starting without a module, the inner loop ends with a module only at a
    capability that passed the comparisons. *)
Lemma capability_loop_opened (device_id_utf8 : string) (icaps : list Z) :
  forall (capability0 : VideoCaptureCapability.t) (w : World)
         (vcm : VideoCaptureModule) (capability : VideoCaptureCapability.t)
         (w' : World),
    capability_loop info config device_id_utf8 icaps None capability0 w
    = Returns (Some vcm, capability, w') ->
    capability_matches config capability = Returns true
    /\ exists icap,
        In icap icaps
        /\ DeviceInfo.GetCapability info device_id_utf8 icap = Some capability.
Proof.
  induction icaps as [|icap icaps IH]; intros capability0 w vcm capability w';
    cbn [capability_loop].
  - discriminate.
  - destruct (DeviceInfo.GetCapability info device_id_utf8 icap)
      as [read|] eqn:Hread.
    + destruct (capability_matches config read) as [[|]| |] eqn:Hmatch;
        cbn [outcome_bind]; try discriminate.
      * destruct (VideoCaptureFactory_Create device_id_utf8 w) as [[opened|] w1].
        -- intros [= <- <- <-]. split; [assumption|].
           exists icap. split; [now left | assumption].
        -- intros Hrest. destruct (IH _ _ _ _ _ Hrest) as (Hm & i & Hin & Hi).
           split; [assumption|]. exists i. split; [now right | assumption].
      * intros Hrest. destruct (IH _ _ _ _ _ Hrest) as (Hm & i & Hin & Hi).
        split; [assumption|]. exists i. split; [now right | assumption].
    + intros Hrest. destruct (IH _ _ _ _ _ Hrest) as (Hm & i & Hin & Hi).
      split; [assumption|]. exists i. split; [now right | assumption].
Qed.

Lemma In_counter_range (n i : Z) : In i (counter_range n) <-> 0 <= i < n.
Proof.
  unfold counter_range. rewrite in_map_iff. split.
  - intros (k & <- & Hk). apply in_seq in Hk. lia.
  - intros Hi. exists (Z.to_nat i). split; [lia|]. apply in_seq. lia.
Qed.

(** X8: when a capability is requested and one device is searched, a module
    that was opened comes with a capability of that device that passed the
    comparisons with the configuration. *)
Theorem single_device_capability_passes (device_id_utf8 : string) (w : World)
    (vcm : VideoCaptureModule) (capability : VideoCaptureCapability.t)
    (w' : World) :
  capability_requested config = true ->
  select_device info config [device_id_utf8] w
  = Returns (Some vcm, capability, w') ->
  capability_matches config capability = Returns true
  /\ exists icap,
      0 <= icap < DeviceInfo.NumberOfCapabilities info device_id_utf8
      /\ DeviceInfo.GetCapability info device_id_utf8 icap = Some capability.
Proof.
  intros Hrequested. unfold select_device.
  unfold capability_requested in Hrequested. rewrite Hrequested.
  cbn [device_loop].
  destruct (capability_loop info config device_id_utf8 _ None _ w)
    as [[[vcm1 capability1] w1]| |] eqn:Hloop; cbn [outcome_bind];
    try discriminate.
  intros [= -> -> ->].
  destruct (capability_loop_opened _ _ _ _ _ _ _ Hloop) as (Hm & icap & Hin & Hi).
  split; [assumption|]. exists icap. split; [|assumption].
  now apply In_counter_range.
Qed.

(** A device none of whose capabilities passes the comparisons. *)
Lemma capability_loop_unmatched (device_id_utf8 : string) (icaps : list Z) :
  (forall icap read,
      In icap icaps ->
      DeviceInfo.GetCapability info device_id_utf8 icap = Some read ->
      capability_matches config read = Returns false) ->
  forall (vcm : option VideoCaptureModule)
         (capability : VideoCaptureCapability.t) (w : World),
    capability_loop info config device_id_utf8 icaps vcm capability w
    = Returns (vcm, last_capability info device_id_utf8 icaps capability, w).
Proof.
  induction icaps as [|icap icaps IH]; intros Hnone vcm capability w;
    cbn [capability_loop last_capability fold_left].
  - reflexivity.
  - destruct (DeviceInfo.GetCapability info device_id_utf8 icap)
      as [read|] eqn:Hread.
    + rewrite (Hnone icap read) by (auto; now left). cbn [outcome_bind].
      apply IH. intros i r Hin. apply Hnone. now right.
    + apply IH. intros i r Hin. apply Hnone. now right.
Qed.

Lemma device_loop_app (ids1 ids2 : list string) :
  forall vcm capability w,
    device_loop info config (ids1 ++ ids2) vcm capability w
    = outcome_bind (device_loop info config ids1 vcm capability w)
        (fun '(vcm, capability, w) => device_loop info config ids2 vcm capability w).
Proof.
  induction ids1 as [|id ids1 IH]; intros vcm capability w; cbn.
  - reflexivity.
  - destruct (capability_loop info config id _ vcm capability w)
      as [[[vcm1 capability1] w1]| |]; cbn; [apply IH | reflexivity..].
Qed.

(** X9: the search goes on after a device was opened.  A later device none
    of whose capabilities passes the comparisons leaves the opened module and
    the world as they were, and leaves in the capability variable, which goes
    to [StartCapture], the last capability that it reported. *)
Theorem later_device_overwrites_capability
    (filtered_device_ids : list string) (device_id_utf8 : string)
    (vcm0 : option VideoCaptureModule) (capability0 : VideoCaptureCapability.t)
    (w0 : World) :
  (forall icap read,
      0 <= icap < DeviceInfo.NumberOfCapabilities info device_id_utf8 ->
      DeviceInfo.GetCapability info device_id_utf8 icap = Some read ->
      capability_matches config read = Returns false) ->
  device_loop info config (filtered_device_ids ++ [device_id_utf8])
    vcm0 capability0 w0
  = outcome_bind (device_loop info config filtered_device_ids vcm0 capability0 w0)
      (fun '(vcm, capability, w) =>
         Returns (vcm,
                  last_capability info device_id_utf8
                    (counter_range
                       (DeviceInfo.NumberOfCapabilities info device_id_utf8))
                    capability,
                  w)).
Proof.
  intros Hnone. rewrite device_loop_app.
  destruct (device_loop info config filtered_device_ids vcm0 capability0 w0)
    as [[[vcm capability] w]| |]; cbn [outcome_bind device_loop];
    [|reflexivity..].
  rewrite capability_loop_unmatched; [reflexivity|].
  intros icap read Hin. apply Hnone. now apply In_counter_range.
Qed.

End SelectionProperties.

Lemma single_device_capability_passes_witness :
  let info := one_camera
    [VideoCaptureCapability.mk 320 240 30 kI420 false;
     VideoCaptureCapability.mk 640 480 30 kYUY2 false] in
  let config := VideoDeviceConfiguration.mk None 640 0 double_zero in
  let capability := VideoCaptureCapability.mk 640 480 30 kYUY2 false in
  (capability_requested config = true
   /\ @select_device (camera_engine info) info config ["cam0"] 0%nat
      = Returns (Some "cam0", capability, 1%nat))
  /\ capability_matches config capability = Returns true
  /\ exists icap,
      0 <= icap < DeviceInfo.NumberOfCapabilities info "cam0"
      /\ DeviceInfo.GetCapability info "cam0" icap = Some capability.
Proof.
  intros info config capability.
  split; [split; reflexivity|].
  exact (@single_device_capability_passes (camera_engine info) info config
           "cam0" 0%nat "cam0" capability 1%nat eq_refl eq_refl).
Defined.

Lemma later_device_overwrites_capability_witness :
  let info := device_table
    [("cam0", [VideoCaptureCapability.mk 640 480 30 kYUY2 false]);
     ("cam1", [VideoCaptureCapability.mk 320 240 15 kI420 false])] in
  let config := VideoDeviceConfiguration.mk None 640 480 double_zero in
  (forall icap read,
      0 <= icap < DeviceInfo.NumberOfCapabilities info "cam1" ->
      DeviceInfo.GetCapability info "cam1" icap = Some read ->
      capability_matches config read = Returns false)
  /\ @device_loop (camera_engine info) info config (["cam0"] ++ ["cam1"])
       None VideoCaptureCapability.default 0%nat
     = Returns (Some "cam0", VideoCaptureCapability.mk 320 240 15 kI420 false,
                1%nat).
Proof.
  intros info config.
  assert (Hnone : forall icap read,
      0 <= icap < DeviceInfo.NumberOfCapabilities info "cam1" ->
      DeviceInfo.GetCapability info "cam1" icap = Some read ->
      capability_matches config read = Returns false).
  { intros icap read Hrange. cbn in Hrange.
    assert (icap = 0) as -> by lia. intros [= <-]. reflexivity. }
  split; [exact Hnone|].
  rewrite (@later_device_overwrites_capability (camera_engine info) info config
             ["cam0"] "cam1" None VideoCaptureCapability.default 0%nat Hnone).
  reflexivity.
Defined.

Section CreateProperties.
Context `{Engine}.


(** X11: a failure of the device acquisition reaches the caller of
    [mrsPeerConnectionAddLocalVideoTrack] with its own code, and with null in
    the output location. *)
Theorem AddLocalVideoTrack_passes_device_error
    (peer : PeerConnection) (pc_factory : PcFactory) (track_name : option string)
    (config : VideoDeviceConfiguration.t) (old : option LocalVideoTrack)
    (w w1 : World) (res : mrsResult) (video_source : option VideoCaptureModule) :
  IsStringNullOrEmpty track_name = false ->
  GlobalFactory_GetExisting w = Some pc_factory ->
  BuiltinVideoCaptureDeviceTrackSource_Create config w
  = Returns (res, video_source, w1) ->
  res <> kSuccess ->
  mrsPeerConnectionAddLocalVideoTrack (Some peer) track_name config
    (points_to old) w
  = Returns (res, points_to None, w1).
Proof.
  intros Hname Hfactory Hcreate Hres.
  unfold mrsPeerConnectionAddLocalVideoTrack.
  rewrite Hname, Hfactory, Hcreate. cbn [outcome_bind].
  now destruct res.
Qed.

End CreateProperties.


Lemma AddLocalVideoTrack_passes_device_error_witness :
  let info := one_camera [VideoCaptureCapability.mk 640 480 30 kYUY2 false] in
  let config := VideoDeviceConfiguration.mk (Some "cam7") 0 0 double_zero in
  (IsStringNullOrEmpty (Some "webcam") = false
   /\ @GlobalFactory_GetExisting (camera_engine info) 0%nat = Some tt
   /\ @BuiltinVideoCaptureDeviceTrackSource_Create (camera_engine info) config
        0%nat = Returns (kNotFound, None, 0%nat)
   /\ kNotFound <> kSuccess)
  /\ @mrsPeerConnectionAddLocalVideoTrack (camera_engine info) (Some 1%nat)
       (Some "webcam") config (points_to (Some 5%nat)) 0%nat
     = Returns (kNotFound, points_to None, 0%nat).
Proof.
  intros info config.
  assert (Hres : kNotFound <> kSuccess) by discriminate.
  split; [repeat split; exact Hres|].
  exact (@AddLocalVideoTrack_passes_device_error (camera_engine info) 1%nat tt
           (Some "webcam") config (Some 5%nat) 0%nat 0%nat kNotFound None
           eq_refl eq_refl eq_refl Hres).
Defined.

(** * More on the entry points *)

Section MoreFacadeProperties.
Context `{Engine}.
Variable kOrdered kReliable : Z.

(** X12: a handle-returning entry point that returns success leaves a
    non-null handle in the output location, whatever it was called with; for
    the two entry points that pass the engine's error code on, as long as the
    engine does not fail with the code of success. *)
Theorem success_returns_handle :
  (forall peer track_name config out w out' w',
      mrsPeerConnectionAddLocalVideoTrack peer track_name config out w
      = Returns (kSuccess, out', w') ->
      exists track, out' = points_to (Some track))
  /\ (forall peer track_name source out w out' w',
         mrsPeerConnectionAddLocalVideoTrackFromExternalSource peer track_name
           source out w = (kSuccess, out', w') ->
         exists track, out' = points_to (Some track))
  /\ (forall config interop out w out' w',
         (forall object, interop = Some object ->
                         fst (PeerConnection_create config object w)
                         <> Error kSuccess) ->
         mrsPeerConnectionCreate config interop out w = (kSuccess, out', w') ->
         exists peer, out' = points_to (Some peer))
  /\ (forall peer interop config callbacks out w out' w',
         (forall connection object label ordered reliable,
             peer = Some connection -> interop = Some object ->
             fst (PeerConnection_AddDataChannel connection
                    (mrsDataChannelConfig.id config) label ordered reliable
                    object w)
             <> Error kSuccess) ->
         mrsPeerConnectionAddDataChannel kOrdered kReliable peer interop config
           callbacks out w = (kSuccess, out', w') ->
         exists channel, out' = points_to (Some channel)).
Proof.
  repeat apply conj.
  - intros peer track_name config out w out' w'.
    unfold mrsPeerConnectionAddLocalVideoTrack.
    destruct (IsStringNullOrEmpty track_name); [discriminate|].
    destruct out as [|old]; [discriminate|].
    destruct peer as [peer|]; [|discriminate].
    destruct (GlobalFactory_GetExisting w) as [pc_factory|]; [|discriminate].
    destruct (BuiltinVideoCaptureDeviceTrackSource_Create config w)
      as [[[res video_source] w1] | |]; cbn; [|discriminate..].
    destruct res; try discriminate.
    destruct video_source as [video_source|]; [|discriminate].
    destruct (PcFactory_CreateVideoTrack _ _ _ w1) as [[video_track|] w2];
      [|discriminate].
    destruct (PeerConnection_AddLocalVideoTrack peer video_track w2)
      as [[wrapper | code] w3]; [|discriminate].
    intros [= <- <-]. eauto.
  - intros peer track_name source out w out' w'.
    unfold mrsPeerConnectionAddLocalVideoTrackFromExternalSource.
    destruct out as [|old]; [discriminate|].
    destruct peer as [peer|]; [|discriminate].
    destruct source as [source|]; [|discriminate].
    destruct (GlobalFactory_GetExisting w) as [pc_factory|]; [|discriminate].
    destruct (PcFactory_CreateVideoTrack _ _ _ w) as [[video_track|] w2];
      [|discriminate].
    destruct (PeerConnection_AddLocalVideoTrack peer video_track w2)
      as [[wrapper | code] w3]; [|discriminate].
    intros [= <- <-]. eauto.
  - intros config interop out w out' w' Hengine.
    unfold mrsPeerConnectionCreate.
    destruct out as [|old]; [discriminate|].
    destruct interop as [object|]; [|discriminate].
    specialize (Hengine object eq_refl).
    destruct (PeerConnection_create config object w) as [[peer | code] w1].
    + intros [= <- <-]. eauto.
    + intros [= -> <- <-]. now contradiction Hengine.
  - intros peer interop config callbacks out w out' w' Hengine.
    unfold mrsPeerConnectionAddDataChannel.
    destruct out as [|old]; [discriminate|].
    destruct interop as [object|]; [|discriminate].
    destruct peer as [peer|]; [|discriminate].
    specialize (Hengine peer object
                  (default "" (mrsDataChannelConfig.label config))
                  (negb (Z.land (mrsDataChannelConfig.flags config) kOrdered =? 0))
                  (negb (Z.land (mrsDataChannelConfig.flags config) kReliable =? 0))
                  eq_refl eq_refl).
    destruct (PeerConnection_AddDataChannel _ _ _ _ _ _ w)
      as [[channel | code] w1].
    + intros [= <- <-]. eauto.
    + intros [= -> <- <-]. now contradiction Hengine.
Qed.

(** The result of an entry point that stops at one of its checks. *)
Ltac rejected :=
  repeat match goal with |- exists _, _ => eexists end;
  split; [reflexivity | cbn; auto 6].

(** X13: an entry point that stops at one of its own checks has not called
    into the engine: the world is the one it was called in. *)
Theorem rejected_call_leaves_engine_alone :
  (forall peer track_name config out w,
      IsStringNullOrEmpty track_name = true \/ out = null_ptr \/ peer = None
      \/ GlobalFactory_GetExisting w = None ->
      exists res out',
        mrsPeerConnectionAddLocalVideoTrack peer track_name config out w
        = Returns (res, out', w)
        /\ In res [kInvalidParameter; kInvalidNativeHandle; kInvalidOperation])
  /\ (forall peer track_name source out w,
         out = null_ptr \/ peer = None \/ source = None
         \/ GlobalFactory_GetExisting w = None ->
         exists res out',
           mrsPeerConnectionAddLocalVideoTrackFromExternalSource peer
             track_name source out w = (res, out', w)
           /\ In res [kInvalidParameter; kInvalidNativeHandle; kUnknownError])
  /\ (forall peer interop config callbacks out w,
         out = null_ptr \/ interop = None \/ peer = None ->
         exists res out',
           mrsPeerConnectionAddDataChannel kOrdered kReliable peer interop
             config callbacks out w = (res, out', w)
           /\ In res [kInvalidParameter; kInvalidNativeHandle])
  /\ (forall config interop out w,
         out = null_ptr \/ interop = None ->
         mrsPeerConnectionCreate config interop out w
         = (kInvalidParameter, out, w))
  /\ (forall peer w,
         peer = None \/ GlobalFactory_GetExisting w = None ->
         exists res,
           mrsPeerConnectionAddLocalAudioTrack peer w = (res, w)
           /\ In res [kUnknownError; kInvalidOperation]).
Proof.
  repeat apply conj.
  - intros peer track_name config out w Hrejected.
    unfold mrsPeerConnectionAddLocalVideoTrack.
    destruct (IsStringNullOrEmpty track_name); [rejected|].
    destruct out as [|old]; [rejected|].
    destruct peer as [peer|]; [|rejected].
    destruct (GlobalFactory_GetExisting w) as [pc_factory|]; [|rejected].
    destruct Hrejected as [|[|[|]]]; discriminate.
  - intros peer track_name source out w Hrejected.
    unfold mrsPeerConnectionAddLocalVideoTrackFromExternalSource.
    destruct out as [|old]; [rejected|].
    destruct peer as [peer|]; [|rejected].
    destruct source as [source|]; [|rejected].
    destruct (GlobalFactory_GetExisting w) as [pc_factory|]; [|rejected].
    destruct Hrejected as [|[|[|]]]; discriminate.
  - intros peer interop config callbacks out w Hrejected.
    unfold mrsPeerConnectionAddDataChannel.
    destruct out as [|old]; [rejected|].
    destruct interop as [object|]; [|rejected].
    destruct peer as [peer|]; [|rejected].
    destruct Hrejected as [|[|]]; discriminate.
  - intros config interop out w Hrejected.
    unfold mrsPeerConnectionCreate.
    destruct out as [|old]; [reflexivity|].
    destruct interop as [object|]; [|reflexivity].
    destruct Hrejected; discriminate.
  - intros peer w Hrejected. unfold mrsPeerConnectionAddLocalAudioTrack.
    destruct peer as [peer|]; [|rejected].
    destruct (GlobalFactory_GetExisting w) as [pc_factory|]; [|rejected].
    destruct Hrejected; discriminate.
Qed.

End MoreFacadeProperties.

Lemma success_returns_handle_witness :
  let info := one_camera [VideoCaptureCapability.mk 640 480 30 kYUY2 false] in
  let config := VideoDeviceConfiguration.mk (Some "cam0") 640 480 (double_of_Z 30) in
  (exists out' w',
      @mrsPeerConnectionAddLocalVideoTrack (camera_engine info) (Some 1%nat)
        (Some "webcam") config (points_to None) 0%nat
      = Returns (kSuccess, out', w')
      /\ exists track, out' = points_to (Some track))
  /\ (exists out' w',
         (forall object, Some 3%nat = Some object ->
                         fst (@PeerConnection_create counting_engine true object 0%nat)
                         <> Error kSuccess)
         /\ @mrsPeerConnectionCreate counting_engine true (Some 3%nat)
              (points_to None) 0%nat = (kSuccess, out', w')
         /\ exists peer, out' = points_to (Some peer)).
Proof.
  intros info config.
  pose proof (@success_returns_handle (camera_engine info) 1 2)
    as (Hvideo & _).
  pose proof (@success_returns_handle counting_engine 1 2)
    as (_ & _ & Hcreate & _).
  assert (Hengine : forall object, Some 3%nat = Some object ->
            fst (@PeerConnection_create counting_engine true object 0%nat)
            <> Error kSuccess) by (intros object _; discriminate).
  split.
  - eexists _, _. split; [reflexivity|].
    eapply (Hvideo (Some 1%nat) (Some "webcam") config (points_to None) 0%nat).
    reflexivity.
  - eexists _, _. split; [exact Hengine|]. split; [reflexivity|].
    eapply (Hcreate true (Some 3%nat) (points_to None) 0%nat _ _ Hengine).
    reflexivity.
Defined.

Lemma rejected_call_leaves_engine_alone_witness :
  (exists res out',
      @mrsPeerConnectionAddLocalVideoTrack counting_engine None (Some "webcam")
        (VideoDeviceConfiguration.mk None 0 0 double_zero)
        (points_to (Some 5%nat)) 7%nat = Returns (res, out', 7%nat)
      /\ In res [kInvalidParameter; kInvalidNativeHandle; kInvalidOperation])
  /\ (exists res out',
         @mrsPeerConnectionAddDataChannel counting_engine 1 2 (Some 1%nat) None
           (mrsDataChannelConfig.mk 4 (Some "chat") 3)
           (@Build_mrsDataChannelCallbacks counting_engine 0%nat 0%nat 0%nat)
           (points_to (Some 5%nat)) 7%nat = (res, out', 7%nat)
         /\ In res [kInvalidParameter; kInvalidNativeHandle]).
Proof.
  pose proof (@rejected_call_leaves_engine_alone counting_engine 1 2)
    as (Hvideo & _ & Hchannel & _).
  split.
  - apply Hvideo. right. right. left. reflexivity.
  - apply Hchannel. right. left. reflexivity.
Defined.

(** * Properties of the enumerations *)

Section EnumerationProperties.
Context `{Engine}.
Variable fourcc_value : FourCC -> Z.



Lemma enumerate_devices_listed (info : DeviceInfo.t) (indices : list Z)
    (id name : string) :
  In (DeviceEnumerated id name) (enumerate_devices info indices) ->
  In id (list_devices info indices).
Proof.
  unfold enumerate_devices. induction indices as [|i indices IH]; cbn; [tauto|].
  destruct (DeviceInfo.GetDeviceName info i) as [[name' id']|]; cbn; [|exact IH].
  intros [[= -> ->] | Hin]; [now left | right; now apply IH].
Qed.

(** X15: an identifier that [mrsEnumVideoCaptureDevicesAsync] reports is one
    that [Create] finds: asked for that device, in the same world, [Create]
    does not answer not-found. *)
Theorem enumerated_device_is_found
    (enumCallback completedCallback : option Callback) (w : World)
    (id name : string) (width height : Z) (framerate : double) :
  In (DeviceEnumerated id name)
    (snd (mrsEnumVideoCaptureDevicesAsync enumCallback completedCallback w)) ->
  forall video_source w',
    BuiltinVideoCaptureDeviceTrackSource_Create
      (VideoDeviceConfiguration.mk (Some id) width height framerate) w
    <> Returns (kNotFound, video_source, w').
Proof.
  unfold mrsEnumVideoCaptureDevicesAsync.
  destruct enumCallback as [callback|]; [|intros []].
  destruct (CreateDeviceInfo w) as [info|] eqn:Hinfo; cbn [snd].
  - rewrite in_app_iff. intros [Hin | Hin].
    + apply enumerate_devices_listed in Hin.
      intros video_source w'.
      unfold BuiltinVideoCaptureDeviceTrackSource_Create. rewrite Hinfo.
      cbn [VideoDeviceConfiguration.video_device_id].
      assert (Hfound :
        exists first others,
          (if negb (IsStringNullOrEmpty (Some id))
           then find_device info id
                  (counter_range (DeviceInfo.NumberOfDevices info))
           else list_devices info
                  (counter_range (DeviceInfo.NumberOfDevices info)))
          = first :: others).
      { destruct (IsStringNullOrEmpty (Some id)); cbn [negb].
        - destruct (list_devices info _) as [|first others]; [destruct Hin|].
          eauto.
        - rewrite find_device_listed.
          assert (Hex : existsb (String.eqb id)
                          (list_devices info
                             (counter_range (DeviceInfo.NumberOfDevices info)))
                        = true).
          { apply existsb_exists. exists id.
            split; [assumption | apply String.eqb_refl]. }
          rewrite Hex. eauto. }
      destruct Hfound as (first & others & ->).
      destruct (select_device _ _ _ w) as [[[vcm capability] w1]| |];
        cbn [outcome_bind]; [|discriminate..].
      destruct vcm as [vcm|]; [|discriminate].
      unfold Initialize.
      destruct (StartCapture vcm capability _) as [started w2].
      destruct (started =? 0); cbn; discriminate.
    + destruct completedCallback; cbn in Hin; [|destruct Hin].
      destruct Hin as [Hin|[]]. discriminate Hin.
  - destruct completedCallback; cbn; [|intros []].
    intros [Hin|[]]. discriminate Hin.
Qed.

End EnumerationProperties.


Lemma enumerated_device_is_found_witness :
  let info := device_table
    [("cam0", [VideoCaptureCapability.mk 640 480 30 kYUY2 false]);
     ("cam1", [VideoCaptureCapability.mk 320 240 15 kI420 false])] in
  In (DeviceEnumerated "cam1" "Camera")
    (snd (@mrsEnumVideoCaptureDevicesAsync (camera_engine info) (Some 1%nat)
            (Some 2%nat) 0%nat))
  /\ forall video_source w',
      @BuiltinVideoCaptureDeviceTrackSource_Create (camera_engine info)
        (VideoDeviceConfiguration.mk (Some "cam1") 0 0 double_zero) 0%nat
      <> Returns (kNotFound, video_source, w').
Proof.
  intros info.
  assert (Hin : In (DeviceEnumerated "cam1" "Camera")
    (snd (@mrsEnumVideoCaptureDevicesAsync (camera_engine info) (Some 1%nat)
            (Some 2%nat) 0%nat))) by (vm_compute; tauto).
  split; [exact Hin|].
  exact (@enumerated_device_is_found (camera_engine info) (Some 1%nat)
           (Some 2%nat) 0%nat "cam1" "Camera" 0 0 double_zero Hin).
Defined.

Section FormatEnumerationProperties.
Context `{Engine}.
Variable fourcc_value : FourCC -> Z.

(** Where a reported format comes from. *)
Lemma enumerate_formats_source (info : DeviceInfo.t) (id : string)
    (cap_indices : list Z) (width height : Z) (framerate : double) (fourcc : Z) :
  In (FormatEnumerated width height framerate fourcc)
    (enumerate_formats fourcc_value info id cap_indices) ->
  exists cap_idx capability,
    In cap_idx cap_indices
    /\ DeviceInfo.GetCapability info id cap_idx = Some capability
    /\ VideoCaptureCapability.videoType capability <> kUnknown
    /\ width = to_uint32 (VideoCaptureCapability.width capability)
    /\ height = to_uint32 (VideoCaptureCapability.height capability)
    /\ framerate = double_of_Z (VideoCaptureCapability.maxFPS capability)
    /\ fourcc = FourCCFromVideoType fourcc_value
                  (VideoCaptureCapability.videoType capability).
Proof.
  unfold enumerate_formats.
  induction cap_indices as [|cap_idx cap_indices IH]; cbn [flat_map];
    [intros []|].
  rewrite in_app_iff. intros [Hhere | Hlater].
  - destruct (DeviceInfo.GetCapability info id cap_idx) as [capability|] eqn:Hread;
      [|destruct Hhere].
    destruct (Z.eqb_spec
                (FourCCFromVideoType fourcc_value
                   (VideoCaptureCapability.videoType capability))
                (to_uint32 (fourcc_value FOURCC_ANY))) as [|Hknown];
      cbn in Hhere; [destruct Hhere|].
    destruct Hhere as [[= <- <- <- <-]|[]].
    exists cap_idx, capability. repeat split; try assumption; [now left|].
    intros Hunknown. apply Hknown. now rewrite Hunknown.
  - destruct (IH Hlater) as (i & capability & Hin & Hrest).
    exists i, capability. split; [now right | exact Hrest].
Qed.

Lemma enumerate_device_formats_source (info : DeviceInfo.t)
    (device_id_str : string) (indices : list Z) (event : FormatEnumEvent) :
  In event (enumerate_device_formats fourcc_value info device_id_str indices) ->
  In device_id_str (list_devices info indices)
  /\ In event
       (enumerate_formats fourcc_value info device_id_str
          (counter_range (DeviceInfo.NumberOfCapabilities info device_id_str))).
Proof.
  induction indices as [|i indices IH]; cbn; [intros []|].
  destruct (DeviceInfo.GetDeviceName info i) as [[name id]|]; [|exact IH].
  destruct (String.eqb_spec id device_id_str) as [->|]; cbn [negb].
  - intros Hin. split; [now left | exact Hin].
  - intros Hin. destruct (IH Hin). split; [now right | assumption].
Qed.

Lemma enumerate_formats_no_completion (info : DeviceInfo.t) (id : string)
    (cap_indices : list Z) :
  Forall (fun event => forall result, event <> FormatEnumCompleted result)
    (enumerate_formats fourcc_value info id cap_indices).
Proof.
  unfold enumerate_formats.
  induction cap_indices as [|cap_idx cap_indices IH]; cbn [flat_map].
  - constructor.
  - apply Forall_app. split; [|exact IH].
    destruct (DeviceInfo.GetCapability info id cap_idx); [|constructor].
    destruct (negb _); constructor; [discriminate | constructor].
Qed.

(** X16: [mrsEnumVideoCaptureFormatsAsync] without a device identifier or
    without an enumeration callback returns invalid-parameter and invokes
    nothing; when the device table cannot be had it returns unknown-error,
    and the completed callback is not invoked; otherwise it returns success
    and the completed callback, when given, is invoked once, with success,
    after the last format. *)
Theorem EnumVideoCaptureFormats_completes (device_id : option string)
    (enumCallback completedCallback : option Callback) (w : World) :
  (IsStringNullOrEmpty device_id = true \/ enumCallback = None ->
   mrsEnumVideoCaptureFormatsAsync fourcc_value device_id enumCallback
     completedCallback w = (kInvalidParameter, []))
  /\ (IsStringNullOrEmpty device_id = false -> enumCallback <> None ->
      match CreateDeviceInfo w with
      | None =>
          mrsEnumVideoCaptureFormatsAsync fourcc_value device_id enumCallback
            completedCallback w = (kUnknownError, [])
      | Some info =>
          exists formats,
            mrsEnumVideoCaptureFormatsAsync fourcc_value device_id enumCallback
              completedCallback w
            = (kSuccess,
               formats ++ match completedCallback with
                          | Some _ => [FormatEnumCompleted kSuccess]
                          | None => []
                          end)
            /\ Forall (fun event =>
                         forall result, event <> FormatEnumCompleted result)
                 formats
      end).
Proof.
  unfold mrsEnumVideoCaptureFormatsAsync. split.
  - intros [-> | ->]; [reflexivity|].
    now destruct (IsStringNullOrEmpty device_id).
  - intros -> Hcallback. destruct enumCallback as [callback|]; [|congruence].
    destruct (CreateDeviceInfo w) as [info|]; [|reflexivity].
    eexists. split; [reflexivity|].
    apply List.Forall_forall. intros event Hin.
    apply enumerate_device_formats_source in Hin as [_ Hin].
    pose proof (enumerate_formats_no_completion info (default "" device_id)
                  (counter_range
                     (DeviceInfo.NumberOfCapabilities info (default "" device_id))))
      as Hnone.
    rewrite List.Forall_forall in Hnone. now apply Hnone.
Qed.

(** X17: a format that [mrsEnumVideoCaptureFormatsAsync] reports is a
    capability that the device asked for lists and that could be read, with
    a video type other than [kUnknown]; a device identifier that no readable
    device has yields no format, and still success. *)
Theorem EnumVideoCaptureFormats_reports_capabilities (device_id_str : string)
    (enumCallback completedCallback : option Callback) (w : World) :
  (forall width height framerate fourcc,
      In (FormatEnumerated width height framerate fourcc)
        (snd (mrsEnumVideoCaptureFormatsAsync fourcc_value (Some device_id_str)
                enumCallback completedCallback w)) ->
      exists info cap_idx capability,
        CreateDeviceInfo w = Some info
        /\ In device_id_str
             (list_devices info (counter_range (DeviceInfo.NumberOfDevices info)))
        /\ 0 <= cap_idx < DeviceInfo.NumberOfCapabilities info device_id_str
        /\ DeviceInfo.GetCapability info device_id_str cap_idx = Some capability
        /\ VideoCaptureCapability.videoType capability <> kUnknown
        /\ width = to_uint32 (VideoCaptureCapability.width capability)
        /\ height = to_uint32 (VideoCaptureCapability.height capability)
        /\ framerate = double_of_Z (VideoCaptureCapability.maxFPS capability)
        /\ fourcc = FourCCFromVideoType fourcc_value
                      (VideoCaptureCapability.videoType capability))
  /\ (forall info callback,
         device_id_str <> "" -> enumCallback = Some callback ->
         CreateDeviceInfo w = Some info ->
         ~ In device_id_str
             (list_devices info (counter_range (DeviceInfo.NumberOfDevices info))) ->
         mrsEnumVideoCaptureFormatsAsync fourcc_value (Some device_id_str)
           enumCallback completedCallback w
         = (kSuccess, match completedCallback with
                      | Some _ => [FormatEnumCompleted kSuccess]
                      | None => []
                      end)).
Proof.
  unfold mrsEnumVideoCaptureFormatsAsync. split.
  - intros width height framerate fourcc.
    destruct (IsStringNullOrEmpty (Some device_id_str)); [intros []|].
    destruct enumCallback as [callback|]; [|intros []].
    destruct (CreateDeviceInfo w) as [info|]; [|intros []].
    cbn [snd default]. rewrite in_app_iff. intros [Hin | Hin].
    + apply enumerate_device_formats_source in Hin as [Hdevice Hin].
      apply enumerate_formats_source in Hin
        as (cap_idx & capability & Hidx & Hrest).
      exists info, cap_idx, capability.
      split; [reflexivity|]. split; [assumption|].
      split; [now apply In_counter_range | exact Hrest].
    + destruct completedCallback; cbn in Hin; [|destruct Hin].
      destruct Hin as [Heq|[]]. discriminate Heq.
  - intros info callback Hid -> -> Hunknown.
    destruct device_id_str as [|c s]; [congruence|]. cbn [IsStringNullOrEmpty default].
    replace (enumerate_device_formats fourcc_value info (String c s) _)
      with (@nil FormatEnumEvent); [reflexivity|].
    destruct (enumerate_device_formats fourcc_value info (String c s) _)
      as [|event events] eqn:Hevents; [reflexivity|].
    exfalso. apply Hunknown.
    apply (enumerate_device_formats_source info (String c s) _ event).
    rewrite Hevents. now left.
Qed.

End FormatEnumerationProperties.

Lemma EnumVideoCaptureFormats_completes_witness :
  let info := one_camera
    [VideoCaptureCapability.mk 640 480 30 kYUY2 false;
     VideoCaptureCapability.mk 640 480 60 kUnknown false] in
  let fourcc_value := fun code => match code with FOURCC_ANY => -1 | _ => 1 end in
  (IsStringNullOrEmpty (Some "cam0") = false /\ Some 1%nat <> None)
  /\ match @CreateDeviceInfo (camera_engine info) 0%nat with
     | None =>
         @mrsEnumVideoCaptureFormatsAsync (camera_engine info) fourcc_value
           (Some "cam0") (Some 1%nat) (Some 2%nat) 0%nat = (kUnknownError, [])
     | Some info' =>
         exists formats,
           @mrsEnumVideoCaptureFormatsAsync (camera_engine info) fourcc_value
             (Some "cam0") (Some 1%nat) (Some 2%nat) 0%nat
           = (kSuccess, formats ++ [FormatEnumCompleted kSuccess])
           /\ Forall (fun event =>
                        forall result, event <> FormatEnumCompleted result)
                formats
     end.
Proof.
  intros info fourcc_value.
  assert (Hcallback : Some 1%nat <> @None nat) by discriminate.
  split; [split; [reflexivity | exact Hcallback]|].
  exact (proj2 (@EnumVideoCaptureFormats_completes (camera_engine info)
                  fourcc_value (Some "cam0") (Some 1%nat) (Some 2%nat) 0%nat)
           eq_refl Hcallback).
Defined.

Lemma EnumVideoCaptureFormats_reports_capabilities_witness :
  let info := one_camera
    [VideoCaptureCapability.mk 640 480 30 kYUY2 false;
     VideoCaptureCapability.mk 640 480 60 kUnknown false] in
  let fourcc_value := fun code => match code with FOURCC_ANY => -1 | _ => 1 end in
  (In (FormatEnumerated 640 480 (double_of_Z 30) 1)
     (snd (@mrsEnumVideoCaptureFormatsAsync (camera_engine info) fourcc_value
             (Some "cam0") (Some 1%nat) (Some 2%nat) 0%nat))
   /\ exists info' cap_idx capability,
       @CreateDeviceInfo (camera_engine info) 0%nat = Some info'
       /\ In "cam0"
            (list_devices info' (counter_range (DeviceInfo.NumberOfDevices info')))
       /\ 0 <= cap_idx < DeviceInfo.NumberOfCapabilities info' "cam0"
       /\ DeviceInfo.GetCapability info' "cam0" cap_idx = Some capability
       /\ VideoCaptureCapability.videoType capability <> kUnknown
       /\ 640 = to_uint32 (VideoCaptureCapability.width capability)
       /\ 480 = to_uint32 (VideoCaptureCapability.height capability)
       /\ double_of_Z 30 = double_of_Z (VideoCaptureCapability.maxFPS capability)
       /\ 1 = @FourCCFromVideoType fourcc_value
                (VideoCaptureCapability.videoType capability))
  /\ ("cam7" <> "" /\ Some 1%nat = Some 1%nat
      /\ @CreateDeviceInfo (camera_engine info) 0%nat = Some info
      /\ ~ In "cam7"
           (list_devices info (counter_range (DeviceInfo.NumberOfDevices info))))
  /\ @mrsEnumVideoCaptureFormatsAsync (camera_engine info) fourcc_value
       (Some "cam7") (Some 1%nat) (Some 2%nat) 0%nat
     = (kSuccess, [FormatEnumCompleted kSuccess]).
Proof.
  intros info fourcc_value.
  destruct (@EnumVideoCaptureFormats_reports_capabilities (camera_engine info)
              fourcc_value "cam0" (Some 1%nat) (Some 2%nat) 0%nat)
    as [Hsource _].
  destruct (@EnumVideoCaptureFormats_reports_capabilities (camera_engine info)
              fourcc_value "cam7" (Some 1%nat) (Some 2%nat) 0%nat)
    as [_ Hunknown].
  assert (Hin : In (FormatEnumerated 640 480 (double_of_Z 30) 1)
     (snd (@mrsEnumVideoCaptureFormatsAsync (camera_engine info) fourcc_value
             (Some "cam0") (Some 1%nat) (Some 2%nat) 0%nat)))
    by (vm_compute; tauto).
  assert (Hname : "cam7" <> "") by discriminate.
  assert (Hnone : ~ In "cam7"
           (list_devices info (counter_range (DeviceInfo.NumberOfDevices info))))
    by (vm_compute; intros [Heq|[]]; discriminate Heq).
  split; [split; [exact Hin | exact (Hsource _ _ _ _ Hin)]|].
  split; [repeat split; assumption|].
  exact (Hunknown info 1%nat Hname eq_refl eq_refl Hnone).
Defined.

(** * Properties of mrsCloseEnum *)

(** X18: [mrsCloseEnum] leaves null in the handle it is given, so that a
    second call on the same handle is a no-operation: the enumerator is
    disposed of and deleted once. *)
Theorem mrsCloseEnum_twice {Heap Enumerator : Type}
    (dispose delete_enumerator : Enumerator -> Heap -> Heap)
    (handleRef : out_ptr Enumerator) (heap : Heap) :
  let closed := mrsCloseEnum Heap Enumerator dispose delete_enumerator
                  handleRef heap in
  mrsCloseEnum Heap Enumerator dispose delete_enumerator (fst closed)
    (snd closed) = closed
  /\ (forall handle, fst closed <> points_to (Some handle)).
Proof.
  destruct handleRef as [|[handle|]]; cbn; repeat split; discriminate.
Qed.

(** * More on mrsSdpForceCodecs *)

Section MoreSdpProperties.
Variable SdpParseCodecParameters :
  string -> gmap string string -> gmap string string.
Variable SdpForceCodecs :
  string -> string -> gmap string string -> string -> gmap string string ->
  string.

(** X19: probe, allocate, retry.  The size that a call rejected for want of
    capacity leaves behind is a capacity with which the same request
    succeeds, on any buffer that really has it: the buffer then starts with
    the filtered message and its terminating null. *)
Theorem mrsSdpForceCodecs_probe_then_retry
    (message_str : string) (audio_filter video_filter : SdpFilter.t)
    (probe : list ascii) (capacity : Z) (probe' : list ascii) (required : Z)
    (buffer : list ascii) :
  let out_message :=
    filtered_message SdpParseCodecParameters SdpForceCodecs message_str
      audio_filter video_filter in
  Z.of_nat (String.length out_message) + 1 < 2 ^ 64 ->
  mrsSdpForceCodecs SdpParseCodecParameters SdpForceCodecs (Some message_str)
    audio_filter video_filter (Some probe) (Some capacity)
  = Returns (kInvalidParameter, probe', required) ->
  required <= Z.of_nat (length buffer) ->
  mrsSdpForceCodecs SdpParseCodecParameters SdpForceCodecs (Some message_str)
    audio_filter video_filter (Some buffer) (Some required)
  = Returns (kSuccess,
             list_ascii_of_string out_message ++ [zero]
             ++ drop (Z.to_nat required) buffer,
             required).
Proof.
  intros out_message Hfits. unfold mrsSdpForceCodecs.
  cbn [RTC_CHECK_ptr outcome_bind]. fold out_message.
  assert (Hsize : to_size_t (Z.of_nat (String.length out_message) + 1)
                  = Z.of_nat (String.length out_message) + 1)
    by (unfold to_size_t; apply Z.mod_small; lia).
  rewrite Hsize.
  assert (Hstored : to_uint64 (Z.of_nat (String.length out_message) + 1)
                    = Z.of_nat (String.length out_message) + 1)
    by (unfold to_uint64; apply Z.mod_small; lia).
  rewrite Hstored.
  destruct (to_size_t capacity <? _).
  - intros [= <- <-] Hreal. rewrite Hsize, Z.ltb_irrefl.
    replace (Z.to_nat (Z.of_nat (String.length out_message) + 1))
      with (String.length out_message + 1)%nat by lia.
    pose proof (store_terminated_string buffer out_message) as Hstore.
    unfold outcome_bind in Hstore |- *.
    destruct (store_chars buffer 0 (list_ascii_of_string out_message)).
    + rewrite Hstore by lia. reflexivity.
    + discriminate Hstore. lia.
    + discriminate Hstore. lia.
  - destruct (store_chars probe 0 _) as [stored| |]; cbn [outcome_bind];
      [|discriminate..].
    destruct (store_chars stored _ _); cbn; discriminate.
Qed.

(** X20: extra parameters count only with a codec name.  When neither filter
    names a codec, the parameters given and the parser make no difference to
    the call. *)
Theorem mrsSdpForceCodecs_ignores_parameters_without_codec
    (other_parser : string -> gmap string string -> gmap string string)
    (message : option string) (audio_filter video_filter : SdpFilter.t)
    (buffer : option (list ascii)) (buffer_size : option Z) :
  IsStringNullOrEmpty (SdpFilter.codec_name audio_filter) = true ->
  IsStringNullOrEmpty (SdpFilter.codec_name video_filter) = true ->
  mrsSdpForceCodecs SdpParseCodecParameters SdpForceCodecs message
    audio_filter video_filter buffer buffer_size
  = mrsSdpForceCodecs other_parser SdpForceCodecs message
      (SdpFilter.mk None None) (SdpFilter.mk None None) buffer buffer_size.
Proof.
  intros Haudio Hvideo. unfold mrsSdpForceCodecs.
  assert (Hmessage : forall message_str,
    filtered_message SdpParseCodecParameters SdpForceCodecs message_str
      audio_filter video_filter
    = filtered_message other_parser SdpForceCodecs message_str
        (SdpFilter.mk None None) (SdpFilter.mk None None)).
  { intros message_str. unfold filtered_message.
    destruct audio_filter as [[[|c s]|] audio_params]; try discriminate Haudio;
    destruct video_filter as [[[|c' s']|] video_params]; try discriminate Hvideo;
    cbn; destruct audio_params, video_params; reflexivity. }
  destruct message as [message_str|]; [|reflexivity].
  cbn [RTC_CHECK_ptr outcome_bind].
  destruct buffer as [chars|]; [|reflexivity].
  cbn [RTC_CHECK_ptr outcome_bind].
  destruct buffer_size as [size|]; [|reflexivity].
  cbn [RTC_CHECK_ptr outcome_bind]. now rewrite Hmessage.
Qed.

End MoreSdpProperties.

Lemma mrsSdpForceCodecs_probe_then_retry_witness :
  let parse (params : string) (map : gmap string string) := map in
  let force (message audio : string) (audio_params : gmap string string)
            (video : string) (video_params : gmap string string) := message in
  let no_filter := SdpFilter.mk None None in
  let buffer := list_ascii_of_string "??????" in
  (4 < 2 ^ 64
   /\ mrsSdpForceCodecs parse force (Some "v=0") no_filter no_filter
        (Some []) (Some 0) = Returns (kInvalidParameter, [], 4)
   /\ 4 <= Z.of_nat (length buffer))
  /\ mrsSdpForceCodecs parse force (Some "v=0") no_filter no_filter
       (Some buffer) (Some 4)
     = Returns (kSuccess,
                list_ascii_of_string "v=0" ++ [zero] ++ list_ascii_of_string "??",
                4).
Proof.
  intros parse force no_filter buffer.
  assert (Hfits : 4 < 2 ^ 64) by lia.
  assert (Hreal : 4 <= Z.of_nat (length buffer)) by (cbn; lia).
  split; [split; [exact Hfits | split; [reflexivity | exact Hreal]]|].
  exact (mrsSdpForceCodecs_probe_then_retry parse force "v=0" no_filter
           no_filter [] 0 [] 4 buffer Hfits eq_refl Hreal).
Defined.

Lemma mrsSdpForceCodecs_ignores_parameters_without_codec_witness :
  let parse (params : string) (map : gmap string string) :=
    <[params := "1"]> map in
  let other (params : string) (map : gmap string string) := map in
  let force (message audio : string) (audio_params : gmap string string)
            (video : string) (video_params : gmap string string) :=
    if decide (audio_params = ∅) then message else "" in
  (IsStringNullOrEmpty (SdpFilter.codec_name (SdpFilter.mk (Some "") (Some "stereo=1"))) = true
   /\ IsStringNullOrEmpty (SdpFilter.codec_name (SdpFilter.mk None None)) = true)
  /\ mrsSdpForceCodecs parse force (Some "v=0")
       (SdpFilter.mk (Some "") (Some "stereo=1")) (SdpFilter.mk None None)
       (Some (list_ascii_of_string "????")) (Some 4)
     = mrsSdpForceCodecs other force (Some "v=0")
         (SdpFilter.mk None None) (SdpFilter.mk None None)
         (Some (list_ascii_of_string "????")) (Some 4).
Proof.
  intros parse other force.
  split; [split; reflexivity|].
  exact (mrsSdpForceCodecs_ignores_parameters_without_codec parse force other
           (Some "v=0") (SdpFilter.mk (Some "") (Some "stereo=1"))
           (SdpFilter.mk None None) (Some (list_ascii_of_string "????"))
           (Some 4) eq_refl eq_refl).
Defined.

(** * More on mrsMemCpyStride *)

(** The row by row loop, for strides at least as wide as a row. *)
Lemma copy_rows_strided (dst_stride src_stride elem_size : Z) (rows : nat) :
  0 <= elem_size < 2 ^ 31 ->
  elem_size <= dst_stride -> elem_size <= src_stride ->
  forall (m : memory) (dst src : Z),
    allocated m src (src_stride * Z.of_nat rows) = true ->
    allocated m dst (dst_stride * Z.of_nat rows) = true ->
    dst + dst_stride * Z.of_nat rows <= src
    \/ src + src_stride * Z.of_nat rows <= dst ->
    exists m' : memory,
      copy_rows m dst dst_stride src src_stride elem_size rows = Returns m'
      /\ copied_rows m m' dst dst_stride src src_stride elem_size
           (Z.of_nat rows).
Proof.
  intros Hsize Hdst_stride Hsrc_stride.
  induction rows as [|rows IH]; intros m dst src Hasrc Hadst Hdisjoint.
  - exists m. split; [reflexivity|]. split; [intros; lia | reflexivity].
  - cbn [copy_rows].
    assert (Hrow : to_size_t elem_size = elem_size)
      by (unfold to_size_t; apply Z.mod_small; lia).
    rewrite Hrow.
    assert (Hasrc1 : allocated m src elem_size = true)
      by (apply (allocated_sub m src (src_stride * Z.of_nat (S rows)));
          [assumption | lia | nia]).
    assert (Hadst1 : allocated m dst elem_size = true)
      by (apply (allocated_sub m dst (dst_stride * Z.of_nat (S rows)));
          [assumption | lia | nia]).
    destruct (memcpy_copied m dst src elem_size) as (m1 & -> & Hfirst);
      [lia | assumption | assumption | apply ranges_overlap_false; nia |].
    cbn [outcome_bind].
    destruct (IH m1 (dst + dst_stride) (src + src_stride))
      as (m' & -> & Hrows & Hrest).
    + apply (copied_allocated m m1 dst src elem_size); [assumption..|].
      apply (allocated_sub m src (src_stride * Z.of_nat (S rows)));
        [assumption | lia | nia].
    + apply (copied_allocated m m1 dst src elem_size); [assumption..|].
      apply (allocated_sub m dst (dst_stride * Z.of_nat (S rows)));
        [assumption | lia | nia].
    + nia.
    + exists m'. split; [reflexivity|]. split.
      * intros i j Hi Hj. destruct (decide (i = 0)) as [->|Hlater].
        -- rewrite Hrest.
           ++ rewrite (Hfirst _). destruct (decide _) as [_|]; [|lia].
              f_equal. lia.
           ++ intros i' j' Hi' Hj'. nia.
        -- replace (dst + i * dst_stride + j)
             with (dst + dst_stride + (i - 1) * dst_stride + j) by lia.
           rewrite Hrows by lia.
           rewrite (Hfirst _). destruct (decide _) as [Hclash|_]; [nia|].
           f_equal. lia.
      * intros a Hout. rewrite Hrest.
        -- rewrite (Hfirst a). destruct (decide _) as [Hin|]; [|reflexivity].
           exfalso. apply (Hout 0 (a - dst)); lia.
        -- intros i j Hi Hj Ha. apply (Hout (i + 1) j); lia.
Qed.

(** A single copy of the whole block is the copy of its rows. *)
Lemma copied_tight_rows (m m' : memory) (dst src elem_size elem_count : Z) :
  0 <= elem_size -> 0 <= elem_count ->
  copied m m' dst src (elem_size * elem_count) ->
  copied_rows m m' dst elem_size src elem_size elem_size elem_count.
Proof.
  intros Hsize Hcount Hcopied. split.
  - intros i j Hi Hj. rewrite (Hcopied _).
    destruct (decide _) as [_|]; [f_equal; lia | nia].
  - intros a Hout. rewrite (Hcopied a).
    destruct (decide _) as [Hin|]; [|reflexivity].
    exfalso. assert (Hpositive : 0 < elem_size) by nia.
    apply (Hout ((a - dst) / elem_size) ((a - dst) mod elem_size)).
    + split; [apply Z.div_pos; lia|].
      apply Z.div_lt_upper_bound; lia.
    + apply Z.mod_pos_bound. lia.
    + pose proof (Z.div_mod (a - dst) elem_size ltac:(lia)). lia.
Qed.

(** X21: [mrsMemCpyStride] copies rows: for strides at least as wide as an
    element, and two buffers of [elem_count] strides each that are allocated
    and apart, byte [j] of element [i] of the destination becomes byte [j] of
    element [i] of the source, and every other byte of memory, the padding
    between the elements of the destination included, is left as it was. *)
Theorem mrsMemCpyStride_copies_rows
    (m : memory) (dst dst_stride src src_stride elem_size elem_count : Z) :
  0 <= elem_size < 2 ^ 31 ->
  0 <= elem_count < 2 ^ 31 ->
  elem_size <= dst_stride -> elem_size <= src_stride ->
  dst <> 0 -> src <> 0 ->
  allocated m src (src_stride * elem_count) = true ->
  allocated m dst (dst_stride * elem_count) = true ->
  dst + dst_stride * elem_count <= src \/ src + src_stride * elem_count <= dst ->
  exists m' : memory,
    mrsMemCpyStride m dst dst_stride src src_stride elem_size elem_count
    = Returns m'
    /\ copied_rows m m' dst dst_stride src src_stride elem_size elem_count.
Proof.
  intros Hsize Hcount Hdst_stride Hsrc_stride Hdst Hsrc Hasrc Hadst Hdisjoint.
  unfold mrsMemCpyStride.
  destruct (Z.eqb_spec dst 0) as [|_]; [contradiction|].
  destruct (Z.eqb_spec src 0) as [|_]; [contradiction|].
  destruct (Z.leb_spec elem_size dst_stride) as [_|]; [|lia].
  destruct (Z.leb_spec elem_size src_stride) as [_|]; [|lia].
  cbn [negb RTC_CHECK outcome_bind].
  destruct (Z.eqb_spec dst_stride elem_size) as [->|Hwide_dst];
    [destruct (Z.eqb_spec src_stride elem_size) as [->|Hwide_src]|];
    cbn [andb].
  - replace (to_size_t (to_size_t elem_size * to_size_t elem_count))
      with (elem_size * elem_count).
    + destruct (memcpy_copied m dst src (elem_size * elem_count))
        as (m' & -> & Hcopied);
        [nia | assumption | assumption | apply ranges_overlap_false; lia |].
      exists m'. split; [reflexivity|].
      apply copied_tight_rows; (assumption || lia).
    + unfold to_size_t.
      rewrite (Z.mod_small elem_size), (Z.mod_small elem_count) by lia.
      symmetry. apply Z.mod_small. nia.
  - destruct (copy_rows_strided elem_size src_stride elem_size
                (Z.to_nat elem_count) Hsize Hdst_stride Hsrc_stride m dst src)
      as (m' & Hrows & Hcopied); rewrite ?Z2Nat.id by lia; try assumption.
    rewrite Z2Nat.id in Hcopied by lia. eauto.
  - destruct (copy_rows_strided dst_stride src_stride elem_size
                (Z.to_nat elem_count) Hsize Hdst_stride Hsrc_stride m dst src)
      as (m' & Hrows & Hcopied); rewrite ?Z2Nat.id by lia; try assumption.
    rewrite Z2Nat.id in Hcopied by lia. eauto.
Qed.

Lemma mrsMemCpyStride_copies_rows_witness :
  let m : memory :=
    list_to_map
      [(100, Byte.x01); (101, Byte.x02); (102, Byte.xff);
       (103, Byte.x03); (104, Byte.x04); (105, Byte.xff);
       (200, Byte.x00); (201, Byte.x00); (202, Byte.x00); (203, Byte.x00);
       (204, Byte.x00); (205, Byte.x00); (206, Byte.x00); (207, Byte.x00)] in
  ((0 <= 2 < 2 ^ 31) /\ (0 <= 2 < 2 ^ 31) /\ 2 <= 4 /\ 2 <= 3
   /\ 200 <> 0 /\ 100 <> 0
   /\ allocated m 100 (3 * 2) = true
   /\ allocated m 200 (4 * 2) = true
   /\ (200 + 4 * 2 <= 100 \/ 100 + 3 * 2 <= 200))
  /\ exists m' : memory,
      mrsMemCpyStride m 200 4 100 3 2 2 = Returns m'
      /\ copied_rows m m' 200 4 100 3 2 2.
Proof.
  intros m.
  assert (Hsize : 0 <= 2 < 2 ^ 31) by lia.
  assert (Hdst_stride : 2 <= 4) by lia.
  assert (Hsrc_stride : 2 <= 3) by lia.
  assert (Hdst : 200 <> 0) by lia.
  assert (Hsrc : 100 <> 0) by lia.
  assert (Hasrc : allocated m 100 (3 * 2) = true) by (vm_compute; reflexivity).
  assert (Hadst : allocated m 200 (4 * 2) = true) by (vm_compute; reflexivity).
  assert (Hapart : 200 + 4 * 2 <= 100 \/ 100 + 3 * 2 <= 200) by lia.
  split; [repeat (split; [assumption|]); assumption|].
  exact (mrsMemCpyStride_copies_rows m 200 4 100 3 2 2 Hsize Hsize
           Hdst_stride Hsrc_stride Hdst Hsrc Hasrc Hadst Hapart).
Defined.

(** X22: the checks of [mrsMemCpyStride] and its empty loop.  A null pointer
    or a stride narrower than an element stops the process before a byte is
    copied.  Past the checks, with a stride wider than an element, a count
    that is zero or negative copies nothing: the loop body is not entered,
    and the memory is as it was, whatever is allocated. *)
Theorem mrsMemCpyStride_checks_and_empty_loop
    (m : memory) (dst dst_stride src src_stride elem_size elem_count : Z) :
  (dst = 0 \/ src = 0 \/ dst_stride < elem_size \/ src_stride < elem_size ->
   mrsMemCpyStride m dst dst_stride src src_stride elem_size elem_count
   = Aborts)
  /\ (dst <> 0 -> src <> 0 ->
      elem_size <= dst_stride -> elem_size <= src_stride ->
      dst_stride <> elem_size \/ src_stride <> elem_size ->
      elem_count <= 0 ->
      mrsMemCpyStride m dst dst_stride src src_stride elem_size elem_count
      = Returns m).
Proof.
  unfold mrsMemCpyStride. split.
  - intros Hbad.
    destruct (Z.eqb_spec dst 0); [reflexivity|].
    destruct (Z.leb_spec elem_size dst_stride); [|reflexivity].
    destruct (Z.eqb_spec src 0); [reflexivity|].
    destruct (Z.leb_spec elem_size src_stride); [|reflexivity].
    lia.
  - intros Hdst Hsrc Hdst_stride Hsrc_stride Hwide Hcount.
    destruct (Z.eqb_spec dst 0) as [|_]; [contradiction|].
    destruct (Z.eqb_spec src 0) as [|_]; [contradiction|].
    destruct (Z.leb_spec elem_size dst_stride) as [_|]; [|lia].
    destruct (Z.leb_spec elem_size src_stride) as [_|]; [|lia].
    cbn [negb RTC_CHECK outcome_bind].
    replace (Z.to_nat elem_count) with 0%nat by lia.
    destruct (Z.eqb_spec dst_stride elem_size) as [Htight_dst|Hwide_dst];
      [destruct (Z.eqb_spec src_stride elem_size) as [Htight_src|Hwide_src]|];
      cbn [andb]; [lia | reflexivity | reflexivity].
Qed.

Lemma mrsMemCpyStride_checks_and_empty_loop_witness :
  ((0 = 0 \/ 100 = 0 \/ 4 < 2 \/ 3 < 2)
   /\ mrsMemCpyStride ∅ 0 4 100 3 2 2 = Aborts)
  /\ ((200 <> 0 /\ 100 <> 0 /\ 2 <= 4 /\ 2 <= 3
       /\ (4 <> 2 \/ 3 <> 2) /\ -1 <= 0)
      /\ mrsMemCpyStride ∅ 200 4 100 3 2 (-1) = Returns ∅).
Proof.
  assert (Hnull : 0 = 0 \/ 100 = 0 \/ 4 < 2 \/ 3 < 2) by (left; reflexivity).
  assert (Hdst : 200 <> 0) by lia.
  assert (Hsrc : 100 <> 0) by lia.
  assert (Hdst_stride : 2 <= 4) by lia.
  assert (Hsrc_stride : 2 <= 3) by lia.
  assert (Hwide : 4 <> 2 \/ 3 <> 2) by (left; lia).
  assert (Hcount : -1 <= 0) by lia.
  split.
  - split; [exact Hnull|].
    exact (proj1 (mrsMemCpyStride_checks_and_empty_loop ∅ 0 4 100 3 2 2) Hnull).
  - split; [repeat (split; [assumption|]); assumption|].
    exact (proj2 (mrsMemCpyStride_checks_and_empty_loop ∅ 200 4 100 3 2 (-1))
             Hdst Hsrc Hdst_stride Hsrc_stride Hwide Hcount).
Defined.
